(** * gitCommit: commit-message renderer, version resolver and Git Flow engine

    A shallow embedding of the TypeScript sources

      - [src/extension.ts]                  ([messageCombine]),
      - [src/services/configService.ts]     ([ConfigService]),
      - [src/services/versionService.ts]    ([VersionService]),
      - [src/services/gitFlowService.ts]    ([GitFlowService]),

    together with the properties the specification states about them.

    Strings.  A JavaScript string is carried by a Rocq [string] holding its
    UTF-8 encoding, so that the literals of the sources (which contain CJK
    text) read as they are written.  Every pattern the code searches for is
    ASCII, and an ASCII byte never occurs inside a multi-byte UTF-8 sequence,
    so searching, prefix tests and replacement on the bytes agree with the
    same operations on UTF-16 code units. *)

From Stdlib Require Import String Ascii List Bool Arith Lia.
Import ListNotations.
Open Scope string_scope.
Open Scope bool_scope.
Open Scope nat_scope.

(* ================================================================== *)
(** * JavaScript string primitives *)
(* ================================================================== *)

Module JsString.

(** [s.startsWith(p)] *)
Definition startsWith (s p : string) : bool := String.prefix p s.

(** [s.includes(sub)] *)
Fixpoint includes (s sub : string) : bool :=
  String.prefix sub s ||
  match s with
  | EmptyString => false
  | String _ r => includes r sub
  end.

(** [hasChar c s]: the character [c] occurs in [s]. *)
Fixpoint hasChar (c : ascii) (s : string) : bool :=
  match s with
  | EmptyString => false
  | String a r => Ascii.eqb a c || hasChar c r
  end.

(** Truthiness of a string: only the empty string is falsy. *)
Definition truthy (s : string) : bool :=
  match s with EmptyString => false | String _ _ => true end.

(** [a || b] on strings. *)
Definition orElse (a b : string) : string := if truthy a then a else b.

(** Truthiness of [string | undefined] and of [string | null]. *)
Definition truthyOpt (o : option string) : bool :=
  match o with Some s => truthy s | None => false end.

(** ** White space and [trim]

    [String.prototype.trim] removes the code points of WhiteSpace and
    LineTerminator from both ends.  [whiteSpaceLen s] is the number of
    bytes the white-space code point at the head of [s] occupies in
    UTF-8, and [0] when [s] does not start with one. *)

Definition byte (c : ascii) : nat := nat_of_ascii c.


(** TAB, LF, VT, FF, CR and SP. *)
Definition white1 (c1 : ascii) : bool :=
  ((9 <=? byte c1) && (byte c1 <=? 13)) || (byte c1 =? 32).

(** U+00A0. *)
Definition white2 (c1 c2 : ascii) : bool :=
  (byte c1 =? 194) && (byte c2 =? 160).

(** U+1680, U+2000..U+200A, U+2028, U+2029, U+202F, U+205F, U+3000
    and U+FEFF. *)
Definition white3 (c1 c2 c3 : ascii) : bool :=
  ((byte c1 =? 225) && (byte c2 =? 154) && (byte c3 =? 128))
  || ((byte c1 =? 226) && (byte c2 =? 128) &&
      (((128 <=? byte c3) && (byte c3 <=? 138))
       || (byte c3 =? 168) || (byte c3 =? 169) || (byte c3 =? 175)))
  || ((byte c1 =? 226) && (byte c2 =? 129) && (byte c3 =? 159))
  || ((byte c1 =? 227) && (byte c2 =? 128) && (byte c3 =? 128))
  || ((byte c1 =? 239) && (byte c2 =? 187) && (byte c3 =? 191)).

Definition whiteSpaceLen (s : string) : nat :=
  match s with
  | EmptyString => 0
  | String c1 r1 =>
      if white1 c1 then 1
      else
        match r1 with
        | EmptyString => 0
        | String c2 r2 =>
            if white2 c1 c2 then 2
            else
              match r2 with
              | EmptyString => 0
              | String c3 _ => if white3 c1 c2 c3 then 3 else 0
              end
        end
  end.

(** Drop the first [n] characters. *)
Fixpoint drop (n : nat) (s : string) : string :=
  match n, s with
  | S k, String _ r => drop k r
  | _, _ => s
  end.

(** Keep the first [n] characters. *)
Fixpoint take (n : nat) (s : string) : string :=
  match n, s with
  | S k, String c r => String c (take k r)
  | _, _ => EmptyString
  end.

(** [trimStart]: the recursion is on a bound for the number of code
    points to remove, which the length of the string always covers. *)
Fixpoint trimStartN (fuel : nat) (s : string) : string :=
  match fuel with
  | 0 => s
  | S k =>
      match whiteSpaceLen s with
      | 0 => s
      | n => trimStartN k (drop n s)
      end
  end.

Definition trimStart (s : string) : string := trimStartN (String.length s) s.

(** [allWhite s]: [s] consists of white space only. *)
Definition allWhite (s : string) : bool :=
  match trimStart s with EmptyString => true | _ => false end.

(** [trimEnd]: the longest all-white suffix is removed. *)
Fixpoint trimEnd (s : string) : string :=
  match s with
  | EmptyString => EmptyString
  | String c r => if allWhite s then EmptyString else String c (trimEnd r)
  end.

Definition trim (s : string) : string := trimEnd (trimStart s).

(** ** [String.prototype.replace] with a global, group-free pattern

    [replaceAll pat repl s] is [s.replace(/pat/g, repl)] for a pattern
    [pat] that is a non-empty literal: matches are found from left to
    right and do not overlap.  The replacement text is a template in
    which [$$], [$&], [$`] and [$'] are expanded by [getSubstitution];
    a pattern without capture groups leaves every other [$] sequence as
    it is written. *)

Fixpoint getSubstitution (matched before after tpl : string) : string :=
  match tpl with
  | EmptyString => EmptyString
  | String a t =>
      if Ascii.eqb a "$" then
        match t with
        | EmptyString => String a EmptyString
        | String c r =>
            if Ascii.eqb c "$" then String "$" (getSubstitution matched before after r)
            else if Ascii.eqb c "&" then matched ++ getSubstitution matched before after r
            else if Ascii.eqb c "`" then before ++ getSubstitution matched before after r
            else if Ascii.eqb c "'" then after ++ getSubstitution matched before after r
            else String a (getSubstitution matched before after t)
        end
      else String a (getSubstitution matched before after t)
  end.

(** [replaceFrom pat repl whole s pos skip]: [s] is the part of [whole]
    from index [pos] on, of which the first [skip] characters belong to
    a match that has been replaced already. *)
Fixpoint replaceFrom (pat repl whole s : string) (pos skip : nat) : string :=
  match s with
  | EmptyString => EmptyString
  | String c r =>
      match skip with
      | S k => replaceFrom pat repl whole r (S pos) k
      | 0 =>
          if String.prefix pat s
          then getSubstitution pat (take pos whole)
                 (drop (pos + String.length pat) whole) repl
               ++ replaceFrom pat repl whole r (S pos) (String.length pat - 1)
          else String c (replaceFrom pat repl whole r (S pos) 0)
      end
  end.

Definition replaceAll (pat repl s : string) : string :=
  replaceFrom pat repl s s 0 0.

End JsString.

(* ================================================================== *)
(** * The commit-message renderer ([src/extension.ts]) *)
(* ================================================================== *)

Module Renderer.
Import JsString.

(** [GitCommitMessage] of [src/types/commit.ts]. *)
Record GitCommitMessage := {
  templateName : string;
  templateContent : string;
  icon : string;
  type : string;
  scope : string;
  subject : string;
  body : string;
  footer : string
}.

(** The placeholder-replacement statements of [messageCombine], in the
    order in which they are executed.  [isShowEmoji] is the extension
    setting [odinsamGitCommit.showEmoji]. *)
Definition substitute (isShowEmoji : bool) (config : GitCommitMessage) : string :=
  let result := templateContent config in
  let result := if isShowEmoji then replaceAll "<icon>" (icon config) result
                else replaceAll "<icon>" "" result in
  let result := if negb (type config =? "")%string
                then replaceAll "<type>" (type config) result
                else replaceAll "<type>" "" result in
  let result := if negb (scope config =? "")%string
                then replaceAll "<scope>" (scope config) result
                else replaceAll "<scope>" "" result in
  let result := if negb (subject config =? "")%string
                then replaceAll "<subject>" (subject config) result
                else replaceAll "<subject>" "" result in
  let result := if negb (body config =? "")%string
                then replaceAll "<body>" (body config) result
                else replaceAll "<body>" "" result in
  let result := if negb (footer config =? "")%string
                then replaceAll "<footer>" (footer config) result
                else replaceAll "<footer>" "" result in
  let result := replaceAll "<enter>" (String "010" (String "010" "")) result in
  let result := replaceAll "<space>" " " result in
  result.

(** [messageCombine].  [autoVersion] is the setting
    [odinsamGitCommit.autoVersion]; [versionInfo] is what the guarded
    call of [VersionService.getVersionInfo] delivers, the empty string
    when the Git extension is disabled, no repository is open or the
    call throws (in all of which nothing is appended). *)
Definition messageCombine (isShowEmoji autoVersion : bool) (versionInfo : string)
           (config : GitCommitMessage) : string :=
  let result := substitute isShowEmoji config in
  let result :=
    if autoVersion
    then if truthy versionInfo
         then result ++ String "010" (String "010" "") ++ versionInfo
         else result
    else result in
  trim result.

(** The eight placeholder tokens. *)
Definition placeholders : list string :=
  ["<icon>"; "<type>"; "<scope>"; "<subject>"; "<body>"; "<footer>";
   "<enter>"; "<space>"].

(** The default template of [src/config/template-type.ts]. *)
Definition angularTemplate : string :=
  "<icon><space><type>(<scope>):<space><subject><enter><body><enter><footer>".

(** [config] with another template: rendering the output of a rendering
    again means rendering this. *)
Definition withTemplate (config : GitCommitMessage) (content : string) : GitCommitMessage :=
  {| templateName := templateName config; templateContent := content;
     icon := icon config; type := type config; scope := scope config;
     subject := subject config; body := body config; footer := footer config |}.

(** ** Templates as sequences of placeholders and literal characters

    Used to state for which templates rendering leaves no placeholder
    behind. *)

Inductive Placeholder :=
| PIcon | PType | PScope | PSubject | PBody | PFooter | PEnter | PSpace.

Definition token (p : Placeholder) : string :=
  match p with
  | PIcon => "<icon>"
  | PType => "<type>"
  | PScope => "<scope>"
  | PSubject => "<subject>"
  | PBody => "<body>"
  | PFooter => "<footer>"
  | PEnter => "<enter>"
  | PSpace => "<space>"
  end.

Definition placeholderEqb (p q : Placeholder) : bool :=
  match p, q with
  | PIcon, PIcon | PType, PType | PScope, PScope | PSubject, PSubject
  | PBody, PBody | PFooter, PFooter | PEnter, PEnter | PSpace, PSpace => true
  | _, _ => false
  end.

Inductive Segment :=
| Text (c : ascii)
| Hole (p : Placeholder).

Fixpoint assemble (segs : list Segment) : string :=
  match segs with
  | [] => EmptyString
  | Text c :: rest => String c (assemble rest)
  | Hole p :: rest => token p ++ assemble rest
  end.

(** The literal characters of the template are not [<]. *)
Definition literalText (segs : list Segment) : bool :=
  forallb (fun seg => match seg with
                      | Text c => negb (Ascii.eqb c "<")
                      | Hole _ => true
                      end) segs.

(** A field value that holds neither [<] nor [$]. *)
Definition cleanValue (v : string) : bool :=
  negb (hasChar "<" v) && negb (hasChar "$" v).

Definition cleanFields (config : GitCommitMessage) : bool :=
  cleanValue (icon config) && cleanValue (type config) && cleanValue (scope config)
  && cleanValue (subject config) && cleanValue (body config)
  && cleanValue (footer config).

(** The default template, segment by segment. *)
Definition angularSegments : list Segment :=
  [Hole PIcon; Hole PSpace; Hole PType; Text "("; Hole PScope; Text ")"; Text ":";
   Hole PSpace; Hole PSubject; Hole PEnter; Hole PBody; Hole PEnter; Hole PFooter].

End Renderer.

(* ================================================================== *)
(** * The host: paths, files, regular expressions, child processes *)
(* ================================================================== *)

(** Result of [content.match(new RegExp(pattern))] for a pattern without
    the [g] flag: the constructor throws on an invalid pattern; otherwise
    the match is [null] or an array whose element 0 is the matched text
    and whose element [i >= 1] is the text of capture group [i], or
    [undefined] when the group did not take part. *)
Inductive RegExpResult :=
| RegExpThrows
| MatchNull
| MatchArray (whole : string) (groups : list (option string)).

(** [GitCommitProjectConfig] of [configService.ts]. *)
Record GitCommitProjectConfig := {
  projectName : string;
  path : string;
  versionRegex : string;
  description : option string
}.

(** The value of the [config] property of a parsed [.gitcommit] file:
    missing, an array of project records, or some other JSON value, of
    which only the truthiness is ever looked at. *)
Inductive ConfigProperty :=
| ConfigUndefined
| ConfigArray (projects : list GitCommitProjectConfig)
| ConfigOther (isTruthy : bool).

(** [GitCommitConfigFile] of [configService.ts]: what [JSON.parse]
    delivers, read at the properties the code looks at.  A property that
    is missing is [None]. *)
Record GitCommitConfigFile := {
  cf_projectName : option string;
  cf_path : option string;
  cf_versionRegex : option string;
  cf_description : option string;
  cf_config : ConfigProperty
}.

(** The services of Node.js the code calls.  [exec cmd cwd] is
    [util.promisify(child_process.exec)(cmd, {cwd})]: the standard output
    of the command, or the message of the error it rejects with. *)
Class Host := {
  dirname : string -> string;                         (* [path.dirname] *)
  join : string -> string -> string;                  (* [path.join] *)
  existsSync : string -> bool;                        (* [fs.existsSync] *)
  isFile : string -> bool;                            (* [fs.statSync(p).isFile()] *)
  readFileSync : string -> option string;             (* [None]: the read throws *)
  jsonParse : string -> option GitCommitConfigFile;   (* [None]: [JSON.parse] throws,
                                                         or yields [null] *)
  regExpMatch : string -> string -> RegExpResult;     (* pattern, then subject *)
  exec : string -> string -> string + string;
  (** [path.dirname] never lengthens a path for more than one step: it
      returns its argument (a root), a shorter path, or a path that is
      its own parent (["."] for a bare file name). *)
  dirname_descends : forall p,
      dirname p = p \/ String.length (dirname p) < String.length p
      \/ dirname (dirname p) = dirname p
}.

(* ================================================================== *)
(** * [ConfigService] ([src/services/configService.ts]) *)
(* ================================================================== *)

Module ConfigService.
Import JsString.

Section WithHost.
Context {host : Host}.

Definition CONFIG_FILE_NAME : string := ".gitcommit".

(** The [while] loop of [findProjectRoot].  [None] means that [fuel]
    iterations were not enough; [findRootLoop_total] shows that this
    does not happen with the fuel [findProjectRoot] gives. *)
Fixpoint findRootLoop (fuel : nat) (currentPath : string) : option (option string) :=
  match fuel with
  | 0 => None
  | S k =>
      if (currentPath =? dirname currentPath)%string then Some None
      else if existsSync (join currentPath CONFIG_FILE_NAME) then Some (Some currentPath)
      else findRootLoop k (dirname currentPath)
  end.

Definition findProjectRoot (startPath : string) : option string :=
  let currentPath :=
    if existsSync startPath && isFile startPath then dirname startPath
    else startPath in
  match findRootLoop (2 + String.length currentPath) currentPath with
  | Some r => r
  | None => None
  end.

(** [split('\n')] *)
Fixpoint splitLines (s : string) : list string :=
  match s with
  | EmptyString => [EmptyString]
  | String c r =>
      if Ascii.eqb c "010" then EmptyString :: splitLines r
      else match splitLines r with
           | l :: ls => String c l :: ls
           | [] => [String c EmptyString]
           end
  end.

(** [join('\n')] *)
Definition joinLines (ls : list string) : string :=
  String.concat (String "010" EmptyString) ls.

(** The comment-line filter of [readConfig]. *)
Definition stripComments (content : string) : string :=
  joinLines (filter (fun line => negb (startsWith (trim line) "//"))
                    (splitLines content)).

Definition readConfig (projectRoot : string) : option GitCommitConfigFile :=
  let configPath := join projectRoot CONFIG_FILE_NAME in
  if negb (existsSync configPath) then None
  else
    match readFileSync configPath with
    | None => None
    | Some text =>
        let configContent := stripComments (trim text) in
        match jsonParse configContent with
        | None => None
        | Some jsonConfig =>
            let hasConfig :=
              match cf_config jsonConfig with
              | ConfigUndefined => false
              | ConfigArray _ => true
              | ConfigOther t => t
              end in
            let isArray :=
              match cf_config jsonConfig with
              | ConfigArray _ => true
              | _ => false
              end in
            if negb hasConfig &&
               (negb (truthyOpt (cf_projectName jsonConfig))
                || negb (truthyOpt (cf_path jsonConfig)))
            then None
            else if hasConfig && negb isArray then None
            else Some jsonConfig
        end
    end.

(** [Array.prototype.find] *)
Definition findProject (name : string) (l : list GitCommitProjectConfig)
  : option GitCommitProjectConfig :=
  List.find (fun p => (projectName p =? name)%string) l.

Definition getProjectConfig (configFileRoot : string) (projectName' : option string)
  : option GitCommitProjectConfig :=
  match readConfig configFileRoot with
  | None => None
  | Some configFile =>
      match cf_config configFile with
      | ConfigArray projects =>
          let named :=
            if truthyOpt projectName'
            then match projectName' with
                 | Some n => findProject n projects
                 | None => None
                 end
            else None in
          match named with
          | Some projectConfig => Some projectConfig
          | None =>
              match projects with
              | first :: _ => Some first
              | [] => None
              end
          end
      | _ =>
          match cf_projectName configFile, cf_path configFile,
                cf_versionRegex configFile with
          | Some n, Some p, Some r =>
              if truthy n && truthy p && truthy r
              then Some {| projectName := n; path := p; versionRegex := r;
                           description := cf_description configFile |}
              else None
          | _, _, _ => None
          end
      end
  end.

(** The part of [readVersionFromFile] that follows [content.match]. *)
Definition versionOfMatch (m : RegExpResult) : option string :=
  match m with
  | RegExpThrows => None
  | MatchNull => None
  | MatchArray whole groups =>
      match nth 0 groups None with
      | Some (String c g) => Some (trim (String c g))
      | _ => if truthy whole then Some (trim whole) else None
      end
  end.

Definition readVersionFromFile (configFileRoot filePath versionRegex' : string)
  : option string :=
  let fullPath := join configFileRoot filePath in
  if negb (existsSync fullPath) then None
  else
    match readFileSync fullPath with
    | None => None
    | Some content => versionOfMatch (regExpMatch versionRegex' content)
    end.

Definition getProjectVersion (startPath : string) (projectName' : option string)
  : option string :=
  match findProjectRoot startPath with
  | None => None
  | Some configFileRoot =>
      if negb (truthy configFileRoot) then None
      else
        match getProjectConfig configFileRoot projectName' with
        | None => None
        | Some config =>
            if truthy (path config) && truthy (versionRegex config)
            then match readVersionFromFile configFileRoot (path config)
                                           (versionRegex config) with
                 | Some version => if truthy version then Some version else None
                 | None => None
                 end
            else None
        end
  end.

End WithHost.
End ConfigService.

(* ================================================================== *)
(** * [VersionService] ([src/services/versionService.ts]) *)
(* ================================================================== *)

(** A promise that has settled: fulfilled with a value, or rejected with
    an [Error] of which the message is kept. *)
Inductive Settled (A : Type) :=
| Fulfilled (a : A)
| Rejected (message : string).
Arguments Fulfilled {A} a.
Arguments Rejected {A} message.

Module VersionService.
Import JsString.

Section WithHost.
Context {host : Host}.

Definition LF : string := String "010" EmptyString.

(** [stdout.trim() || null], and [null] when the command fails. *)
Definition trimmedOutput (cmd projectRoot : string) : option string :=
  match exec cmd projectRoot with
  | inl stdout => if truthy (trim stdout) then Some (trim stdout) else None
  | inr _ => None
  end.

Definition getLatestTag (projectRoot : string) : option string :=
  trimmedOutput "git describe --tags --abbrev=0" projectRoot.

Definition getCurrentBranch (projectRoot : string) : option string :=
  trimmedOutput "git rev-parse --abbrev-ref HEAD" projectRoot.

Definition getCurrentVersion (projectRoot : string) (filePath projectName' : option string)
  : Settled string :=
  (* 1. the project configuration file, when a file path is given *)
  let configVersion :=
    match filePath with
    | Some fp => if truthy fp then ConfigService.getProjectVersion fp projectName'
                 else None
    | None => None
    end in
  let fromGit :=
    (* 2. a tag on the current commit *)
    let tagOutput :=
      match exec "git describe --tags --exact-match HEAD" projectRoot with
      | inl stdout => trim stdout
      | inr _ => ""
      end in
    if truthy (trim tagOutput) then Fulfilled (trim tagOutput)
    else
      (* 3. the abbreviated commit hash *)
      match exec "git rev-parse --short=8 HEAD" projectRoot with
      | inl hashOutput => Fulfilled (trim hashOutput)
      | inr errorMessage =>
          Rejected ("获取当前版本号失败: " ++ errorMessage)
      end in
  match configVersion with
  | Some version => if truthy version then Fulfilled version else fromGit
  | None => fromGit
  end.

(** The guard at the head of [getVersionInfo]: a multi-project
    configuration and no project chosen. *)
Definition multiProjectWithoutChoice (filePath projectName' : option string) : bool :=
  match filePath, projectName' with
  | Some fp, None =>
      truthy fp &&
      match ConfigService.findProjectRoot fp with
      | Some configFileRoot =>
          truthy configFileRoot &&
          match ConfigService.readConfig configFileRoot with
          | Some configFile =>
              match cf_config configFile with
              | ConfigArray (_ :: _) => true
              | _ => false
              end
          | None => false
          end
      | None => false
      end
  | _, _ => false
  end.

Definition getVersionInfo (projectRoot : string) (filePath projectName' : option string)
  : string :=
  if multiProjectWithoutChoice filePath projectName' then ""
  else
    match getCurrentVersion projectRoot filePath projectName' with
    | Rejected _ => ""
    | Fulfilled currentVersion =>
        let latestTag := getLatestTag projectRoot in
        let currentBranch := getCurrentBranch projectRoot in
        let configVersion :=
          if truthyOpt filePath
          then match filePath with
               | Some fp => ConfigService.getProjectVersion fp projectName'
               | None => None
               end
          else None in
        let isFromConfig :=
          match configVersion with Some _ => true | None => false end in
        let versionInfo := "版本: " ++ currentVersion in
        let versionInfo :=
          if isFromConfig && truthyOpt filePath
          then
            match filePath with
            | Some fp =>
                match ConfigService.findProjectRoot fp with
                | Some configFileRoot =>
                    if truthy configFileRoot
                    then match ConfigService.getProjectConfig configFileRoot projectName' with
                         | Some projectConfig =>
                             if truthy (projectName projectConfig)
                             then versionInfo ++ " (" ++ projectName projectConfig ++ ")"
                             else versionInfo ++ " (配置文件)"
                         | None => versionInfo ++ " (配置文件)"
                         end
                    else versionInfo
                | None => versionInfo
                end
            | None => versionInfo
            end
          else
            match latestTag with
            | Some tag =>
                if negb (currentVersion =? tag)%string
                then versionInfo ++ " (基于 " ++ tag ++ ")"
                else versionInfo
            | None => versionInfo
            end in
        let versionInfo :=
          match currentBranch with
          | Some branch =>
              if negb (includes branch "HEAD")
              then versionInfo ++ LF ++ "分支: " ++ branch
              else versionInfo
          | None => versionInfo
          end in
        versionInfo
    end.

End WithHost.
End VersionService.

(* ================================================================== *)
(** * [GitFlowService] ([src/services/gitFlowService.ts]) *)
(* ================================================================== *)

Module GitFlowService.
Import JsString.

Record GitFlowConfig := {
  masterBranch : string;
  developBranch : string;
  featurePrefix : string;
  releasePrefix : string;
  hotfixPrefix : string;
  supportPrefix : string;
  versionTagPrefix : string
}.

(** [Partial<GitFlowConfig>]: [None] is a property that is not given. *)
Record PartialGitFlowConfig := {
  p_masterBranch : option string;
  p_developBranch : option string;
  p_featurePrefix : option string;
  p_releasePrefix : option string;
  p_hotfixPrefix : option string;
  p_supportPrefix : option string;
  p_versionTagPrefix : option string
}.

Definition noOverrides : PartialGitFlowConfig :=
  {| p_masterBranch := None; p_developBranch := None; p_featurePrefix := None;
     p_releasePrefix := None; p_hotfixPrefix := None; p_supportPrefix := None;
     p_versionTagPrefix := None |}.

Inductive GitFlowBranchType := feature | release | hotfix | support.

Definition DEFAULT_CONFIG : GitFlowConfig :=
  {| masterBranch := "master";
     developBranch := "develop";
     featurePrefix := "feature/";
     releasePrefix := "release/";
     hotfixPrefix := "hotfix/";
     supportPrefix := "support/";
     versionTagPrefix := "" |}.

Definition override (d : string) (o : option string) : string :=
  match o with Some v => v | None => d end.

(** [{ ...DEFAULT_CONFIG, ...config }] *)
Definition finalConfigOf (config : PartialGitFlowConfig) : GitFlowConfig :=
  {| masterBranch := override (masterBranch DEFAULT_CONFIG) (p_masterBranch config);
     developBranch := override (developBranch DEFAULT_CONFIG) (p_developBranch config);
     featurePrefix := override (featurePrefix DEFAULT_CONFIG) (p_featurePrefix config);
     releasePrefix := override (releasePrefix DEFAULT_CONFIG) (p_releasePrefix config);
     hotfixPrefix := override (hotfixPrefix DEFAULT_CONFIG) (p_hotfixPrefix config);
     supportPrefix := override (supportPrefix DEFAULT_CONFIG) (p_supportPrefix config);
     versionTagPrefix :=
       override (versionTagPrefix DEFAULT_CONFIG) (p_versionTagPrefix config) |}.

(** One run of the [git] executable: its arguments, its working
    directory, and its standard output or the message of its failure. *)
Record Invocation := {
  inv_args : list string;
  inv_cwd : string;
  inv_outcome : string + string
}.

Definition succeeded (e : Invocation) : bool :=
  match inv_outcome e with inl _ => true | inr _ => false end.

(** The repository, the file system and the editor, as far as the
    service can see and change them. *)
Class GitHost (World : Type) := {
  (** [gitApi.repositories[0].rootUri.fsPath] of the VS Code Git
      extension; [None] when the extension is missing or disabled, has
      no repository, or the access throws. *)
  vscodeRepositoryRoot : World -> option string;
  (** The working directory of the fallback: the first workspace
      folder, else [process.cwd()]. *)
  workingDirectory : World -> string;
  (** [fs.existsSync(path.join(repoRoot, '.git', 'config'))] *)
  gitConfigFileExists : World -> string -> bool;
  (** [execFile('git', args, {cwd})] *)
  execFile : list string -> string -> World -> World * (string + string)
}.

Section WithWorld.

Context {World : Type} {gitHost : GitHost World}.

(** What running an operation in a world gives: the world after it,
    the invocations of [git] it made, oldest first, and how its promise
    settled. *)
Record Run (A : Type) := {
  after : World;
  issued : list Invocation;
  result : Settled A
}.
Arguments after {A} _.
Arguments issued {A} _.
Arguments result {A} _.

Definition Flow (A : Type) : Type := World -> Run A.

Definition ret {A} (a : A) : Flow A :=
  fun w => {| after := w; issued := []; result := Fulfilled a |}.

Definition throw {A} (message : string) : Flow A :=
  fun w => {| after := w; issued := []; result := Rejected message |}.

Definition bind {A B} (m : Flow A) (k : A -> Flow B) : Flow B :=
  fun w =>
    let first := m w in
    match result first with
    | Fulfilled a =>
        let second := k a (after first) in
        {| after := after second;
           issued := (issued first ++ issued second)%list;
           result := result second |}
    | Rejected message =>
        {| after := after first; issued := issued first; result := Rejected message |}
    end.

Notation "x <- m ;; k" := (bind m (fun x => k))
  (at level 61, m at next level, right associativity).
Notation "m ;;; k" := (bind m (fun _ => k))
  (at level 61, right associativity).

(** [try { m } catch (error) { throw new Error(prefix + error.message) }] *)
Definition rethrow {A} (prefix : string) (m : Flow A) : Flow A :=
  fun w =>
    let r := m w in
    {| after := after r; issued := issued r;
       result := match result r with
                 | Fulfilled a => Fulfilled a
                 | Rejected message => Rejected (prefix ++ message)
                 end |}.

(** [await m.catch(() => { console.log(...) })] *)
Definition ignoreFailure {A} (m : Flow A) : Flow unit :=
  fun w =>
    let r := m w in
    {| after := after r; issued := issued r; result := Fulfilled tt |}.

(** [await m.catch(() => fallback)] *)
Definition orDefault {A} (m : Flow A) (fallback : A) : Flow A :=
  fun w =>
    let r := m w in
    {| after := after r; issued := issued r;
       result := match result r with
                 | Fulfilled a => Fulfilled a
                 | Rejected _ => Fulfilled fallback
                 end |}.

(** Run [git] and record the invocation. *)
Definition runGit (args : list string) (cwd : string) : Flow string :=
  fun w =>
    let outcome := execFile args cwd w in
    {| after := fst outcome;
       issued := [{| inv_args := args; inv_cwd := cwd; inv_outcome := snd outcome |}];
       result := match snd outcome with
                 | inl stdout => Fulfilled stdout
                 | inr message => Rejected message
                 end |}.

Definition executeGitCommand (args : list string) (cwd : string) : Flow string :=
  fun w =>
    let r := runGit args cwd w in
    {| after := after r; issued := issued r;
       result := match result r with
                 | Fulfilled stdout => Fulfilled (trim stdout)
                 | Rejected errorMessage =>
                     Rejected ("Git 命令执行失败: " ++ errorMessage)
                 end |}.

Definition getRepositoryRoot : Flow (option string) :=
  fun w =>
    match vscodeRepositoryRoot w with
    | Some repoRoot => ret (Some repoRoot) w
    | None =>
        let r := runGit ["rev-parse"; "--show-toplevel"] (workingDirectory w) w in
        {| after := after r; issued := issued r;
           result := match result r with
                     | Fulfilled stdout =>
                         if truthy (trim stdout) then Fulfilled (Some (trim stdout))
                         else Fulfilled None
                     | Rejected _ => Fulfilled None
                     end |}
    end.

Definition isGitRepository : Flow bool :=
  repoRoot <- getRepositoryRoot ;;
  ret (match repoRoot with Some _ => true | None => false end).

Definition isInitialized : Flow bool :=
  orDefault
    (repoRoot <- getRepositoryRoot ;;
     match repoRoot with
     | Some (String c r) =>
         let repoRoot := String c r in
         fun w =>
           if negb (gitConfigFileExists w repoRoot) then ret false w
           else (config <- executeGitCommand
                             ["config"; "--get"; "gitflow.branch.master"] repoRoot ;;
                 ret (negb (config =? "")%string)) w
     | _ => ret false
     end)
    false.

Definition init (config : PartialGitFlowConfig) : Flow GitFlowConfig :=
  repoRoot <- getRepositoryRoot ;;
  match repoRoot with
  | Some (String c r) =>
      let repoRoot := String c r in
      let finalConfig := finalConfigOf config in
      rethrow "Git Flow 初始化失败: "
        (executeGitCommand ["config"; "gitflow.branch.master"; masterBranch finalConfig] repoRoot ;;;
         executeGitCommand ["config"; "gitflow.branch.develop"; developBranch finalConfig] repoRoot ;;;
         executeGitCommand ["config"; "gitflow.prefix.feature"; featurePrefix finalConfig] repoRoot ;;;
         executeGitCommand ["config"; "gitflow.prefix.release"; releasePrefix finalConfig] repoRoot ;;;
         executeGitCommand ["config"; "gitflow.prefix.hotfix"; hotfixPrefix finalConfig] repoRoot ;;;
         executeGitCommand ["config"; "gitflow.prefix.support"; supportPrefix finalConfig] repoRoot ;;;
         executeGitCommand ["config"; "gitflow.prefix.versiontag"; versionTagPrefix finalConfig] repoRoot ;;;
         branches <- executeGitCommand ["branch"; "--list"] repoRoot ;;
         (if negb (includes branches (developBranch finalConfig))
          then executeGitCommand ["checkout"; "-b"; developBranch finalConfig] repoRoot ;;;
               ret tt
          else ret tt) ;;;
         ret finalConfig)
  | _ => throw "未找到 Git 仓库，请确保当前工作区是一个 Git 仓库"
  end.

(** The messages of the two precondition failures. *)
Definition NO_REPOSITORY : string := "未找到 Git 仓库".
Definition NOT_INITIALIZED : string := "Git Flow 未初始化，请先初始化 Git Flow".

Definition startFeature (featureName : string) : Flow unit :=
  repoRoot <- getRepositoryRoot ;;
  match repoRoot with
  | Some (String c r) =>
      let repoRoot := String c r in
      initialized <- isInitialized ;;
      if negb initialized then throw NOT_INITIALIZED
      else
        developBranch <- executeGitCommand ["config"; "--get"; "gitflow.branch.develop"] repoRoot ;;
        featurePrefix <- executeGitCommand ["config"; "--get"; "gitflow.prefix.feature"] repoRoot ;;
        let branchName := featurePrefix ++ featureName in
        rethrow "创建 Feature 分支失败: "
          (executeGitCommand ["checkout"; developBranch] repoRoot ;;;
           ignoreFailure (executeGitCommand ["pull"; "origin"; developBranch] repoRoot) ;;;
           executeGitCommand ["checkout"; "-b"; branchName] repoRoot ;;;
           ret tt)
  | _ => throw NO_REPOSITORY
  end.

Definition finishFeature (featureName : string) (keepBranch : bool) : Flow unit :=
  repoRoot <- getRepositoryRoot ;;
  match repoRoot with
  | Some (String c r) =>
      let repoRoot := String c r in
      developBranch <- executeGitCommand ["config"; "--get"; "gitflow.branch.develop"] repoRoot ;;
      featurePrefix <- executeGitCommand ["config"; "--get"; "gitflow.prefix.feature"] repoRoot ;;
      let branchName := featurePrefix ++ featureName in
      rethrow "完成 Feature 分支失败: "
        (executeGitCommand ["checkout"; developBranch] repoRoot ;;;
         ignoreFailure (executeGitCommand ["pull"; "origin"; developBranch] repoRoot) ;;;
         executeGitCommand ["merge"; "--no-ff"; branchName] repoRoot ;;;
         (if negb keepBranch
          then executeGitCommand ["branch"; "-d"; branchName] repoRoot ;;; ret tt
          else ret tt))
  | _ => throw NO_REPOSITORY
  end.

Definition startRelease (version : string) : Flow unit :=
  repoRoot <- getRepositoryRoot ;;
  match repoRoot with
  | Some (String c r) =>
      let repoRoot := String c r in
      initialized <- isInitialized ;;
      if negb initialized then throw NOT_INITIALIZED
      else
        developBranch <- executeGitCommand ["config"; "--get"; "gitflow.branch.develop"] repoRoot ;;
        releasePrefix <- executeGitCommand ["config"; "--get"; "gitflow.prefix.release"] repoRoot ;;
        let branchName := releasePrefix ++ version in
        rethrow "创建 Release 分支失败: "
          (executeGitCommand ["checkout"; developBranch] repoRoot ;;;
           ignoreFailure (executeGitCommand ["pull"; "origin"; developBranch] repoRoot) ;;;
           executeGitCommand ["checkout"; "-b"; branchName] repoRoot ;;;
           ret tt)
  | _ => throw NO_REPOSITORY
  end.

Definition finishRelease (version : string) (keepBranch : bool)
           (tagMessage : option string) : Flow unit :=
  repoRoot <- getRepositoryRoot ;;
  match repoRoot with
  | Some (String c r) =>
      let repoRoot := String c r in
      masterBranch <- executeGitCommand ["config"; "--get"; "gitflow.branch.master"] repoRoot ;;
      developBranch <- executeGitCommand ["config"; "--get"; "gitflow.branch.develop"] repoRoot ;;
      releasePrefix <- executeGitCommand ["config"; "--get"; "gitflow.prefix.release"] repoRoot ;;
      versionTagPrefix <- executeGitCommand ["config"; "--get"; "gitflow.prefix.versiontag"] repoRoot ;;
      let branchName := releasePrefix ++ version in
      let tagName := versionTagPrefix ++ version in
      rethrow "完成 Release 分支失败: "
        (executeGitCommand ["checkout"; masterBranch] repoRoot ;;;
         ignoreFailure (executeGitCommand ["pull"; "origin"; masterBranch] repoRoot) ;;;
         executeGitCommand ["merge"; "--no-ff"; branchName] repoRoot ;;;
         (let tagMsg := orElse (match tagMessage with Some m => m | None => "" end)
                               ("Release " ++ version) in
          executeGitCommand ["tag"; "-a"; tagName; "-m"; tagMsg] repoRoot) ;;;
         executeGitCommand ["checkout"; developBranch] repoRoot ;;;
         ignoreFailure (executeGitCommand ["pull"; "origin"; developBranch] repoRoot) ;;;
         executeGitCommand ["merge"; "--no-ff"; branchName] repoRoot ;;;
         (if negb keepBranch
          then executeGitCommand ["branch"; "-d"; branchName] repoRoot ;;; ret tt
          else ret tt))
  | _ => throw NO_REPOSITORY
  end.

Definition startHotfix (version : string) : Flow unit :=
  repoRoot <- getRepositoryRoot ;;
  match repoRoot with
  | Some (String c r) =>
      let repoRoot := String c r in
      initialized <- isInitialized ;;
      if negb initialized then throw NOT_INITIALIZED
      else
        masterBranch <- executeGitCommand ["config"; "--get"; "gitflow.branch.master"] repoRoot ;;
        hotfixPrefix <- executeGitCommand ["config"; "--get"; "gitflow.prefix.hotfix"] repoRoot ;;
        let branchName := hotfixPrefix ++ version in
        rethrow "创建 Hotfix 分支失败: "
          (executeGitCommand ["checkout"; masterBranch] repoRoot ;;;
           ignoreFailure (executeGitCommand ["pull"; "origin"; masterBranch] repoRoot) ;;;
           executeGitCommand ["checkout"; "-b"; branchName] repoRoot ;;;
           ret tt)
  | _ => throw NO_REPOSITORY
  end.

Definition finishHotfix (version : string) (keepBranch : bool)
           (tagMessage : option string) : Flow unit :=
  repoRoot <- getRepositoryRoot ;;
  match repoRoot with
  | Some (String c r) =>
      let repoRoot := String c r in
      masterBranch <- executeGitCommand ["config"; "--get"; "gitflow.branch.master"] repoRoot ;;
      developBranch <- executeGitCommand ["config"; "--get"; "gitflow.branch.develop"] repoRoot ;;
      hotfixPrefix <- executeGitCommand ["config"; "--get"; "gitflow.prefix.hotfix"] repoRoot ;;
      versionTagPrefix <- executeGitCommand ["config"; "--get"; "gitflow.prefix.versiontag"] repoRoot ;;
      let branchName := hotfixPrefix ++ version in
      let tagName := versionTagPrefix ++ version in
      rethrow "完成 Hotfix 分支失败: "
        (executeGitCommand ["checkout"; masterBranch] repoRoot ;;;
         ignoreFailure (executeGitCommand ["pull"; "origin"; masterBranch] repoRoot) ;;;
         executeGitCommand ["merge"; "--no-ff"; branchName] repoRoot ;;;
         (let tagMsg := orElse (match tagMessage with Some m => m | None => "" end)
                               ("Hotfix " ++ version) in
          executeGitCommand ["tag"; "-a"; tagName; "-m"; tagMsg] repoRoot) ;;;
         executeGitCommand ["checkout"; developBranch] repoRoot ;;;
         ignoreFailure (executeGitCommand ["pull"; "origin"; developBranch] repoRoot) ;;;
         executeGitCommand ["merge"; "--no-ff"; branchName] repoRoot ;;;
         (if negb keepBranch
          then executeGitCommand ["branch"; "-d"; branchName] repoRoot ;;; ret tt
          else ret tt))
  | _ => throw NO_REPOSITORY
  end.

(** The chain of prefix tests of [getCurrentBranchType]. *)
Definition classify (currentBranch featurePrefix releasePrefix hotfixPrefix
                     supportPrefix : string) : option GitFlowBranchType :=
  if startsWith currentBranch featurePrefix then Some feature
  else if startsWith currentBranch releasePrefix then Some release
  else if startsWith currentBranch hotfixPrefix then Some hotfix
  else if startsWith currentBranch supportPrefix then Some support
  else None.

Definition getCurrentBranchType : Flow (option GitFlowBranchType) :=
  repoRoot <- getRepositoryRoot ;;
  match repoRoot with
  | Some (String c r) =>
      let repoRoot := String c r in
      orDefault
        (currentBranch <- executeGitCommand ["rev-parse"; "--abbrev-ref"; "HEAD"] repoRoot ;;
         featurePrefix <- orDefault (executeGitCommand
                            ["config"; "--get"; "gitflow.prefix.feature"] repoRoot) "feature/" ;;
         releasePrefix <- orDefault (executeGitCommand
                            ["config"; "--get"; "gitflow.prefix.release"] repoRoot) "release/" ;;
         hotfixPrefix <- orDefault (executeGitCommand
                            ["config"; "--get"; "gitflow.prefix.hotfix"] repoRoot) "hotfix/" ;;
         supportPrefix <- orDefault (executeGitCommand
                            ["config"; "--get"; "gitflow.prefix.support"] repoRoot) "support/" ;;
         ret (classify currentBranch featurePrefix releasePrefix hotfixPrefix supportPrefix))
        None
  | _ => ret None
  end.

(** [b.replace(/^\*\s*/, '')]: the marker of the current branch and the
    white space after it.  [\s] is the set of characters [trim]
    removes. *)
Definition stripMarker (b : string) : string :=
  match b with
  | String c r => if Ascii.eqb c "*" then trimStart r else b
  | EmptyString => b
  end.

(** What follows the first [/] of [s], when there is one. *)
Fixpoint afterSlash (s : string) : option string :=
  match s with
  | EmptyString => None
  | String c r => if Ascii.eqb c "/" then Some r else afterSlash r
  end.

(** [b.replace(/^remotes\/[^\/]+\//, '')]: the name of the remote, which
    has one character at least, and the two slashes around it. *)
Definition stripRemote (b : string) : string :=
  if String.prefix "remotes/" b
  then match drop 8 b with
       | String c r =>
           if Ascii.eqb c "/" then b
           else match afterSlash r with
                | Some rest => rest
                | None => b
                end
       | EmptyString => b
       end
  else b.

(** The [split], [map] and [filter] of the three branch listings.  The
    comparison of the lengths is looked at only for a name that starts
    with the prefix, for which it says that something follows the
    prefix, in bytes as in code units. *)
Definition listedBranches (prefix branches : string) : list string :=
  filter (fun b => startsWith b prefix && (String.length prefix <? String.length b))
         (map (fun b => stripRemote (stripMarker (trim b)))
              (ConfigService.splitLines branches)).

(** The body shared by [getFeatureBranches], [getReleaseBranches] and
    [getHotfixBranches], which differ in the setting they read and in
    its default. *)
Definition branchesWithPrefix (key fallback : string) : Flow (list string) :=
  repoRoot <- getRepositoryRoot ;;
  match repoRoot with
  | Some (String c r) =>
      let repoRoot := String c r in
      orDefault
        (prefix <- orDefault (executeGitCommand ["config"; "--get"; key] repoRoot) fallback ;;
         branches <- executeGitCommand ["branch"; "--list"; prefix ++ "*"] repoRoot ;;
         ret (listedBranches prefix branches))
        []
  | _ => ret []
  end.

Definition getFeatureBranches : Flow (list string) :=
  branchesWithPrefix "gitflow.prefix.feature" "feature/".

Definition getReleaseBranches : Flow (list string) :=
  branchesWithPrefix "gitflow.prefix.release" "release/".

Definition getHotfixBranches : Flow (list string) :=
  branchesWithPrefix "gitflow.prefix.hotfix" "hotfix/".

End WithWorld.

Arguments Run : clear implicits.
Arguments Flow : clear implicits.
Arguments after {World A} _.
Arguments issued {World A} _.
Arguments result {World A} _.

End GitFlowService.

(* ================================================================== *)
(** * The commit command ([src/extension.ts]) *)
(* ================================================================== *)

Module CommitCommand.
Import JsString Renderer.

Section WithHost.
Context {host : Host}.

(** [a || b] on [string | undefined]. *)
Definition orPath (a b : option string) : option string :=
  if truthyOpt a then a else b.

(** The version information [messageCombine] asks for when
    [autoVersion] is set.  [repository] is the root of the first
    repository of the Git extension, [None] when the extension is
    disabled or knows no repository; [currentFilePath] is the path the
    command saved, [activeFile] that of the active editor. *)
Definition versionBlock (repository currentFilePath activeFile currentProjectName
                         : option string) : string :=
  match repository with
  | Some root =>
      VersionService.getVersionInfo root (orPath currentFilePath activeFile)
                                    currentProjectName
  | None => EmptyString
  end.

(** [messageCombine] with the version information it fetches. *)
Definition combinedMessage (isShowEmoji autoVersion : bool)
           (repository currentFilePath activeFile currentProjectName : option string)
           (config : GitCommitMessage) : string :=
  messageCombine isShowEmoji autoVersion
                 (versionBlock repository currentFilePath activeFile currentProjectName)
                 config.

End WithHost.
End CommitCommand.

(* ================================================================== *)
(** * The commit templates ([src/config/template-type.ts]) *)
(* ================================================================== *)

Module TemplateType.
Import JsString.

Record CommitTemplateType := {
  label : string;
  detail : string;
  templateName : string;
  templateContent : string
}.

(** An entry of the setting [odinsamGitCommit.templates], read at the
    two properties the code looks at; [None] is a property that is
    missing. *)
Record TemplateSetting := {
  s_templateName : option string;
  s_templateContent : option string
}.

Definition TWO_LF : string := String "010" (String "010" "").

Definition defaultTemplates : list CommitTemplateType :=
  [ {| label := "Angular";
       detail := "<icon> <type>(<scope>): <subject>" ++ TWO_LF ++ "<body>" ++ TWO_LF
                 ++ "<footer>";
       templateName := "Angular";
       templateContent :=
         "<icon><space><type>(<scope>):<space><subject><enter><body><enter><footer>" |} ].

(** [value || fallback] for a property that may be missing. *)
Definition orText (value : option string) (fallback : string) : string :=
  match value with
  | Some (String c r) => String c r
  | _ => fallback
  end.

Definition customTemplate (item : TemplateSetting) : CommitTemplateType :=
  {| label := orText (s_templateName item) "Custom";
     detail := orText (s_templateContent item) "";
     templateName := orText (s_templateName item) "Custom";
     templateContent := orText (s_templateContent item) "" |}.

(** [templateNames.has(name)] *)
Definition hasName (names : list string) (name : string) : bool :=
  existsb (String.eqb name) names.

(** [getCommitTemplates]; [configTemplates] is the value of the setting
    when it is an array, [None] when it is missing or not an array. *)
Definition getCommitTemplates (configTemplates : option (list TemplateSetting))
  : list CommitTemplateType :=
  match configTemplates with
  | Some (item :: items) =>
      let customTemplates := map customTemplate (item :: items) in
      let templateNames := map templateName customTemplates in
      let filteredDefaults :=
        filter (fun t => negb (hasName templateNames (templateName t))) defaultTemplates in
      (customTemplates ++ filteredDefaults)%list
  | _ => defaultTemplates
  end.

End TemplateType.

(* ================================================================== *)
(** * The commit types ([src/config/commit-type.ts]) *)
(* ================================================================== *)

Module CommitTypeConfig.
Import JsString.

Record CommitType := {
  label : string;
  title : string;
  detail : string;
  icon : string
}.

(** An entry of the setting [odinsamGitCommit.customCommitType]: a
    string, an object read at its four properties ([None] is a property
    that is missing), or a value that is neither, such as a number.
    ([null], on which the code throws, is left out.) *)
Inductive CustomItem :=
| TextItem (text : string)
| ObjectItem (title' label' detail' icon' : option string)
| OtherItem.

Definition defaultCommitTypes : list CommitType :=
  [ {| label := "✨ feat"; title := "feat"; detail := "添加新特性"; icon := "✨" |};
    {| label := "🐞 fix"; title := "fix"; detail := "修复bug"; icon := "🐞" |};
    {| label := "📃 docs"; title := "docs"; detail := "仅仅修改文档"; icon := "📃" |};
    {| label := "🌈 style"; title := "style";
       detail := "仅仅修改了空格、格式缩进、逗号等等，不改变代码逻辑"; icon := "🌈" |};
    {| label := "🦄 refactor"; title := "refactor";
       detail := "代码重构，没有加新功能或者修复bug"; icon := "🦄" |};
    {| label := "🎈 perf"; title := "perf"; detail := "优化相关，比如提升性能、体验";
       icon := "🎈" |};
    {| label := "🧪 test"; title := "test"; detail := "增加测试用例"; icon := "🧪" |};
    {| label := "🔧 build"; title := "build"; detail := "依赖相关的内容"; icon := "🔧" |};
    {| label := "🐎 ci"; title := "ci";
       detail := "ci配置相关 例如对 k8s，docker的配置文件的修改"; icon := "🐎" |};
    {| label := "🐳 chore"; title := "chore";
       detail := "改变构建流程、或者增加依赖库、工具等"; icon := "🐳" |};
    {| label := "↩ revert"; title := "revert"; detail := "回滚到上一个版本"; icon := "" |} ].

(** [value || fallback] *)
Definition orText (value : option string) (fallback : string) : string :=
  match value with
  | Some (String c r) => String c r
  | _ => fallback
  end.

Definition customType (item : CustomItem) : CommitType :=
  match item with
  | TextItem text => {| label := text; title := text; detail := text; icon := "" |}
  | ObjectItem title' label' detail' icon' =>
      {| label := orText label' (orText title' "");
         title := orText title' "";
         detail := orText detail' "";
         icon := orText icon' "" |}
  | OtherItem => {| label := ""; title := ""; detail := ""; icon := "" |}
  end.

(** The pattern
    [/^[\u{1F300}-\u{1F9FF}]|[\u{2600}-\u{26FF}]|[\u{2700}-\u{27BF}]/gu],
    read on the UTF-8 encoding.  The first alternative, which is
    anchored, is a character of U+1F300..U+1F9FF at the head of the
    label: four bytes [F0 9F 8C..A7 80..BF].  The two others are a
    character of U+2600..U+27BF anywhere: three bytes
    [E2 98..9E 80..BF], which cannot begin inside another character. *)
Definition leadingPictograph (s : string) : bool :=
  match s with
  | String a (String b (String c (String d _))) =>
      (byte a =? 240) && (byte b =? 159)
      && (140 <=? byte c) && (byte c <=? 167)
      && (128 <=? byte d) && (byte d <=? 191)
  | _ => false
  end.

Definition symbolAt (s : string) : bool :=
  match s with
  | String a (String b (String c _)) =>
      (byte a =? 226) && (152 <=? byte b) && (byte b <=? 158)
      && (128 <=? byte c) && (byte c <=? 191)
  | _ => false
  end.

(** Remove every symbol; [skip] counts the bytes still to drop of the
    symbol that was found last. *)
Fixpoint stripSymbols (s : string) (skip : nat) : string :=
  match s with
  | EmptyString => EmptyString
  | String c r =>
      match skip with
      | S k => stripSymbols r k
      | 0 => if symbolAt s then stripSymbols r 2 else String c (stripSymbols r 0)
      end
  end.

(** [label.replace(pattern, '').trim()] *)
Definition labelWithoutIcon (label' : string) : string :=
  trim (if leadingPictograph label' then stripSymbols (drop 4 label') 0
        else stripSymbols label' 0).

Definition withLabel (t : CommitType) (label' : string) : CommitType :=
  {| label := label'; title := title t; detail := detail t; icon := icon t |}.

(** [getCommitTypes]; [customCommitTypes] is the value of the setting
    when it is an array, [None] otherwise; [isShowEmoji] is the setting
    [odinsamGitCommit.showEmoji]. *)
Definition getCommitTypes (customCommitTypes : option (list CustomItem))
           (isShowEmoji : bool) : list CommitType :=
  let commitTypes :=
    match customCommitTypes with
    | Some (item :: items) => (map customType (item :: items) ++ defaultCommitTypes)%list
    | _ => defaultCommitTypes
    end in
  if negb isShowEmoji
  then map (fun t => withLabel t (labelWithoutIcon (label t))) commitTypes
  else commitTypes.

End CommitTypeConfig.

(* ================================================================== *)
(** * The Git Flow commands ([src/extension.ts]) *)
(* ================================================================== *)

Module GitFlowCommands.
Import JsString GitFlowService.

(** What a command shows when it ends. *)
Inductive Notice :=
| Nothing
| Warning (text : string)
| Information (text : string)
| Failure (text : string).

(** The answers of the user to the dialogs of a finish command: the
    index of the branch picked in the list shown, the text of the
    message box and the choice between deleting and keeping the branch;
    [None] is a dialog that was dismissed. *)
Record FinishAnswers := {
  pickedBranch : list string -> option nat;
  tagMessage : option string;
  keepBranch : option bool
}.

(** The answers to the dialogs of the initialization: whether to
    initialize again, asked when Git Flow is initialized, and the two
    branch names. *)
Record InitAnswers := {
  initializeAgain : bool;
  masterBranchName : option string;
  developBranchName : option string
}.

Section WithWorld.
Context {World : Type} {gitHost : GitHost World}.

Notation "x <- m ;; k" := (bind m (fun x => k))
  (at level 61, m at next level, right associativity).
Notation "m ;;; k" := (bind m (fun _ => k))
  (at level 61, right associativity).

(** [try { m } catch (error) { h(error.message) }] *)
Definition catchWith {A} (m : Flow World A) (h : string -> Flow World A) : Flow World A :=
  fun w =>
    let first := m w in
    match result first with
    | Fulfilled a => first
    | Rejected message =>
        let second := h message (after first) in
        {| after := after second;
           issued := (issued first ++ issued second)%list;
           result := result second |}
    end.

(** [s.replace(/^prefix/, '')] for a prefix without special
    characters. *)
Definition removePrefix (prefix s : string) : string :=
  if String.prefix prefix s then drop (String.length prefix) s else s.

(** [keepBranch?.value || false] *)
Definition kept (answers : FinishAnswers) : bool :=
  match keepBranch answers with Some keep => keep | None => false end.

Definition NOT_A_REPOSITORY : string := "当前不在 Git 仓库中，请先打开一个 Git 仓库".

Definition quoted (s : string) : string :=
  String "034" EmptyString ++ s ++ String "034" EmptyString.

(** The three commands that finish a branch chosen from a list.
    [word] is Feature, Release or Hotfix, [literal] the prefix the
    command removes from the name of the branch, [listing] the list of
    the branches and [finish] the operation of the service, which gets
    the tag message (trimmed) only where the command asks for one. *)
Definition finishCommand (word literal : string) (listing : Flow World (list string))
           (finish : string -> FinishAnswers -> Flow World unit)
           (answers : FinishAnswers) : Flow World Notice :=
  catchWith
    (isGitRepo <- isGitRepository ;;
     if negb isGitRepo then ret (Warning NOT_A_REPOSITORY)
     else
       branches <- listing ;;
       match branches with
       | [] => ret (Warning ("没有找到 " ++ word ++ " 分支"))
       | _ =>
           match pickedBranch answers branches with
           | None => ret Nothing
           | Some index =>
               match nth_error branches index with
               | None => ret Nothing
               | Some selected =>
                   finish (removePrefix literal selected) answers ;;;
                   ret (Information (word ++ " 分支 " ++ quoted selected ++ " 已完成！"))
               end
           end
       end)
    (fun errorMessage => ret (Failure ("完成 " ++ word ++ " 分支失败: " ++ errorMessage))).

Definition gitFlowFeatureFinish : FinishAnswers -> Flow World Notice :=
  finishCommand "Feature" "feature/" getFeatureBranches
                (fun name answers => finishFeature name (kept answers)).

Definition gitFlowReleaseFinish : FinishAnswers -> Flow World Notice :=
  finishCommand "Release" "release/" getReleaseBranches
                (fun version answers =>
                   finishRelease version (kept answers) (option_map trim (tagMessage answers))).

Definition gitFlowHotfixFinish : FinishAnswers -> Flow World Notice :=
  finishCommand "Hotfix" "hotfix/" getHotfixBranches
                (fun version answers =>
                   finishHotfix version (kept answers) (option_map trim (tagMessage answers))).

(** The configuration the initialization command asks the service to
    store: the two names, trimmed, and nothing else. *)
Definition askedConfig (master develop : string) : PartialGitFlowConfig :=
  {| p_masterBranch := Some (trim master); p_developBranch := Some (trim develop);
     p_featurePrefix := None; p_releasePrefix := None; p_hotfixPrefix := None;
     p_supportPrefix := None; p_versionTagPrefix := None |}.

(** The command [odinsamGitCommit.gitFlow.init]. *)
Definition gitFlowInit (answers : InitAnswers) : Flow World Notice :=
  catchWith
    (initialized <- isInitialized ;;
     if initialized && negb (initializeAgain answers) then ret Nothing
     else
       match masterBranchName answers with
       | Some (String c r) =>
           match developBranchName answers with
           | Some (String c' r') =>
               init (askedConfig (String c r) (String c' r')) ;;;
               ret (Information "Git Flow 初始化成功！")
           | _ => ret Nothing
           end
       | _ => ret Nothing
       end)
    (fun errorMessage => ret (Failure ("Git Flow 初始化失败: " ++ errorMessage))).

End WithWorld.
End GitFlowCommands.

(* ================================================================== *)
(** * A host to run the examples on *)
(* ================================================================== *)

(** ** Regular expressions

    A backtracking matcher for the part of the ECMAScript pattern syntax
    that version patterns are written in: literal characters, [.], the
    class escapes [\d \D \w \W \s \S], the control escapes
    [\t \n \v \f \r], identity escapes, bracketed classes with ranges and
    negation, capturing and [(?:...)] groups, alternation, the
    quantifiers [* + ? {n} {n,} {n,m}] and their lazy forms, and the
    anchors [^ $] without the [m] flag.  It follows the matcher semantics
    of the language specification (continuations, greedy choice, capture
    reset on every iteration, no empty iteration of an exhausted
    quantifier) and is exact on ASCII patterns and subjects.  A pattern
    outside this fragment is reported as [RegExpThrows], which is what an
    invalid pattern gives; the examples stay inside the fragment. *)

Module RegExp.
Import JsString.

Definition Captures := list (option string).

Inductive Node :=
| Empty
| Char (accepts : ascii -> bool)
| AssertStart
| AssertEnd
| Seq (a b : Node)
| Alt (a b : Node)
| Group (index : nat) (a : Node)
| Repeat (min : nat) (max : option nat) (greedy : bool) (a : Node).

(** The indices of the capture groups inside a node. *)
Fixpoint groupsOf (r : Node) : list nat :=
  match r with
  | Seq a b | Alt a b => (groupsOf a ++ groupsOf b)%list
  | Group i a => i :: groupsOf a
  | Repeat _ _ _ a => groupsOf a
  | _ => []
  end.

Fixpoint setCapture (i : nat) (v : option string) (caps : Captures) : Captures :=
  match caps, i with
  | [], _ => []
  | _ :: rest, 0 => v :: rest
  | c :: rest, S j => c :: setCapture j v rest
  end.

Definition clearCaptures (indices : list nat) (caps : Captures) : Captures :=
  fold_left (fun acc i => setCapture i None acc) indices caps.

(** The text between two positions given by what is left of the
    subject at each. *)
Definition consumed (from to : string) : string :=
  take (String.length from - String.length to) from.

Definition Continuation := string -> Captures -> option (string * Captures).

Definition decrement (max : option nat) : option nat :=
  match max with Some n => Some (n - 1) | None => None end.

(** [matchNode total r s caps k]: match [r] at the position where [s]
    is left of a subject of length [total], then continue with [k]. *)
Fixpoint matchNode (total : nat) (r : Node) (s : string) (caps : Captures)
         (k : Continuation) {struct r} : option (string * Captures) :=
  match r with
  | Empty => k s caps
  | Char accepts =>
      match s with
      | String c s' => if accepts c then k s' caps else None
      | EmptyString => None
      end
  | AssertStart => if String.length s =? total then k s caps else None
  | AssertEnd => match s with EmptyString => k s caps | _ => None end
  | Seq a b => matchNode total a s caps (fun s' caps' => matchNode total b s' caps' k)
  | Alt a b =>
      match matchNode total a s caps k with
      | Some result => Some result
      | None => matchNode total b s caps k
      end
  | Group i a =>
      matchNode total a s caps
                (fun s' caps' => k s' (setCapture i (Some (consumed s s')) caps'))
  | Repeat min max greedy a =>
      (fix repeatMatcher (fuel min : nat) (max : option nat) (s : string)
           (caps : Captures) {struct fuel} : option (string * Captures) :=
         match max with
         | Some 0 => k s caps
         | _ =>
             match fuel with
             | 0 => None
             | S fuel' =>
                 let iterate :=
                   matchNode total a s (clearCaptures (groupsOf a) caps)
                     (fun s' caps' =>
                        if (min =? 0) && (String.length s' =? String.length s)
                        then None
                        else repeatMatcher fuel' (min - 1) (decrement max) s' caps') in
                 if negb (min =? 0) then iterate
                 else if greedy
                      then match iterate with
                           | Some result => Some result
                           | None => k s caps
                           end
                      else match k s caps with
                           | Some result => Some result
                           | None => iterate
                           end
             end
         end) (S (min + String.length s)) min max s caps
  end.

(** Try every start position from the left, as [RegExpBuiltinExec]
    does for a pattern without the sticky flag. *)
Fixpoint searchFrom (total ngroups : nat) (r : Node) (s : string) : RegExpResult :=
  match matchNode total r s (repeat None ngroups) (fun s' caps => Some (s', caps)) with
  | Some (rest, caps) => MatchArray (consumed s rest) caps
  | None =>
      match s with
      | EmptyString => MatchNull
      | String _ s' => searchFrom total ngroups r s'
      end
  end.

(** *** Parsing a pattern *)

Definition isDigit (c : ascii) : bool := (48 <=? byte c) && (byte c <=? 57).
Definition isWord (c : ascii) : bool :=
  isDigit c || ((65 <=? byte c) && (byte c <=? 90))
  || ((97 <=? byte c) && (byte c <=? 122)) || (byte c =? 95).
Definition isSpace (c : ascii) : bool :=
  ((9 <=? byte c) && (byte c <=? 13)) || (byte c =? 32).
Definition isLineTerminator (c : ascii) : bool := (byte c =? 10) || (byte c =? 13).

(** The character or class an escape [\c] stands for; [None] for the
    escapes outside the fragment (back references, [\b], [\x], [\u],
    [\c], [\k], [\p]). *)
Definition escapeClass (c : ascii) : option (ascii -> bool) :=
  if Ascii.eqb c "d" then Some isDigit
  else if Ascii.eqb c "D" then Some (fun x => negb (isDigit x))
  else if Ascii.eqb c "w" then Some isWord
  else if Ascii.eqb c "W" then Some (fun x => negb (isWord x))
  else if Ascii.eqb c "s" then Some isSpace
  else if Ascii.eqb c "S" then Some (fun x => negb (isSpace x))
  else if Ascii.eqb c "t" then Some (Ascii.eqb "009")
  else if Ascii.eqb c "n" then Some (Ascii.eqb "010")
  else if Ascii.eqb c "v" then Some (Ascii.eqb "011")
  else if Ascii.eqb c "f" then Some (Ascii.eqb "012")
  else if Ascii.eqb c "r" then Some (Ascii.eqb "013")
  else if isDigit c || Ascii.eqb c "b" || Ascii.eqb c "B" || Ascii.eqb c "x"
          || Ascii.eqb c "u" || Ascii.eqb c "c" || Ascii.eqb c "k"
          || Ascii.eqb c "p" || Ascii.eqb c "P"
       then None
  else Some (Ascii.eqb c).

(** The single character an escape denotes inside a class, when it
    denotes one (needed for the ends of a range). *)
Definition escapeChar (c : ascii) : option ascii :=
  if Ascii.eqb c "t" then Some "009"%char
  else if Ascii.eqb c "n" then Some "010"%char
  else if Ascii.eqb c "v" then Some "011"%char
  else if Ascii.eqb c "f" then Some "012"%char
  else if Ascii.eqb c "r" then Some "013"%char
  else if isWord c then None
  else Some c.

(** The members of a bracketed class, after the opening bracket and
    the optional [^]; returns the predicate and the text after the
    closing bracket. *)
Fixpoint parseClassItems (s : string) (acc : ascii -> bool)
  : option ((ascii -> bool) * string) :=
  match s with
  | EmptyString => None
  | String c r =>
      if Ascii.eqb c "]" then Some (acc, r)
      else if Ascii.eqb c "\" then
        match r with
        | EmptyString => None
        | String e r' =>
            match escapeClass e with
            | None => None
            | Some p =>
                match escapeChar e, r' with
                | Some lo, String d (String hi r'') =>
                    if Ascii.eqb d "-" && negb (Ascii.eqb hi "]") && negb (Ascii.eqb hi "\")
                    then if byte lo <=? byte hi
                         then parseClassItems r''
                                (fun x => acc x || ((byte lo <=? byte x) && (byte x <=? byte hi)))
                         else None
                    else parseClassItems r' (fun x => acc x || p x)
                | _, _ => parseClassItems r' (fun x => acc x || p x)
                end
            end
        end
      else
        match r with
        | String d (String hi r'') =>
            if Ascii.eqb d "-" && negb (Ascii.eqb hi "]")
            then if Ascii.eqb hi "\" then None
                 else if byte c <=? byte hi
                      then parseClassItems r''
                             (fun x => acc x || ((byte c <=? byte x) && (byte x <=? byte hi)))
                      else None
            else parseClassItems r (fun x => acc x || Ascii.eqb c x)
        | _ => parseClassItems r (fun x => acc x || Ascii.eqb c x)
        end
  end.

Definition parseClass (s : string) : option ((ascii -> bool) * string) :=
  match s with
  | String c r =>
      if Ascii.eqb c "^"
      then match parseClassItems r (fun _ => false) with
           | Some (p, rest) => Some (fun x => negb (p x), rest)
           | None => None
           end
      else parseClassItems s (fun _ => false)
  | EmptyString => None
  end.

(** Decimal digits at the head of a string. *)
Fixpoint parseNumber (s : string) (acc : option nat) : option nat * string :=
  match s with
  | String c r =>
      if isDigit c
      then parseNumber r (Some (10 * match acc with Some n => n | None => 0 end
                                + (byte c - 48)))
      else (acc, s)
  | EmptyString => (acc, s)
  end.

(** A quantifier at the head of [s], applied to [atom]. *)
Definition parseQuantifier (atom : Node) (s : string) : option (Node * string) :=
  let lazy (rest : string) : bool * string :=
    match rest with
    | String q rest' => if Ascii.eqb q "?" then (false, rest') else (true, rest)
    | EmptyString => (true, rest)
    end in
  match s with
  | String c r =>
      if Ascii.eqb c "*" then
        let '(greedy, rest) := lazy r in Some (Repeat 0 None greedy atom, rest)
      else if Ascii.eqb c "+" then
        let '(greedy, rest) := lazy r in Some (Repeat 1 None greedy atom, rest)
      else if Ascii.eqb c "?" then
        let '(greedy, rest) := lazy r in Some (Repeat 0 (Some 1) greedy atom, rest)
      else if Ascii.eqb c "{" then
        match parseNumber r None with
        | (Some lo, String d r') =>
            if Ascii.eqb d "}" then
              let '(greedy, rest) := lazy r' in Some (Repeat lo (Some lo) greedy atom, rest)
            else if Ascii.eqb d "," then
              match parseNumber r' None with
              | (hi, String e r'') =>
                  if Ascii.eqb e "}" then
                    match hi with
                    | Some h => if h <? lo then None
                                else let '(greedy, rest) := lazy r'' in
                                     Some (Repeat lo (Some h) greedy atom, rest)
                    | None => let '(greedy, rest) := lazy r'' in
                              Some (Repeat lo None greedy atom, rest)
                    end
                  else None
              | _ => None
              end
            else None
        | _ => None
        end
      else Some (atom, s)
  | EmptyString => Some (atom, s)
  end.

(** Disjunction, alternative and term of the pattern grammar; [g] is
    the index the next capture group gets.  [fuel] bounds the depth of
    the descent. *)
Fixpoint parseDisjunction (fuel : nat) (s : string) (g : nat)
  : option (Node * string * nat) :=
  match fuel with
  | 0 => None
  | S fuel' =>
      match parseAlternative fuel' s g with
      | Some (lhs, String c r, g') =>
          if Ascii.eqb c "|"
          then match parseDisjunction fuel' r g' with
               | Some (rhs, rest, g'') => Some (Alt lhs rhs, rest, g'')
               | None => None
               end
          else Some (lhs, String c r, g')
      | other => other
      end
  end
with parseAlternative (fuel : nat) (s : string) (g : nat)
  : option (Node * string * nat) :=
  match fuel with
  | 0 => None
  | S fuel' =>
      match s with
      | EmptyString => Some (Empty, s, g)
      | String c _ =>
          if Ascii.eqb c "|" || Ascii.eqb c ")" then Some (Empty, s, g)
          else
            match parseTerm fuel' s g with
            | Some (term, rest, g') =>
                match parseAlternative fuel' rest g' with
                | Some (more, rest', g'') => Some (Seq term more, rest', g'')
                | None => None
                end
            | None => None
            end
      end
  end
with parseTerm (fuel : nat) (s : string) (g : nat)
  : option (Node * string * nat) :=
  match fuel with
  | 0 => None
  | S fuel' =>
      match s with
      | EmptyString => None
      | String c r =>
          if Ascii.eqb c "^" then Some (AssertStart, r, g)
          else if Ascii.eqb c "$" then Some (AssertEnd, r, g)
          else
            let atom : option (Node * string * nat) :=
              if Ascii.eqb c "(" then
                match r with
                | String q r' =>
                    if Ascii.eqb q "?" then
                      match r' with
                      | String colon r'' =>
                          if Ascii.eqb colon ":" then
                            match parseDisjunction fuel' r'' g with
                            | Some (inner, String close rest, g') =>
                                if Ascii.eqb close ")" then Some (inner, rest, g') else None
                            | _ => None
                            end
                          else None
                      | EmptyString => None
                      end
                    else
                      match parseDisjunction fuel' r (S g) with
                      | Some (inner, String close rest, g') =>
                          if Ascii.eqb close ")" then Some (Group g inner, rest, g') else None
                      | _ => None
                      end
                | EmptyString => None
                end
              else if Ascii.eqb c "[" then
                match parseClass r with
                | Some (p, rest) => Some (Char p, rest, g)
                | None => None
                end
              else if Ascii.eqb c "\" then
                match r with
                | String e rest =>
                    match escapeClass e with
                    | Some p => Some (Char p, rest, g)
                    | None => None
                    end
                | EmptyString => None
                end
              else if Ascii.eqb c "." then Some (Char (fun x => negb (isLineTerminator x)), r, g)
              else if Ascii.eqb c "*" || Ascii.eqb c "+" || Ascii.eqb c "?"
                      || Ascii.eqb c "{" || Ascii.eqb c "}" || Ascii.eqb c ")"
                      || Ascii.eqb c "]"
                   then None
              else Some (Char (Ascii.eqb c), r, g) in
            match atom with
            | Some (a, rest, g') =>
                match parseQuantifier a rest with
                | Some (term, rest') => Some (term, rest', g')
                | None => None
                end
            | None => None
            end
      end
  end.

(** [new RegExp(pattern)]: the node and the number of capture groups. *)
Definition compile (pattern : string) : option (Node * nat) :=
  match parseDisjunction (4 * String.length pattern + 8) pattern 0 with
  | Some (r, EmptyString, g) => Some (r, g)
  | _ => None
  end.

(** [subject.match(new RegExp(pattern))] *)
Definition regExpMatch (pattern subject : string) : RegExpResult :=
  match compile pattern with
  | None => RegExpThrows
  | Some (r, ngroups) => searchFrom (String.length subject) ngroups r subject
  end.

End RegExp.

(** ** POSIX paths: [path.dirname] and [path.join] of Node.js *)

Module PosixPath.
Import JsString.

Definition isSlash (c : ascii) : bool := Ascii.eqb c "/".

(** The backward scan of [dirname] over the characters after the
    first, given last to first: trailing slashes are skipped, and the
    scan stops at the first slash after a character that is not one.
    The result is what lies before that slash, last to first. *)
Fixpoint scanBack (r : list ascii) (matchedSlash : bool) : option (list ascii) :=
  match r with
  | [] => None
  | c :: r' =>
      if isSlash c
      then if matchedSlash then scanBack r' true else Some r'
      else scanBack r' false
  end.

Definition dirname (path : string) : string :=
  match path with
  | EmptyString => "."
  | String c0 rest =>
      match scanBack (rev (list_ascii_of_string rest)) true with
      | None => if isSlash c0 then "/" else "."
      | Some before =>
          match before with
          | [] => if isSlash c0 then "//" else String c0 EmptyString
          | _ => String c0 (string_of_list_ascii (rev before))
          end
      end
  end.

(** [split('/')] *)
Fixpoint segments (s : string) : list string :=
  match s with
  | EmptyString => [EmptyString]
  | String c r =>
      if isSlash c then EmptyString :: segments r
      else match segments r with
           | l :: ls => String c l :: ls
           | [] => [String c EmptyString]
           end
  end.

(** [normalizeString]: the stack of segments kept so far, last first. *)
Definition pushSegment (allowAboveRoot : bool) (stack : list string) (seg : string)
  : list string :=
  if (seg =? "")%string || (seg =? ".")%string then stack
  else if (seg =? "..")%string then
    match stack with
    | top :: below =>
        if (top =? "..")%string
        then if allowAboveRoot then seg :: stack else stack
        else below
    | [] => if allowAboveRoot then [seg] else []
    end
  else seg :: stack.

Definition endsWithSlash (s : string) : bool :=
  match rev (list_ascii_of_string s) with
  | c :: _ => isSlash c
  | [] => false
  end.

Definition normalize (path : string) : string :=
  match path with
  | EmptyString => "."
  | String c0 _ =>
      let isAbsolute := isSlash c0 in
      let trailingSeparator := endsWithSlash path in
      let kept := rev (fold_left (pushSegment (negb isAbsolute)) (segments path) []) in
      let body := String.concat "/" kept in
      match body with
      | EmptyString =>
          if isAbsolute then "/" else if trailingSeparator then "./" else "."
      | _ =>
          let body := if trailingSeparator then body ++ "/" else body in
          if isAbsolute then "/" ++ body else body
      end
  end.

(** [path.join(a, b)]: empty arguments are left out. *)
Definition join (a b : string) : string :=
  match a, b with
  | EmptyString, EmptyString => "."
  | EmptyString, _ => normalize b
  | _, EmptyString => normalize a
  | _, _ => normalize (a ++ "/" ++ b)
  end.

(** [dirname] obeys the law the host asks of it. *)

Lemma scanBack_length r m before :
  scanBack r m = Some before ->
  List.length before < List.length r
  /\ (m = true -> List.length before + 2 <= List.length r).
Proof.
  revert m before. induction r as [| c r IH]; intros m before H; [discriminate |].
  cbn [scanBack] in H. destruct (isSlash c).
  - destruct m.
    + destruct (IH _ _ H) as [H1 H2]. cbn [List.length]. split; [lia |].
      intros _. specialize (H2 eq_refl). lia.
    + injection H as <-. cbn [List.length]. split; [lia | discriminate].
  - destruct (IH _ _ H) as [H1 _]. cbn [List.length]. split; [lia |]. intros _. lia.
Qed.

Lemma length_string_of_list l :
  String.length (string_of_list_ascii l) = List.length l.
Proof. induction l as [| c l IH]; [reflexivity |]. simpl. now rewrite IH. Qed.

Lemma length_list_of_string s :
  List.length (list_ascii_of_string s) = String.length s.
Proof. induction s as [| c s IH]; [reflexivity |]. simpl. now rewrite IH. Qed.

Lemma dirname_descends p :
  dirname p = p \/ String.length (dirname p) < String.length p
  \/ dirname (dirname p) = dirname p.
Proof.
  destruct p as [| c0 rest]; [right; right; reflexivity |].
  remember (dirname (String c0 rest)) as d eqn:Hd.
  cbn [dirname] in Hd.
  destruct (scanBack (rev (list_ascii_of_string rest)) true) as [before |] eqn:E.
  - right. left.
    destruct (scanBack_length _ _ _ E) as [H1 H2]. specialize (H2 eq_refl).
    rewrite length_rev, length_list_of_string in H1, H2.
    destruct before as [| x xs].
    + cbn [List.length] in H2. subst d. destruct (isSlash c0); cbn [String.length]; lia.
    + subst d. cbn [String.length]. rewrite length_string_of_list, length_rev. lia.
  - right. right. subst d. destruct (isSlash c0); reflexivity.
Qed.

End PosixPath.

(** ** A repository to run the workflow on

    The commands the service issues, interpreted on a repository without
    a remote: local branches and annotated tags point to commits, a
    commit knows its parents, and the configuration is the list of
    key/value pairs of [.git/config].  File contents, and with them merge
    conflicts, are left out.  This is the behaviour of [git] itself, not
    code of the extension; the operations above are stated against any
    [GitHost], and this one is used to run them. *)

Module GitModel.
Import JsString.

Inductive Commit :=
| Initial (id : nat)
| Change (parent : Commit) (id : nat)
| Merged (first second : Commit).

Fixpoint commitEqb (c d : Commit) : bool :=
  match c, d with
  | Initial i, Initial j => i =? j
  | Change p i, Change q j => commitEqb p q && (i =? j)
  | Merged a b, Merged a' b' => commitEqb a a' && commitEqb b b'
  | _, _ => false
  end.

(** [contains c d]: the history of [c] contains [d]. *)
Fixpoint contains (c d : Commit) : bool :=
  commitEqb c d ||
  match c with
  | Initial _ => false
  | Change p _ => contains p d
  | Merged a b => contains a d || contains b d
  end.

Record Repository := {
  toplevel : string;
  config : list (string * string);
  branches : list (string * Commit);             (* sorted by name *)
  tags : list (string * (Commit * string));      (* target and message *)
  HEAD : string                                  (* the branch checked out *)
}.

Fixpoint lookup {A} (key : string) (l : list (string * A)) : option A :=
  match l with
  | [] => None
  | (k, v) :: rest => if (k =? key)%string then Some v else lookup key rest
  end.

Fixpoint remove {A} (key : string) (l : list (string * A)) : list (string * A) :=
  match l with
  | [] => []
  | (k, v) :: rest => if (k =? key)%string then remove key rest else (k, v) :: remove key rest
  end.

(** Replace the value of [key], or add it after the existing entries. *)
Fixpoint assign {A} (key : string) (v : A) (l : list (string * A)) : list (string * A) :=
  match l with
  | [] => [(key, v)]
  | (k, w) :: rest => if (k =? key)%string then (k, v) :: rest else (k, w) :: assign key v rest
  end.

(** Insert a new branch at its place in the order of names. *)
Fixpoint insertSorted {A} (key : string) (v : A) (l : list (string * A))
  : list (string * A) :=
  match l with
  | [] => [(key, v)]
  | (k, w) :: rest =>
      if String.leb key k then (key, v) :: l else (k, w) :: insertSorted key v rest
  end.

Definition LF : string := String "010" EmptyString.

Definition tip (r : Repository) : option Commit := lookup (HEAD r) (branches r).

(** The output of [git branch --list]. *)
Definition branchList (r : Repository) : string :=
  String.concat LF
    (map (fun b => (if (fst b =? HEAD r)%string then "* " else "  ") ++ fst b)
         (branches r)).

Definition withConfig (r : Repository) c :=
  {| toplevel := toplevel r; config := c; branches := branches r;
     tags := tags r; HEAD := HEAD r |}.
Definition withBranches (r : Repository) b :=
  {| toplevel := toplevel r; config := config r; branches := b;
     tags := tags r; HEAD := HEAD r |}.
Definition withTags (r : Repository) t :=
  {| toplevel := toplevel r; config := config r; branches := branches r;
     tags := t; HEAD := HEAD r |}.
Definition withHEAD (r : Repository) h :=
  {| toplevel := toplevel r; config := config r; branches := branches r;
     tags := tags r; HEAD := h |}.

Definition ok (r : Repository) (stdout : string) : Repository * (string + string) :=
  (r, inl stdout).
Definition failed (r : Repository) (message : string) : Repository * (string + string) :=
  (r, inr message).

(** [git config --get key] *)
Definition configGetCommand (key : string) (r : Repository) :=
  match lookup key (config r) with
  | Some v => ok r (v ++ LF)
  | None => failed r ("Command failed: git config --get " ++ key)
  end.

(** [git config key value] *)
Definition configSetCommand (key value : string) (r : Repository) :=
  ok (withConfig r (assign key value (config r))) "".

(** [git checkout name] *)
Definition checkout (name : string) (r : Repository) :=
  match lookup name (branches r) with
  | Some _ => ok (withHEAD r name) ""
  | None => failed r ("error: pathspec '" ++ name
                      ++ "' did not match any file(s) known to git")
  end.

(** [git checkout -b name]: the new branch starts at the current
    commit and is checked out. *)
Definition createBranch (name : string) (r : Repository) :=
  match lookup name (branches r), tip r with
  | None, Some c => ok (withHEAD (withBranches r (insertSorted name c (branches r))) name) ""
  | _, _ => failed r ("fatal: a branch named '" ++ name ++ "' already exists")
  end.

Definition mergeReport : string := "Merge made by the 'ort' strategy." ++ LF.
Definition deleteReport (name : string) : string := "Deleted branch " ++ name ++ "." ++ LF.

(** [git merge --no-ff name]: a merge commit is made even when the
    current branch could be moved forward, and none when the branch is
    merged already. *)
Definition merge (name : string) (r : Repository) :=
  match lookup name (branches r), tip r with
  | Some theirs, Some ours =>
      if contains ours theirs then ok r ("Already up to date." ++ LF)
      else ok (withBranches r (assign (HEAD r) (Merged ours theirs) (branches r)))
              mergeReport
  | _, _ => failed r ("merge: " ++ name ++ " - not something we can merge")
  end.

(** [git tag -a name -m message] *)
Definition tag (name message : string) (r : Repository) :=
  match lookup name (tags r), tip r with
  | None, Some c => ok (withTags r (tags r ++ [(name, (c, message))])%list) ""
  | _, _ => failed r ("fatal: tag '" ++ name ++ "' already exists")
  end.

(** [git branch -d name]: refused for the branch checked out and for
    a branch that is not merged into the current one. *)
Definition deleteBranch (name : string) (r : Repository) :=
  match lookup name (branches r), tip r with
  | Some theirs, Some ours =>
      if (name =? HEAD r)%string
      then failed r ("error: cannot delete branch '" ++ name ++ "' used by worktree")
      else if contains ours theirs
           then ok (withBranches r (remove name (branches r))) (deleteReport name)
           else failed r ("error: the branch '" ++ name ++ "' is not fully merged")
  | _, _ => failed r ("error: branch '" ++ name ++ "' not found")
  end.

Definition same (a b : string) : bool := (a =? b)%string.

(** The commands the service knows, by the number of their arguments. *)
Definition git (args : list string) (cwd : string) (r : Repository)
  : Repository * (string + string) :=
  match args with
  | [a; b] =>
      if same a "rev-parse" && same b "--show-toplevel" then ok r (toplevel r ++ LF)
      else if same a "branch" && same b "--list" then ok r (branchList r ++ LF)
      else if same a "checkout" then checkout b r
      else failed r "git: unknown command"
  | [a; b; c] =>
      if same a "rev-parse" && same b "--abbrev-ref" && same c "HEAD" then ok r (HEAD r ++ LF)
      else if same a "config" && same b "--get" then configGetCommand c r
      else if same a "config" then configSetCommand b c r
      else if same a "checkout" && same b "-b" then createBranch c r
      else if same a "pull" && same b "origin"
           then failed r "fatal: 'origin' does not appear to be a git repository"
      else if same a "merge" && same b "--no-ff" then merge c r
      else if same a "branch" && same b "-d" then deleteBranch c r
      else failed r "git: unknown command"
  | [a; b; c; d; e] =>
      if same a "tag" && same b "-a" && same d "-m" then tag c e r
      else failed r "git: unknown command"
  | _ => failed r "git: unknown command"
  end.

(** *** Repositories for the examples *)

(** A repository with one commit on [master] and no workflow settings. *)
Definition fresh : Repository :=
  {| toplevel := "/repo"; config := []; branches := [("master", Initial 0)];
     tags := []; HEAD := "master" |}.

(** The default workflow settings, as [init] stores them. *)
Definition defaultSettings : list (string * string) :=
  [("gitflow.branch.master", "master");
   ("gitflow.branch.develop", "develop");
   ("gitflow.prefix.feature", "feature/");
   ("gitflow.prefix.release", "release/");
   ("gitflow.prefix.hotfix", "hotfix/");
   ("gitflow.prefix.support", "support/");
   ("gitflow.prefix.versiontag", "")].

(** An initialized repository in which [develop] is one commit ahead
    of [master], with extra branches [extra] and [current] checked out. *)
Definition workingOn (extra : list (string * Commit)) (current : string) : Repository :=
  {| toplevel := "/repo"; config := defaultSettings;
     branches := fold_right (fun b l => insertSorted (fst b) (snd b) l)
                            [("develop", Change (Initial 0) 1); ("master", Initial 0)]
                            extra;
     tags := []; HEAD := current |}.

Definition settled : Repository := workingOn [] "develop".

(** Work on a feature, a release and a hotfix, each one commit ahead
    of the branch it started from. *)
Definition featureReady : Repository :=
  workingOn [("feature/login", Change (Change (Initial 0) 1) 2)] "feature/login".
Definition releaseReady : Repository :=
  workingOn [("release/1.0.0", Change (Change (Initial 0) 1) 2)] "release/1.0.0".
Definition hotfixReady : Repository :=
  workingOn [("hotfix/1.0.1", Change (Initial 0) 3)] "hotfix/1.0.1".

(** A repository that has a branch [develop-old] and no branch
    [develop]. *)
Definition renamedDevelop : Repository :=
  {| toplevel := "/repo"; config := [];
     branches := [("develop-old", Change (Initial 0) 1); ("master", Initial 0)];
     tags := []; HEAD := "master" |}.

(** The editor knows the repository, and [.git/config] is where it is
    in every repository. *)
#[export] Instance host : GitFlowService.GitHost Repository := {|
  GitFlowService.vscodeRepositoryRoot := fun r => Some (toplevel r);
  GitFlowService.workingDirectory := toplevel;
  GitFlowService.gitConfigFileExists := fun r root => (root =? toplevel r)%string;
  GitFlowService.execFile := git
|}.

End GitModel.

(** ** Files and commands for the examples *)

Module Fixture.

Record Files := {
  directories : list string;
  files : list (string * string);                    (* path, text *)
  parsed : list (string * GitCommitConfigFile);      (* text, what [JSON.parse] gives *)
  commands : list (string * (string + string))       (* command line, its outcome *)
}.

Definition isSome {A} (o : option A) : bool :=
  match o with Some _ => true | None => false end.

(** A host over POSIX paths and the regular expressions above, with
    the files, parse results and command outcomes of [f]. *)
#[export] Instance hostOf (f : Files) : Host := {|
  dirname := PosixPath.dirname;
  join := PosixPath.join;
  existsSync p := isSome (GitModel.lookup p (files f))
                  || existsb (String.eqb p) (directories f);
  isFile p := isSome (GitModel.lookup p (files f));
  readFileSync p := GitModel.lookup p (files f);
  jsonParse text := GitModel.lookup text (parsed f);
  regExpMatch := RegExp.regExpMatch;
  exec cmd cwd := match GitModel.lookup cmd (commands f) with
                  | Some outcome => outcome
                  | None => inr ("Command failed: " ++ cmd)
                  end;
  dirname_descends := PosixPath.dirname_descends
|}.

(** A double quote, and a text between double quotes. *)
Definition dq : string := String "034" EmptyString.
Definition quoted (s : string) : string := dq ++ s ++ dq.
Definition LF : string := String "010" EmptyString.

(** The version pattern the extension writes into a new [.gitcommit]. *)
Definition packageJsonPattern : string :=
  quoted "version" ++ "\s*:\s*" ++ quoted "([\d.]+)".

Definition packageJson (version : string) : string :=
  "{" ++ quoted "version" ++ ": " ++ quoted version ++ "}".

(** A monorepo: two projects described by one [.gitcommit]. *)
Definition api : GitCommitProjectConfig :=
  {| projectName := "Insurance.Api"; path := "api/package.json";
     versionRegex := packageJsonPattern; description := None |}.
Definition web : GitCommitProjectConfig :=
  {| projectName := "Insurance.Web"; path := "web/package.json";
     versionRegex := packageJsonPattern; description := None |}.

(** A text as a JSON string literal: [\] and the double quote are
    escaped. *)
Fixpoint jsonEscape (s : string) : string :=
  match s with
  | EmptyString => EmptyString
  | String c r =>
      if Ascii.eqb c "034" || Ascii.eqb c "\"
      then String "\" (String c (jsonEscape r))
      else String c (jsonEscape r)
  end.

Definition jsonString (s : string) : string := quoted (jsonEscape s).

Definition projectEntry (p : GitCommitProjectConfig) : string :=
  "{" ++ jsonString "projectName" ++ ": " ++ jsonString (projectName p) ++ ", "
      ++ jsonString "path" ++ ": " ++ jsonString (path p) ++ ", "
      ++ jsonString "versionRegex" ++ ": " ++ jsonString (versionRegex p) ++ "}".

Definition multiText : string :=
  "{" ++ jsonString "config" ++ ": [" ++ projectEntry api ++ ", " ++ projectEntry web ++ "]}".

Definition multiConfig : GitCommitConfigFile :=
  {| cf_projectName := None; cf_path := None; cf_versionRegex := None;
     cf_description := None; cf_config := ConfigArray [api; web] |}.

Definition monorepo (commands' : list (string * (string + string))) : Files :=
  {| directories := ["/repo"; "/repo/api"; "/repo/web"];
     files := [("/repo/.gitcommit", multiText);
               ("/repo/api/package.json", packageJson "1.2.3");
               ("/repo/web/package.json", packageJson "4.5.6");
               ("/repo/web/index.ts", "export {};")];
     parsed := [(multiText, multiConfig)];
     commands := commands' |}.

(** A single project, its version in [package.json]. *)
Definition singleText (pattern : string) : string :=
  projectEntry {| projectName := "app"; path := "package.json";
                  versionRegex := pattern; description := None |}.

Definition singleConfig (pattern : string) : GitCommitConfigFile :=
  {| cf_projectName := Some "app"; cf_path := Some "package.json";
     cf_versionRegex := Some pattern; cf_description := None;
     cf_config := ConfigUndefined |}.

Definition singleRepo (pattern versionFile : string)
           (commands' : list (string * (string + string))) : Files :=
  {| directories := ["/app"; "/app/src"];
     files := [("/app/.gitcommit", singleText pattern);
               ("/app/package.json", versionFile);
               ("/app/src/main.ts", "export {};")];
     parsed := [(singleText pattern, singleConfig pattern)];
     commands := commands' |}.

(** A repository without [.gitcommit]. *)
Definition bareRepo (commands' : list (string * (string + string))) : Files :=
  {| directories := ["/bare"];
     files := [("/bare/main.ts", "export {};")];
     parsed := [];
     commands := commands' |}.

Definition tagged : list (string * (string + string)) :=
  [("git describe --tags --exact-match HEAD", inl ("v2.0.0" ++ LF));
   ("git rev-parse --short=8 HEAD", inl ("0a1b2c3d" ++ LF));
   ("git rev-parse --abbrev-ref HEAD", inl ("master" ++ LF));
   ("git describe --tags --abbrev=0", inl ("v2.0.0" ++ LF))].

Definition untagged : list (string * (string + string)) :=
  [("git describe --tags --exact-match HEAD",
    inr "Command failed: fatal: no tag exactly matches");
   ("git rev-parse --short=8 HEAD", inl ("0a1b2c3d" ++ LF));
   ("git rev-parse --abbrev-ref HEAD", inl ("develop" ++ LF));
   ("git describe --tags --abbrev=0", inl ("v2.0.0" ++ LF))].

End Fixture.

(* ================================================================== *)
(** * Facts about the string primitives *)
(* ================================================================== *)

Module JsStringFacts.
Import JsString.

Lemma prefix_cons a s1 b s2 :
  String.prefix (String a s1) (String b s2) = Ascii.eqb a b && String.prefix s1 s2.
Proof.
  simpl. destruct (ascii_dec a b) as [e | n].
  - subst. now rewrite Ascii.eqb_refl.
  - apply Ascii.eqb_neq in n. now rewrite n.
Qed.

Lemma prefix_nil s : String.prefix EmptyString s = true.
Proof. now destruct s. Qed.

Lemma prefix_app t a u : String.prefix t a = true -> String.prefix t (a ++ u) = true.
Proof.
  revert a. induction t as [| c t IH]; intros a H.
  - apply prefix_nil.
  - destruct a as [| b a]; [discriminate |].
    change ((String b a) ++ u) with (String b (a ++ u)).
    rewrite prefix_cons in *. apply andb_true_iff in H as [H1 H2].
    rewrite H1. simpl. now apply IH.
Qed.

Lemma hasChar_app c a b : hasChar c (a ++ b) = hasChar c a || hasChar c b.
Proof.
  induction a as [| x a IH]; simpl; [reflexivity |].
  now rewrite IH, orb_assoc.
Qed.

Lemma includes_app t a u : includes a t = true -> includes (a ++ u) t = true.
Proof.
  induction a as [| b a IH]; intros H.
  - simpl in H. rewrite orb_false_r in H.
    destruct t; [| discriminate]. destruct u; reflexivity.
  - change ((String b a) ++ u) with (String b (a ++ u)).
    cbn [includes] in *. apply orb_true_iff in H as [H | H].
    + apply orb_true_iff. left. now apply (prefix_app _ (String b a) u).
    + apply orb_true_iff. right. now apply IH.
Qed.

(** A text that starts with [c] occurs only where [c] occurs. *)
Lemma includes_hasChar c t s :
  includes s (String c t) = true -> hasChar c s = true.
Proof.
  induction s as [| a s IH]; intros H.
  - discriminate.
  - cbn [includes] in H. rewrite prefix_cons in H. simpl.
    apply orb_true_iff in H as [H | H].
    + apply andb_true_iff in H as [H _]. rewrite Ascii.eqb_sym, H. reflexivity.
    + rewrite (IH H). apply orb_true_r.
Qed.

(** ** [drop] and [take] *)

Lemma drop_nil n : drop n EmptyString = EmptyString.
Proof. now destruct n. Qed.

Lemma take_drop n s : take n s ++ drop n s = s.
Proof.
  revert s. induction n as [| n IH]; intros [| c s]; simpl; try reflexivity.
  now rewrite IH.
Qed.

Lemma length_drop n s : String.length (drop n s) = String.length s - n.
Proof.
  revert s. induction n as [| n IH]; intros [| c s]; simpl; try reflexivity.
  apply IH.
Qed.

Lemma drop_app n a b :
  n <= String.length a -> drop n (a ++ b) = drop n a ++ b.
Proof.
  revert a. induction n as [| n IH]; intros a H.
  - now destruct a.
  - destruct a as [| c a]; simpl in *; [lia |]. apply IH. lia.
Qed.

Lemma hasChar_drop c n s : hasChar c (drop n s) = true -> hasChar c s = true.
Proof.
  intros H. rewrite <- (take_drop n s), hasChar_app, H. apply orb_true_r.
Qed.

Lemma includes_drop t n s : includes (drop n s) t = true -> includes s t = true.
Proof.
  revert s. induction n as [| n IH]; intros s H.
  - now destruct s.
  - destruct s as [| c s]; [exact H |]. simpl in H.
    cbn [includes]. rewrite (IH _ H). apply orb_true_r.
Qed.

(** ** [trim] *)

Lemma whiteSpaceLen_le s : whiteSpaceLen s <= String.length s.
Proof.
  destruct s as [| c1 [| c2 [| c3 r]]]; cbn [whiteSpaceLen String.length];
    repeat match goal with |- context [if ?b then _ else _] => destruct b end; lia.
Qed.

Lemma whiteSpaceLen_app s u :
  whiteSpaceLen s <> 0 -> whiteSpaceLen (s ++ u) = whiteSpaceLen s.
Proof.
  destruct s as [| c1 [| c2 [| c3 r]]]; cbn [whiteSpaceLen append];
    repeat match goal with |- context [if ?b then _ else _] => destruct b end;
    congruence.
Qed.

Lemma trimStartN_step fuel s :
  trimStartN (S fuel) s =
  match whiteSpaceLen s with 0 => s | n => trimStartN fuel (drop n s) end.
Proof. reflexivity. Qed.

(** Fuel beyond the length of the string changes nothing. *)
Lemma trimStartN_enough fuel s :
  String.length s <= fuel -> trimStartN fuel s = trimStart s.
Proof.
  unfold trimStart. remember (String.length s) as n eqn:En.
  revert s fuel En. induction n as [n IH] using lt_wf_ind. intros s fuel En Hf.
  destruct fuel as [| fuel].
  - assert (n = 0) by lia. subst n. now rewrite H.
  - destruct n as [| n].
    + destruct s; [reflexivity | discriminate].
    + rewrite !trimStartN_step.
      destruct (whiteSpaceLen s) as [| k] eqn:Ek; [reflexivity |].
      pose proof (whiteSpaceLen_le s) as Hle.
      pose proof (length_drop (S k) s) as Hd.
      rewrite (IH (String.length (drop (S k) s))) with (fuel := fuel); try lia; auto.
      rewrite (IH (String.length (drop (S k) s))) with (fuel := n); try lia; auto.
Qed.

Lemma trimStart_unfold s :
  trimStart s =
  match whiteSpaceLen s with 0 => s | n => trimStart (drop n s) end.
Proof.
  destruct s as [| c r].
  - reflexivity.
  - unfold trimStart at 1. cbn [String.length]. rewrite trimStartN_step.
    destruct (whiteSpaceLen (String c r)) as [| k] eqn:Ek; [reflexivity |].
    apply trimStartN_enough.
    pose proof (whiteSpaceLen_le (String c r)) as Hle.
    rewrite length_drop. cbn [String.length] in *. lia.
Qed.

(** Induction along the steps of [trimStart]. *)
Lemma trimStart_ind (P : string -> Prop) :
  (forall s, whiteSpaceLen s = 0 -> P s) ->
  (forall s, whiteSpaceLen s <> 0 -> P (drop (whiteSpaceLen s) s) -> P s) ->
  forall s, P s.
Proof.
  intros H0 HS s. remember (String.length s) as n eqn:En.
  revert s En. induction n as [n IH] using lt_wf_ind. intros s En.
  destruct (whiteSpaceLen s) as [| k] eqn:Ek.
  - now apply H0.
  - apply HS; [congruence |]. rewrite Ek.
    apply (IH (String.length (drop (S k) s))); [| reflexivity].
    pose proof (whiteSpaceLen_le s). rewrite length_drop. lia.
Qed.

Lemma trimStart_head s : whiteSpaceLen (trimStart s) = 0.
Proof.
  induction s as [s H | s H IH] using trimStart_ind; rewrite trimStart_unfold.
  - now rewrite H.
  - destruct (whiteSpaceLen s); [congruence | exact IH].
Qed.

Lemma trimStart_fixed s : whiteSpaceLen s = 0 -> trimStart s = s.
Proof. intros H. now rewrite trimStart_unfold, H. Qed.

Lemma trimStart_suffix s : exists n, trimStart s = drop n s.
Proof.
  induction s as [s H | s H IH] using trimStart_ind; rewrite trimStart_unfold.
  - rewrite H. now exists 0.
  - destruct (whiteSpaceLen s) as [| k] eqn:Ek; [congruence |].
    destruct IH as [n IH]. exists (S k + n). rewrite IH.
    clear. revert s. generalize (S k) as m. induction m as [| m IHm]; intros s.
    + reflexivity.
    + destruct s as [| c s]; [now rewrite !drop_nil | apply IHm].
Qed.

Lemma allWhite_app a b : allWhite a = true -> allWhite b = true -> allWhite (a ++ b) = true.
Proof.
  unfold allWhite. intros Ha Hb.
  induction a as [a H | a H IH] using trimStart_ind.
  - rewrite (trimStart_fixed _ H) in Ha. destruct a; [exact Hb | discriminate].
  - rewrite trimStart_unfold in Ha.
    rewrite trimStart_unfold, (whiteSpaceLen_app _ b H).
    destruct (whiteSpaceLen a) as [| k] eqn:Ek; [congruence |].
    rewrite drop_app.
    + apply IH. exact Ha.
    + rewrite <- Ek. apply whiteSpaceLen_le.
Qed.

Lemma trimEnd_cons c r :
  trimEnd (String c r) =
  if allWhite (String c r) then EmptyString else String c (trimEnd r).
Proof. reflexivity. Qed.

(** What [trimEnd] removes is white space. *)
Lemma trimEnd_prefix s : exists w, s = trimEnd s ++ w /\ allWhite w = true.
Proof.
  induction s as [| c r IH].
  - now exists EmptyString.
  - rewrite trimEnd_cons. destruct (allWhite (String c r)) eqn:E.
    + now exists (String c r).
    + destruct IH as [w [Hw Hall]]. exists w. split; [| exact Hall].
      simpl. now rewrite <- Hw.
Qed.

Lemma allWhite_nil_or_head s : allWhite s = true -> s = EmptyString \/ whiteSpaceLen s <> 0.
Proof.
  unfold allWhite. intros H. destruct (whiteSpaceLen s) eqn:E; [| right; congruence].
  rewrite (trimStart_fixed _ E) in H. destruct s; [now left | discriminate].
Qed.

Lemma trimEnd_idempotent s : trimEnd (trimEnd s) = trimEnd s.
Proof.
  induction s as [| c r IH]; [reflexivity |].
  rewrite trimEnd_cons. destruct (allWhite (String c r)) eqn:E; [reflexivity |].
  rewrite trimEnd_cons, IH.
  destruct (allWhite (String c (trimEnd r))) eqn:E'; [| reflexivity].
  destruct (trimEnd_prefix r) as [w [Hw Hall]].
  pose proof (allWhite_app _ _ E' Hall) as Habs.
  change (String c (trimEnd r) ++ w) with (String c (trimEnd r ++ w)) in Habs.
  rewrite <- Hw in Habs. congruence.
Qed.

(** A prefix of a string that does not start with white space does not
    start with white space either. *)
Lemma trimEnd_head s : whiteSpaceLen s = 0 -> whiteSpaceLen (trimEnd s) = 0.
Proof.
  intros H. destruct (trimEnd_prefix s) as [w [Hw _]].
  destruct (whiteSpaceLen (trimEnd s)) eqn:E; [reflexivity |].
  assert (Hne : whiteSpaceLen (trimEnd s) <> 0) by congruence.
  pose proof (whiteSpaceLen_app _ w Hne) as Happ.
  rewrite <- Hw in Happ. congruence.
Qed.

Theorem trim_idempotent s : trim (trim s) = trim s.
Proof.
  unfold trim.
  rewrite (trimStart_fixed (trimEnd (trimStart s))).
  - apply trimEnd_idempotent.
  - apply trimEnd_head, trimStart_head.
Qed.

Lemma hasChar_trim c s : hasChar c (trim s) = true -> hasChar c s = true.
Proof.
  unfold trim. intros H.
  destruct (trimStart_suffix s) as [n Hn].
  destruct (trimEnd_prefix (trimStart s)) as [w [Hw _]].
  apply (hasChar_drop c n). rewrite <- Hn, Hw, hasChar_app, H. reflexivity.
Qed.

Lemma includes_trim t s : includes (trim s) t = true -> includes s t = true.
Proof.
  unfold trim. intros H.
  destruct (trimStart_suffix s) as [n Hn].
  destruct (trimEnd_prefix (trimStart s)) as [w [Hw _]].
  apply (includes_drop t n). rewrite <- Hn, Hw. now apply includes_app.
Qed.

End JsStringFacts.

(* ================================================================== *)
(** * Facts about the renderer *)
(* ================================================================== *)

Module RendererFacts.
Import JsString JsStringFacts Renderer.

Lemma getSubstitution_plain matched before after tpl :
  hasChar "$" tpl = false -> getSubstitution matched before after tpl = tpl.
Proof.
  induction tpl as [| a t IH]; intros H; [reflexivity |].
  cbn [hasChar] in H. apply orb_false_iff in H as [Ha Ht].
  cbn [getSubstitution]. rewrite Ha. now rewrite (IH Ht).
Qed.

(** Without a [<] in the subject there is nothing to replace. *)
Lemma replaceFrom_absent t repl whole s pos :
  hasChar "<" s = false ->
  replaceFrom (String "<" t) repl whole s pos 0 = s.
Proof.
  revert pos. induction s as [| c r IH]; intros pos H; [reflexivity |].
  cbn [hasChar] in H. apply orb_false_iff in H as [Hc Hr].
  cbn [replaceFrom]. rewrite prefix_cons, Ascii.eqb_sym, Hc. cbn [andb].
  now rewrite (IH _ Hr).
Qed.

Lemma replaceAll_absent p repl s :
  hasChar "<" s = false -> replaceAll (token p) repl s = s.
Proof.
  intros H. unfold replaceAll. destruct p; cbn [token]; now apply replaceFrom_absent.
Qed.

(** [fillHole p repl segs]: every hole [p] of the template is filled
    with the characters of [repl]. *)
Definition fillHole (p : Placeholder) (repl : string) (segs : list Segment) : list Segment :=
  flat_map (fun seg =>
              match seg with
              | Text c => [Text c]
              | Hole q => if placeholderEqb p q
                          then map Text (list_ascii_of_string repl)
                          else [Hole q]
              end) segs.

Lemma assemble_app a b : assemble (a ++ b)%list = assemble a ++ assemble b.
Proof.
  induction a as [| [c | p] a IH]; cbn [assemble List.app]; [reflexivity | |].
  - now rewrite IH.
  - rewrite IH. clear. induction (token p) as [| x t IHt]; [reflexivity |].
    simpl. now rewrite IHt.
Qed.

Lemma assemble_text v : assemble (map Text (list_ascii_of_string v)) = v.
Proof. induction v as [| c v IH]; [reflexivity |]. simpl. now rewrite IH. Qed.

Lemma replaceFrom_fill p repl whole segs pos :
  literalText segs = true ->
  hasChar "$" repl = false ->
  replaceFrom (token p) repl whole (assemble segs) pos 0
  = assemble (fillHole p repl segs).
Proof.
  intros Hlit Hrepl. revert pos.
  induction segs as [| [c | q] segs IH]; intros pos; [reflexivity | |].
  - cbn [literalText forallb] in Hlit. apply andb_true_iff in Hlit as [Hc Hlit].
    apply negb_true_iff in Hc.
    cbn [assemble fillHole flat_map List.app replaceFrom].
    replace (String.prefix (token p) (String c (assemble segs))) with false.
    + f_equal. apply (IH Hlit).
    + destruct p; cbn [token]; rewrite prefix_cons, Ascii.eqb_sym, Hc; reflexivity.
  - cbn [literalText forallb] in Hlit. cbn [andb] in Hlit.
    cbn [fillHole flat_map].
    destruct p, q; cbn [placeholderEqb];
      rewrite assemble_app;
      try rewrite assemble_text;
      simpl; rewrite ?prefix_nil; cbv iota;
      try (rewrite getSubstitution_plain by exact Hrepl);
      rewrite (IH Hlit); reflexivity.
Qed.

Lemma replaceAll_fill p repl segs :
  literalText segs = true ->
  hasChar "$" repl = false ->
  replaceAll (token p) repl (assemble segs) = assemble (fillHole p repl segs).
Proof. intros. unfold replaceAll. now apply replaceFrom_fill. Qed.

Lemma literalText_app a b :
  literalText (a ++ b)%list = literalText a && literalText b.
Proof. apply forallb_app. Qed.

Lemma literalText_chars v :
  hasChar "<" v = false -> literalText (map Text (list_ascii_of_string v)) = true.
Proof.
  induction v as [| c v IH]; intros H; [reflexivity |].
  cbn [hasChar] in H. apply orb_false_iff in H as [Hc Hv].
  cbn [list_ascii_of_string map literalText forallb]. rewrite Hc. cbn [negb andb].
  now apply IH.
Qed.

Lemma literalText_fill p repl segs :
  literalText segs = true -> hasChar "<" repl = false ->
  literalText (fillHole p repl segs) = true.
Proof.
  intros Hlit Hrepl. induction segs as [| [c | q] segs IH]; [reflexivity | |];
    cbn [literalText forallb] in Hlit; apply andb_true_iff in Hlit as [Hh Ht];
    cbn [fillHole flat_map]; rewrite literalText_app; apply andb_true_iff; split;
    try (apply IH; exact Ht).
  - cbn [literalText forallb]. now rewrite Hh.
  - destruct (placeholderEqb p q); [now apply literalText_chars | reflexivity].
Qed.

(** [holeFree p segs]: the template has no hole [p]. *)
Definition holeFree (p : Placeholder) (segs : list Segment) : bool :=
  forallb (fun seg => match seg with
                      | Text _ => true
                      | Hole q => negb (placeholderEqb p q)
                      end) segs.

Lemma holeFree_chars p v : holeFree p (map Text (list_ascii_of_string v)) = true.
Proof. induction v as [| c v IH]; [reflexivity | exact IH]. Qed.

Lemma placeholderEqb_refl p : placeholderEqb p p = true.
Proof. now destruct p. Qed.

Lemma holeFree_fill_same p repl segs : holeFree p (fillHole p repl segs) = true.
Proof.
  induction segs as [| [c | q] segs IH]; [reflexivity | exact IH |].
  cbn [fillHole flat_map]. unfold holeFree. rewrite forallb_app.
  apply andb_true_iff. split; [| exact IH].
  destruct (placeholderEqb p q) eqn:E; [apply holeFree_chars |].
  cbn [forallb]. now rewrite E.
Qed.

Lemma holeFree_fill_other p q repl segs :
  holeFree q segs = true -> holeFree q (fillHole p repl segs) = true.
Proof.
  intros H. induction segs as [| [c | r] segs IH]; [reflexivity | |];
    cbn [holeFree forallb] in H; apply andb_true_iff in H as [Hh Ht].
  - exact (IH Ht).
  - cbn [fillHole flat_map]. unfold holeFree. rewrite forallb_app.
    apply andb_true_iff. split; [| exact (IH Ht)].
    destruct (placeholderEqb p r); [apply holeFree_chars |].
    cbn [forallb]. now rewrite Hh.
Qed.

Lemma assemble_without_holes segs :
  literalText segs = true ->
  (forall p, holeFree p segs = true) ->
  hasChar "<" (assemble segs) = false.
Proof.
  intros Hlit Hfree. induction segs as [| [c | q] segs IH]; [reflexivity | |].
  - cbn [literalText forallb] in Hlit. apply andb_true_iff in Hlit as [Hc Hlit].
    apply negb_true_iff in Hc. cbn [assemble hasChar]. rewrite Hc. cbn [orb].
    apply IH; [exact Hlit |]. intros p. exact (Hfree p).
  - specialize (Hfree q). cbn [holeFree forallb] in Hfree.
    rewrite placeholderEqb_refl in Hfree. discriminate.
Qed.

(** The two branches of every conditional replacement of
    [messageCombine] do the same. *)
Lemma replace_either pat v r :
  (if negb (v =? "")%string then replaceAll pat v r else replaceAll pat "" r)
  = replaceAll pat v r.
Proof. destruct (String.eqb_spec v ""); [now subst | reflexivity]. Qed.

Definition shownIcon (isShowEmoji : bool) (config : GitCommitMessage) : string :=
  if isShowEmoji then icon config else "".

Definition TWO_LF : string := String "010" (String "010" "").

Lemma substitute_chain isShowEmoji config :
  substitute isShowEmoji config =
  replaceAll (token PSpace) " "
    (replaceAll (token PEnter) TWO_LF
      (replaceAll (token PFooter) (footer config)
        (replaceAll (token PBody) (body config)
          (replaceAll (token PSubject) (subject config)
            (replaceAll (token PScope) (scope config)
              (replaceAll (token PType) (type config)
                (replaceAll (token PIcon) (shownIcon isShowEmoji config)
                   (templateContent config)))))))).
Proof.
  unfold substitute, shownIcon. cbv zeta. rewrite !replace_either.
  destruct isShowEmoji; reflexivity.
Qed.

(** The segments of the template once every placeholder is filled. *)
Definition filled (isShowEmoji : bool) (config : GitCommitMessage)
           (segs : list Segment) : list Segment :=
  fillHole PSpace " "
    (fillHole PEnter TWO_LF
      (fillHole PFooter (footer config)
        (fillHole PBody (body config)
          (fillHole PSubject (subject config)
            (fillHole PScope (scope config)
              (fillHole PType (type config)
                (fillHole PIcon (shownIcon isShowEmoji config) segs))))))).

Lemma cleanValue_split v :
  cleanValue v = true -> hasChar "<" v = false /\ hasChar "$" v = false.
Proof.
  unfold cleanValue. intros H. apply andb_true_iff in H as [H1 H2].
  now apply negb_true_iff in H1; apply negb_true_iff in H2.
Qed.

Lemma cleanFields_split isShowEmoji config :
  cleanFields config = true ->
  cleanValue (shownIcon isShowEmoji config) = true /\ cleanValue (type config) = true
  /\ cleanValue (scope config) = true /\ cleanValue (subject config) = true
  /\ cleanValue (body config) = true /\ cleanValue (footer config) = true.
Proof.
  unfold cleanFields. intros H.
  do 5 (apply andb_true_iff in H as [H ?]).
  repeat split; try assumption. unfold shownIcon.
  destruct isShowEmoji; [assumption | reflexivity].
Qed.

Lemma substitute_filled isShowEmoji config segs :
  templateContent config = assemble segs ->
  literalText segs = true ->
  cleanFields config = true ->
  substitute isShowEmoji config = assemble (filled isShowEmoji config segs)
  /\ literalText (filled isShowEmoji config segs) = true
  /\ forall p, holeFree p (filled isShowEmoji config segs) = true.
Proof.
  intros Htpl Hlit Hclean.
  destruct (cleanFields_split isShowEmoji config Hclean)
    as (Hi & Hty & Hsc & Hsu & Hbo & Hfo).
  apply cleanValue_split in Hi as [Hi1 Hi2], Hty as [Hty1 Hty2], Hsc as [Hsc1 Hsc2],
    Hsu as [Hsu1 Hsu2], Hbo as [Hbo1 Hbo2], Hfo as [Hfo1 Hfo2].
  assert (Hsp : hasChar "<" " " = false /\ hasChar "$" " " = false) by (split; reflexivity).
  assert (Hen : hasChar "<" TWO_LF = false /\ hasChar "$" TWO_LF = false)
    by (split; reflexivity).
  destruct Hsp as [Hsp1 Hsp2], Hen as [Hen1 Hen2].
  pose proof (literalText_fill PIcon _ _ Hlit Hi1) as L1.
  pose proof (literalText_fill PType _ _ L1 Hty1) as L2.
  pose proof (literalText_fill PScope _ _ L2 Hsc1) as L3.
  pose proof (literalText_fill PSubject _ _ L3 Hsu1) as L4.
  pose proof (literalText_fill PBody _ _ L4 Hbo1) as L5.
  pose proof (literalText_fill PFooter _ _ L5 Hfo1) as L6.
  pose proof (literalText_fill PEnter _ _ L6 Hen1) as L7.
  pose proof (literalText_fill PSpace _ _ L7 Hsp1) as L8.
  split; [| split].
  - rewrite substitute_chain, Htpl.
    rewrite (replaceAll_fill PIcon _ _ Hlit Hi2).
    rewrite (replaceAll_fill PType _ _ L1 Hty2).
    rewrite (replaceAll_fill PScope _ _ L2 Hsc2).
    rewrite (replaceAll_fill PSubject _ _ L3 Hsu2).
    rewrite (replaceAll_fill PBody _ _ L4 Hbo2).
    rewrite (replaceAll_fill PFooter _ _ L5 Hfo2).
    rewrite (replaceAll_fill PEnter _ _ L6 Hen2).
    rewrite (replaceAll_fill PSpace _ _ L7 Hsp2).
    reflexivity.
  - exact L8.
  - intros p. unfold filled.
    destruct p;
      repeat first [ apply holeFree_fill_same | apply holeFree_fill_other ].
Qed.

(** Rendering such a template with such values leaves no [<]. *)
Lemma substitute_clean isShowEmoji config segs :
  templateContent config = assemble segs ->
  literalText segs = true ->
  cleanFields config = true ->
  hasChar "<" (substitute isShowEmoji config) = false.
Proof.
  intros Htpl Hlit Hclean.
  destruct (substitute_filled isShowEmoji _ _ Htpl Hlit Hclean) as (E & L & F).
  rewrite E. now apply assemble_without_holes.
Qed.

Lemma messageCombine_clean isShowEmoji autoVersion versionInfo config segs :
  templateContent config = assemble segs ->
  literalText segs = true ->
  cleanFields config = true ->
  (autoVersion = true -> hasChar "<" versionInfo = false) ->
  hasChar "<" (messageCombine isShowEmoji autoVersion versionInfo config) = false.
Proof.
  intros Htpl Hlit Hclean Hver.
  pose proof (substitute_clean isShowEmoji _ _ Htpl Hlit Hclean) as Hs.
  unfold messageCombine. cbv zeta.
  destruct (hasChar "<" (trim _)) eqn:E; [| reflexivity].
  apply hasChar_trim in E.
  destruct autoVersion; [| congruence].
  destruct (truthy versionInfo); [| congruence].
  rewrite !hasChar_app, Hs, (Hver eq_refl) in E. discriminate.
Qed.

Lemma no_placeholder_without_lt s :
  hasChar "<" s = false -> forall t, In t placeholders -> includes s t = false.
Proof.
  intros H t Ht. destruct (includes s t) eqn:E; [| reflexivity].
  unfold placeholders in Ht. cbn [In] in Ht.
  repeat (destruct Ht as [Ht | Ht];
          [subst t; apply includes_hasChar in E; congruence |]).
  contradiction.
Qed.

(** ** Replacements that cannot rebuild what they remove

    [apart a b]: no character of [a] occurs in [b].  When the
    replacement text is apart from a text [t], an occurrence of [t] in
    the result of a replacement cannot touch an inserted character, so
    it lies in a stretch that was copied from the subject. *)
Fixpoint apart (a b : string) : bool :=
  match a with
  | EmptyString => true
  | String c r => negb (hasChar c b) && apart r b
  end.

Lemma apart_tail repl a q : apart repl (String a q) = true -> apart repl q = true.
Proof.
  induction repl as [| c r IH]; intros H; [reflexivity |].
  cbn [apart hasChar] in *. apply andb_true_iff in H as [Hc Hr].
  apply negb_true_iff, orb_false_iff in Hc as [_ Hc].
  rewrite Hc. cbn [negb andb]. now apply IH.
Qed.

(** A text does not start where an inserted character stands. *)
Lemma prefix_apart c r a q x :
  apart (String c r) (String a q) = true ->
  String.prefix (String a q) (String c r ++ x) = false.
Proof.
  intros H. cbn [apart hasChar] in H. apply andb_true_iff in H as [Hc _].
  apply negb_true_iff, orb_false_iff in Hc as [Hc _].
  change (String c r ++ x) with (String c (r ++ x)).
  now rewrite prefix_cons, Hc.
Qed.

Lemma includes_past repl t x :
  apart repl t = true -> t <> EmptyString ->
  includes (repl ++ x) t = includes x t.
Proof.
  intros Hap Hne. destruct t as [| a q]; [congruence |]. clear Hne.
  induction repl as [| c r IH]; [reflexivity |].
  change (String c r ++ x) with (String c (r ++ x)). cbn [includes].
  rewrite (prefix_apart c r a q x Hap : String.prefix _ (String c (r ++ x)) = false).
  cbn [orb]. apply IH.
  cbn [apart] in Hap. now apply andb_true_iff in Hap as [_ Hap].
Qed.

(** What the result of a replacement starts with, when it holds no
    inserted character, the subject starts with. *)
Lemma prefix_copied pat repl whole q :
  apart repl q = true -> repl <> EmptyString -> hasChar "$" repl = false ->
  forall s pos,
    String.prefix q (replaceFrom pat repl whole s pos 0) = true ->
    String.prefix q s = true.
Proof.
  intros Hap Hne Hplain. induction q as [| a q IH]; intros s pos H.
  - apply prefix_nil.
  - destruct s as [| c r]; [discriminate |].
    cbn [replaceFrom] in H. destruct (String.prefix pat (String c r)).
    + rewrite getSubstitution_plain in H by exact Hplain.
      destruct repl as [| c0 r0]; [congruence |].
      now rewrite (prefix_apart c0 r0 a q _ Hap) in H.
    + rewrite prefix_cons in *. apply andb_true_iff in H as [Hc Hq].
      rewrite Hc. cbn [andb]. apply (IH (apart_tail _ _ _ Hap) r (S pos) Hq).
Qed.

(** A replacement does not create a text its replacement is apart
    from. *)
Lemma replaceFrom_creates_nothing pat repl whole t :
  apart repl t = true -> t <> EmptyString ->
  repl <> EmptyString -> hasChar "$" repl = false ->
  forall s pos skip,
    includes (replaceFrom pat repl whole s pos skip) t = true ->
    includes s t = true.
Proof.
  intros Hap Ht Hne Hplain. induction s as [| c r IH]; intros pos skip H.
  - exact H.
  - cbn [includes]. apply orb_true_iff.
    destruct skip as [| k].
    + destruct (String.prefix pat (String c r)) eqn:Hm.
      * cbn [replaceFrom] in H. rewrite Hm in H.
        rewrite getSubstitution_plain in H by exact Hplain.
        rewrite (includes_past _ _ _ Hap Ht) in H. right. exact (IH _ _ H).
      * assert (Hout : replaceFrom pat repl whole (String c r) pos 0
                       = String c (replaceFrom pat repl whole r (S pos) 0))
          by (cbn [replaceFrom]; now rewrite Hm).
        rewrite Hout in H. cbn [includes] in H. apply orb_true_iff in H as [H | H].
        -- left. rewrite <- Hout in H.
           exact (prefix_copied pat repl whole t Hap Hne Hplain _ _ H).
        -- right. exact (IH _ _ H).
    + cbn [replaceFrom] in H. right. exact (IH _ _ H).
Qed.

(** A replacement removes every occurrence of its pattern, when the
    replacement text is apart from the pattern. *)
Lemma replaceFrom_removes pat repl whole :
  apart repl pat = true -> pat <> EmptyString ->
  repl <> EmptyString -> hasChar "$" repl = false ->
  forall s pos skip,
    includes (replaceFrom pat repl whole s pos skip) pat = false.
Proof.
  intros Hap Hpat Hne Hplain. induction s as [| c r IH]; intros pos skip.
  - destruct pat; [congruence | reflexivity].
  - destruct skip as [| k]; [| exact (IH _ _)].
    destruct (String.prefix pat (String c r)) eqn:Hm.
    + cbn [replaceFrom]. rewrite Hm.
      rewrite getSubstitution_plain by exact Hplain.
      rewrite (includes_past _ _ _ Hap Hpat). apply IH.
    + assert (Hout : replaceFrom pat repl whole (String c r) pos 0
                     = String c (replaceFrom pat repl whole r (S pos) 0))
        by (cbn [replaceFrom]; now rewrite Hm).
      rewrite Hout. cbn [includes]. rewrite IH, orb_false_r. rewrite <- Hout.
      destruct (String.prefix pat (replaceFrom pat repl whole (String c r) pos 0)) eqn:E;
        [| reflexivity].
      rewrite (prefix_copied pat repl whole pat Hap Hne Hplain _ _ E) in Hm.
      discriminate.
Qed.

(** Whatever the template and the field values are, the two layout
    tokens are gone after the substitution. *)
Lemma substitute_layout isShowEmoji config :
  includes (substitute isShowEmoji config) "<enter>" = false
  /\ includes (substitute isShowEmoji config) "<space>" = false.
Proof.
  rewrite substitute_chain. cbn [token]. unfold replaceAll at 1 2.
  set (inner := replaceAll "<footer>" _ _).
  split.
  - destruct (includes (replaceFrom "<space>" " " _ _ 0 0) "<enter>") eqn:E; [| reflexivity].
    apply (replaceFrom_creates_nothing "<space>" " ") in E;
      [| reflexivity | discriminate | discriminate | reflexivity].
    unfold replaceAll in E.
    rewrite (replaceFrom_removes "<enter>" TWO_LF) in E;
      [discriminate | reflexivity | discriminate | discriminate | reflexivity].
  - apply replaceFrom_removes; [reflexivity | discriminate | discriminate | reflexivity].
Qed.

End RendererFacts.


(* ================================================================== *)
(** * Facts about the configuration and version services *)
(* ================================================================== *)

Module ConfigServiceFacts.
Import JsString JsStringFacts ConfigService.

Section WithHost.
Context {host : Host}.

(** The loop of [findProjectRoot] ends within the fuel it is given,
    and more fuel gives the same answer. *)
Lemma findRootLoop_total p :
  exists r, forall fuel,
      String.length p + 2 <= fuel -> findRootLoop fuel p = Some r.
Proof.
  remember (String.length p) as n eqn:En. revert p En.
  induction n as [n IH] using lt_wf_ind. intros p En.
  destruct (String.eqb_spec p (dirname p)) as [Hfix | Hmove].
  - exists None. intros [| k] Hk; [lia |]. cbn [findRootLoop].
    rewrite <- Hfix, String.eqb_refl. reflexivity.
  - apply String.eqb_neq in Hmove.
    destruct (existsSync (join p CONFIG_FILE_NAME)) eqn:Hex.
    + exists (Some p). intros [| k] Hk; [lia |]. cbn [findRootLoop].
      now rewrite Hmove, Hex.
    + destruct (dirname_descends p) as [Heq | [Hlt | Hpar]].
      * apply String.eqb_neq in Hmove. congruence.
      * destruct (IH (String.length (dirname p)) ltac:(lia) (dirname p) eq_refl)
          as [r Hr].
        exists r. intros [| k] Hk; [lia |]. cbn [findRootLoop].
        rewrite Hmove, Hex. apply Hr. lia.
      * exists None. intros [| k] Hk; [lia |]. cbn [findRootLoop].
        rewrite Hmove, Hex. destruct k as [| k]; [lia |]. cbn [findRootLoop].
        now rewrite Hpar, String.eqb_refl.
Qed.


(** What [getProjectVersion] returns is never the empty string. *)
Lemma getProjectVersion_truthy startPath name v :
  getProjectVersion startPath name = Some v -> truthy v = true.
Proof.
  unfold getProjectVersion. intros H.
  destruct (findProjectRoot startPath) as [root |]; [| discriminate].
  destruct (negb (truthy root)); [discriminate |].
  destruct (getProjectConfig root name) as [config |]; [| discriminate].
  destruct (truthy (path config) && truthy (versionRegex config)); [| discriminate].
  destruct (readVersionFromFile root (path config) (versionRegex config)) as [w |];
    [| discriminate].
  destruct (truthy w) eqn:E; [| discriminate]. now injection H as <-.
Qed.

(** Without a project name, a multi-project configuration gives its
    first entry. *)
Lemma getProjectConfig_first configFileRoot configFile first others name :
  readConfig configFileRoot = Some configFile ->
  cf_config configFile = ConfigArray (first :: others) ->
  truthyOpt name = false ->
  getProjectConfig configFileRoot name = Some first.
Proof.
  intros Hread Hcfg Hname. unfold getProjectConfig.
  now rewrite Hread, Hcfg, Hname.
Qed.

(** The version a project record leads to: the third step of
    [getProjectVersion]. *)
Definition extracted (configFileRoot : string) (config : GitCommitProjectConfig)
  : option string :=
  if truthy (path config) && truthy (versionRegex config)
  then match readVersionFromFile configFileRoot (path config) (versionRegex config) with
       | Some version => if truthy version then Some version else None
       | None => None
       end
  else None.

Lemma getProjectVersion_extracted startPath name configFileRoot config :
  findProjectRoot startPath = Some configFileRoot ->
  truthy configFileRoot = true ->
  getProjectConfig configFileRoot name = Some config ->
  getProjectVersion startPath name = extracted configFileRoot config.
Proof.
  intros Hroot Htruthy Hconfig. unfold getProjectVersion, extracted.
  now rewrite Hroot, Htruthy, Hconfig.
Qed.

(** Naming the first project of a multi-project configuration selects
    it, as naming no project does. *)
Lemma getProjectConfig_first_named configFileRoot configFile first others :
  readConfig configFileRoot = Some configFile ->
  cf_config configFile = ConfigArray (first :: others) ->
  getProjectConfig configFileRoot (Some (projectName first)) = Some first.
Proof.
  intros Hread Hcfg. unfold getProjectConfig. rewrite Hread, Hcfg.
  destruct (truthyOpt (Some (projectName first))); [| reflexivity].
  unfold findProject. cbn [find]. now rewrite String.eqb_refl.
Qed.

End WithHost.
End ConfigServiceFacts.

Module VersionProperties.
Import JsString JsStringFacts ConfigService ConfigServiceFacts VersionService Fixture.

(** ** The version configuration of several projects (C1) *)

(** C1, refuted as stated: in a monorepo whose [.gitcommit] lists the
    projects [Insurance.Api] and [Insurance.Web], resolving a version
    for a file of the second project without a project name does not
    return [null] from the configuration step.  It returns the version
    of the first project, [1.2.3], and [getCurrentVersion] returns that
    version although the commit carries the tag [v2.0.0]. *)
Lemma multi_project_guess_counterexample :
  @getProjectVersion (hostOf (monorepo tagged)) "/repo/web/index.ts" None = Some "1.2.3"
  /\ @getProjectVersion (hostOf (monorepo tagged)) "/repo/web/index.ts" None <> None
  /\ @getCurrentVersion (hostOf (monorepo tagged)) "/repo" (Some "/repo/web/index.ts") None
     = Fulfilled "1.2.3".
Proof.
  split; [| split].
  - vm_compute. reflexivity.
  - vm_compute. discriminate.
  - vm_compute. reflexivity.
Qed.

(** C1, as amended: for a multi-project configuration (a [config]
    array with at least one project) and no project name, the
    configuration step selects the first project of the array:
    [getProjectConfig] returns it, [getProjectVersion] returns the
    version extracted from its file, which is what naming that project
    returns, and [getCurrentVersion] returns that version whenever
    there is one.  The rule that an unselected project gives no version
    is enforced by [getVersionInfo], which returns the empty string. *)
Theorem multi_project_without_name_takes_first
        (host : Host) (projectRoot startPath configFileRoot : string)
        (configFile : GitCommitConfigFile)
        (first : GitCommitProjectConfig) (others : list GitCommitProjectConfig) :
  truthy startPath = true ->
  findProjectRoot startPath = Some configFileRoot ->
  truthy configFileRoot = true ->
  readConfig configFileRoot = Some configFile ->
  cf_config configFile = ConfigArray (first :: others) ->
  getProjectConfig configFileRoot None = Some first
  /\ getProjectVersion startPath None = extracted configFileRoot first
  /\ getProjectVersion startPath None
     = getProjectVersion startPath (Some (projectName first))
  /\ (forall v, getProjectVersion startPath None = Some v ->
                getCurrentVersion projectRoot (Some startPath) None = Fulfilled v)
  /\ getVersionInfo projectRoot (Some startPath) None = "".
Proof.
  intros Hstart Hroot Htruthy Hread Hcfg.
  assert (Hfirst : getProjectConfig configFileRoot None = Some first)
    by (now apply (getProjectConfig_first configFileRoot configFile first others)).
  assert (Hversion : getProjectVersion startPath None = extracted configFileRoot first)
    by (now apply getProjectVersion_extracted).
  repeat split.
  - exact Hfirst.
  - exact Hversion.
  - rewrite Hversion. symmetry. apply getProjectVersion_extracted; try assumption.
    now apply (getProjectConfig_first_named configFileRoot configFile first others).
  - intros v Hv. unfold getCurrentVersion. rewrite Hstart, Hv.
    now rewrite (getProjectVersion_truthy _ _ _ Hv).
  - unfold getVersionInfo, multiProjectWithoutChoice.
    now rewrite Hstart, Hroot, Htruthy, Hread, Hcfg.
Qed.

(** The monorepo of the counterexample meets the hypotheses. *)
Lemma multi_project_without_name_takes_first_witness :
  @getProjectConfig (hostOf (monorepo tagged)) "/repo" None = Some api
  /\ @getProjectVersion (hostOf (monorepo tagged)) "/repo/web/index.ts" None
     = @extracted (hostOf (monorepo tagged)) "/repo" api
  /\ @getProjectVersion (hostOf (monorepo tagged)) "/repo/web/index.ts" None
     = @getProjectVersion (hostOf (monorepo tagged)) "/repo/web/index.ts"
                          (Some (projectName api))
  /\ (forall v,
         @getProjectVersion (hostOf (monorepo tagged)) "/repo/web/index.ts" None = Some v ->
         @getCurrentVersion (hostOf (monorepo tagged)) "/repo"
                            (Some "/repo/web/index.ts") None = Fulfilled v)
  /\ @getVersionInfo (hostOf (monorepo tagged)) "/repo" (Some "/repo/web/index.ts") None
     = "".
Proof.
  apply (multi_project_without_name_takes_first
           (hostOf (monorepo tagged)) "/repo" "/repo/web/index.ts" "/repo"
           multiConfig api [web]); vm_compute; reflexivity.
Defined.

(** ** The order of the sources of a version (C2) *)

(** The first step of [getCurrentVersion]: the version of the project
    configuration, looked for only when a file path is given. *)
Definition configStep {host : Host} (filePath projectName' : option string) : option string :=
  match filePath with
  | Some fp => if truthy fp then getProjectVersion fp projectName' else None
  | None => None
  end.

(** The second step: the tag that [git describe --tags --exact-match
    HEAD] prints, when it prints one. *)
Definition exactTag {host : Host} (projectRoot : string) : option string :=
  match exec "git describe --tags --exact-match HEAD" projectRoot with
  | inl stdout => if truthy (trim stdout) then Some (trim stdout) else None
  | inr _ => None
  end.

(** C2: [getCurrentVersion] takes the first of three sources that
    delivers.  A version from the project configuration file is
    returned whatever the tag is; without one, the tag that exactly
    matches the current commit is returned; without that, the output of
    [git rev-parse --short=8 HEAD], the commit hash cut to eight
    characters. *)
Theorem version_resolution_priority
        (host : Host) (projectRoot : string) (filePath projectName' : option string) :
  (forall v, configStep filePath projectName' = Some v ->
             getCurrentVersion projectRoot filePath projectName' = Fulfilled v)
  /\ (forall t, configStep filePath projectName' = None ->
                exactTag projectRoot = Some t ->
                getCurrentVersion projectRoot filePath projectName' = Fulfilled t)
  /\ (forall h, configStep filePath projectName' = None ->
                exactTag projectRoot = None ->
                exec "git rev-parse --short=8 HEAD" projectRoot = inl h ->
                getCurrentVersion projectRoot filePath projectName' = Fulfilled (trim h)).
Proof.
  unfold configStep, exactTag, getCurrentVersion. repeat split.
  - intros v Hv.
    destruct filePath as [fp |]; [| discriminate].
    destruct (truthy fp); [| discriminate].
    rewrite Hv. now rewrite (getProjectVersion_truthy _ _ _ Hv).
  - intros t Hconfig Htag.
    assert (Hstep : match filePath with
                    | Some fp => if truthy fp then getProjectVersion fp projectName' else None
                    | None => None
                    end = None) by exact Hconfig.
    rewrite Hstep.
    destruct (exec "git describe --tags --exact-match HEAD" projectRoot) as [out | err];
      [| discriminate].
    rewrite trim_idempotent.
    destruct (truthy (trim out)); [| discriminate]. now injection Htag as <-.
  - intros h Hconfig Htag Hhash.
    assert (Hstep : match filePath with
                    | Some fp => if truthy fp then getProjectVersion fp projectName' else None
                    | None => None
                    end = None) by exact Hconfig.
    rewrite Hstep, Hhash.
    destruct (exec "git describe --tags --exact-match HEAD" projectRoot) as [out | err].
    + rewrite trim_idempotent. destruct (truthy (trim out)); [discriminate | reflexivity].
    + reflexivity.
Qed.

(** The three sources at work: a configured project on a tagged commit
    (the configuration wins), a tagged commit without configuration,
    and an untagged commit without configuration. *)
Lemma version_resolution_priority_witness :
  @getCurrentVersion (hostOf (singleRepo packageJsonPattern (packageJson "1.2.3") tagged))
                     "/app" (Some "/app/src/main.ts") None = Fulfilled "1.2.3"
  /\ @getCurrentVersion (hostOf (bareRepo tagged)) "/bare" (Some "/bare/main.ts") None
     = Fulfilled "v2.0.0"
  /\ @getCurrentVersion (hostOf (bareRepo untagged)) "/bare" (Some "/bare/main.ts") None
     = Fulfilled "0a1b2c3d".
Proof.
  split; [| split].
  - apply (proj1 (version_resolution_priority
                    (hostOf (singleRepo packageJsonPattern (packageJson "1.2.3") tagged))
                    "/app" (Some "/app/src/main.ts") None)).
    vm_compute. reflexivity.
  - apply (proj1 (proj2 (version_resolution_priority
                           (hostOf (bareRepo tagged)) "/bare" (Some "/bare/main.ts") None)));
      vm_compute; reflexivity.
  - change (Fulfilled "0a1b2c3d")
      with (Fulfilled (trim ("0a1b2c3d" ++ LF))).
    apply (proj2 (proj2 (version_resolution_priority
                           (hostOf (bareRepo untagged)) "/bare" (Some "/bare/main.ts") None)));
      vm_compute; reflexivity.
Defined.

(** ** Extracting the version from the target file (C7) *)

(** A pattern whose group may match nothing. *)
Definition lenientPattern : string :=
  quoted "version" ++ "\s*:\s*" ++ quoted "([\d.]*)".

(** C7: the example of the specification holds, and the rule it comes
    with fails for an empty capture.  With [packageJsonPattern], whose
    group asks for one or more digits and dots, and a file whose
    version is [1.2.3], the result is [1.2.3].  With [lenientPattern],
    whose group accepts none, and a file whose version is the empty
    string, the first group is present and holds the empty string, and
    the code returns the whole match (the key, the colon and the empty
    string literal) instead of it. *)
Theorem empty_capture_returns_whole_match :
  @readVersionFromFile
     (hostOf (singleRepo packageJsonPattern (packageJson "1.2.3") tagged))
     "/app" "package.json" packageJsonPattern = Some "1.2.3"
  /\ RegExp.regExpMatch lenientPattern (packageJson "")
     = MatchArray (quoted "version" ++ ": " ++ quoted "") [Some ""]
  /\ @readVersionFromFile
       (hostOf (singleRepo lenientPattern (packageJson "") tagged))
       "/app" "package.json" lenientPattern
     = Some (quoted "version" ++ ": " ++ quoted "")
  /\ @getProjectVersion
       (hostOf (singleRepo lenientPattern (packageJson "") tagged))
       "/app/src/main.ts" None
     = Some (quoted "version" ++ ": " ++ quoted "").
Proof. repeat split; vm_compute; reflexivity. Qed.


(** X2: the upward search of [findProjectRoot] ends: for every start
    path there is one answer that every sufficient number of loop
    iterations gives, and the number the model allows is sufficient. *)
Theorem findProjectRoot_search_ends (host : Host) (currentPath : string) :
  exists answer,
    (forall fuel, String.length currentPath + 2 <= fuel ->
                  findRootLoop fuel currentPath = Some answer)
    /\ findRootLoop (2 + String.length currentPath) currentPath = Some answer.
Proof.
  destruct (findRootLoop_total currentPath) as [answer H].
  exists answer. split; [exact H |]. apply H. lia.
Qed.

End VersionProperties.

Module RendererProperties.
Import JsString JsStringFacts Renderer RendererFacts.

(** A commit about the template syntax itself. *)
Definition iconNote : GitCommitMessage :=
  {| templateName := "Angular"; templateContent := angularTemplate;
     icon := "*"; type := "docs"; scope := "readme";
     subject := "explain the <icon> placeholder"; body := ""; footer := "" |}.

(** An everyday commit. *)
Definition loginFix : GitCommitMessage :=
  {| templateName := "Angular"; templateContent := angularTemplate;
     icon := "*"; type := "fix"; scope := "login";
     subject := "reject empty passwords"; body := "The form accepted them.";
     footer := "Closes #12" |}.

(** ** No placeholder is left in the message (C4) *)

(** A template in which a token appears once the inner one is removed,
    and a commit whose type is the replacement pattern for the matched
    text. *)
Definition nested : GitCommitMessage :=
  {| templateName := "Nested"; templateContent := "<ic<type>on> <subject>";
     icon := "*"; type := ""; scope := ""; subject := "tidy"; body := ""; footer := "" |}.

Definition dollar : GitCommitMessage :=
  {| templateName := "Angular"; templateContent := angularTemplate;
     icon := "*"; type := "$&"; scope := "core"; subject := "tidy"; body := "";
     footer := "" |}.

(** C4, refuted as stated: with the default template and the subject
    [explain the <icon> placeholder], the rendered message is
    [* docs(readme): explain the <icon> placeholder], which contains the
    token [<icon>]: the icon is substituted before the subject is
    inserted.  A token also survives when the template forms it only
    after an inner token is removed, and when a field value is [$&],
    which the replacement expands to the matched token. *)
Lemma placeholder_survives_counterexample :
  (messageCombine true false "" iconNote
   = "* docs(readme): explain the <icon> placeholder"
   /\ In "<icon>" placeholders
   /\ includes (messageCombine true false "" iconNote) "<icon>" = true)
  /\ messageCombine true false "" nested = "<icon> tidy"
  /\ messageCombine true false "" dollar = "* <type>(core): tidy".
Proof. repeat split; vm_compute; auto. Qed.

(** C4, as amended: when the template consists of placeholders and of
    literal text without [<], and no field value holds [<] or [$] (and
    the version information appended under [autoVersion] holds no [<]),
    the rendered message contains none of the eight placeholder tokens;
    indeed it contains no [<]. *)
Theorem render_leaves_no_placeholder
        (isShowEmoji autoVersion : bool) (versionInfo : string)
        (config : GitCommitMessage) (segs : list Segment) :
  templateContent config = assemble segs ->
  literalText segs = true ->
  cleanFields config = true ->
  (autoVersion = true -> hasChar "<" versionInfo = false) ->
  hasChar "<" (messageCombine isShowEmoji autoVersion versionInfo config) = false
  /\ forall t, In t placeholders ->
                includes (messageCombine isShowEmoji autoVersion versionInfo config) t = false.
Proof.
  intros Htpl Hlit Hclean Hver.
  pose proof (messageCombine_clean isShowEmoji autoVersion versionInfo config segs
                                   Htpl Hlit Hclean Hver) as H.
  split; [exact H |]. now apply no_placeholder_without_lt.
Qed.

(** The default template and an everyday commit meet the hypotheses. *)
Lemma render_leaves_no_placeholder_witness :
  hasChar "<" (messageCombine true false "" loginFix) = false
  /\ forall t, In t placeholders ->
                includes (messageCombine true false "" loginFix) t = false.
Proof.
  apply (render_leaves_no_placeholder true false "" loginFix angularSegments);
    [reflexivity | reflexivity | reflexivity | discriminate].
Defined.

(** X4: for every template and every set of field values, the rendered
    message holds neither [<enter>] nor [<space>] when no version
    information is appended.  These two tokens are replaced last, by
    line feeds and a blank, which cannot form either of them again; the
    six field tokens have no such guarantee, as the counterexample
    shows. *)
Theorem layout_tokens_always_vanish
        (isShowEmoji : bool) (versionInfo : string) (config : GitCommitMessage) :
  includes (messageCombine isShowEmoji false versionInfo config) "<enter>" = false
  /\ includes (messageCombine isShowEmoji false versionInfo config) "<space>" = false.
Proof.
  destruct (substitute_layout isShowEmoji config) as [Henter Hspace].
  unfold messageCombine. cbv zeta.
  split.
  - destruct (includes (trim _) "<enter>") eqn:E; [| reflexivity].
    apply includes_trim in E. congruence.
  - destruct (includes (trim _) "<space>") eqn:E; [| reflexivity].
    apply includes_trim in E. congruence.
Qed.

(** ** Rendering the rendered message again (C5) *)

(** C5, refuted as stated: substituting again into the message of the
    counterexample above replaces the [<icon>] of the subject, so the
    text changes. *)
Lemma rerender_changes_counterexample :
  substitute true (withTemplate iconNote (messageCombine true false "" iconNote))
  = "* docs(readme): explain the * placeholder"
  /\ substitute true (withTemplate iconNote (messageCombine true false "" iconNote))
     <> messageCombine true false "" iconNote.
Proof. split; vm_compute; [reflexivity | discriminate]. Qed.

(** C5, as amended: under the hypotheses of the amended C4, substituting
    again into the rendered message leaves it unchanged, and so does
    rendering it again without version information. *)
Theorem render_is_idempotent
        (isShowEmoji autoVersion : bool) (versionInfo : string)
        (config : GitCommitMessage) (segs : list Segment) :
  templateContent config = assemble segs ->
  literalText segs = true ->
  cleanFields config = true ->
  (autoVersion = true -> hasChar "<" versionInfo = false) ->
  let output := messageCombine isShowEmoji autoVersion versionInfo config in
  substitute isShowEmoji (withTemplate config output) = output
  /\ messageCombine isShowEmoji false "" (withTemplate config output) = output.
Proof.
  intros Htpl Hlit Hclean Hver output.
  assert (Hout : hasChar "<" output = false)
    by (now apply (messageCombine_clean isShowEmoji autoVersion versionInfo config segs)).
  assert (Hsub : substitute isShowEmoji (withTemplate config output) = output).
  { rewrite substitute_chain. cbn [withTemplate templateContent].
    repeat rewrite (replaceAll_absent _ _ output Hout). reflexivity. }
  split; [exact Hsub |].
  unfold messageCombine at 1. cbv zeta. rewrite Hsub.
  unfold output, messageCombine. cbv zeta. apply trim_idempotent.
Qed.

Lemma render_is_idempotent_witness :
  substitute true (withTemplate loginFix (messageCombine true false "" loginFix))
  = messageCombine true false "" loginFix
  /\ messageCombine true false "" (withTemplate loginFix (messageCombine true false "" loginFix))
     = messageCombine true false "" loginFix.
Proof.
  apply (render_is_idempotent true false "" loginFix angularSegments);
    [reflexivity | reflexivity | reflexivity | discriminate].
Defined.

End RendererProperties.

(* ================================================================== *)
(** * Facts about the workflow engine *)
(* ================================================================== *)

Module WorkflowFacts.
Import JsString JsStringFacts GitFlowService.

(** The command lines of a list of invocations. *)
Definition commands (evs : list Invocation) : list (list string) := map inv_args evs.

Definition isPull (args : list string) : bool :=
  match args with
  | "pull" :: _ => true
  | _ => false
  end.

(** No invocation failed, except perhaps a [git pull]. *)
Definition onlyPullsFail (evs : list Invocation) : bool :=
  forallb (fun e => succeeded e || isPull (inv_args e)) evs.

(** What [executeGitCommand] returns for an invocation that succeeded. *)
Definition output (e : Invocation) : string :=
  match inv_outcome e with
  | inl stdout => trim stdout
  | inr _ => EmptyString
  end.

(** The same with the fallback of [.catch(() => fallback)]. *)
Definition outputOr (fallback : string) (e : Invocation) : string :=
  match inv_outcome e with
  | inl stdout => trim stdout
  | inr _ => fallback
  end.

Definition configGet (key : string) : list string := ["config"; "--get"; key].

(** The command sequences of the operations, as the specification
    lists them. *)
Definition startScript (source prefix name : string) : list (list string) :=
  [ ["checkout"; source];
    ["pull"; "origin"; source];
    ["checkout"; "-b"; prefix ++ name] ].

Definition finishFeatureScript (develop prefix name : string) (keepBranch : bool)
  : list (list string) :=
  List.app
    [ ["checkout"; develop];
      ["pull"; "origin"; develop];
      ["merge"; "--no-ff"; prefix ++ name] ]
    (if keepBranch then [] else [ ["branch"; "-d"; prefix ++ name] ]).

Definition tagMessageOr (tagMessage : option string) (fallback : string) : string :=
  match tagMessage with
  | Some (String c m) => String c m
  | _ => fallback
  end.

Definition finishTaggedScript (word master develop prefix tagPrefix version : string)
           (keepBranch : bool) (tagMessage : option string) : list (list string) :=
  List.app
    [ ["checkout"; master];
      ["pull"; "origin"; master];
      ["merge"; "--no-ff"; prefix ++ version];
      ["tag"; "-a"; tagPrefix ++ version; "-m";
       tagMessageOr tagMessage (word ++ " " ++ version)];
      ["checkout"; develop];
      ["pull"; "origin"; develop];
      ["merge"; "--no-ff"; prefix ++ version] ]
    (if keepBranch then [] else [ ["branch"; "-d"; prefix ++ version] ]).

(** [performed pre keys values script evs]: the invocations [evs] are
    those of [pre], then the reading of the configuration [keys], which
    gave [values], then the commands of [script], and nothing else. *)
Definition performed (pre : list Invocation) (keys values : list string)
           (script : list (list string)) (evs : list Invocation) : Prop :=
  exists reads steps,
    evs = (pre ++ reads ++ steps)%list
    /\ commands reads = map configGet keys
    /\ forallb succeeded reads = true
    /\ map output reads = values
    /\ commands steps = script.

Section WithWorld.
Context {World : Type} {gitHost : GitHost World}.

(** A run preceded by invocations made before it. *)
Definition prepend {A} (evs : list Invocation) (r : Run World A) : Run World A :=
  {| after := after r; issued := evs ++ issued r; result := result r |}.

(** A run whose rejection gets a prefix: what a [catch] that throws
    again makes of the run of its [try] block. *)
Definition reprefix {A} (prefix : string) (r : Run World A) : Run World A :=
  {| after := after r; issued := issued r;
     result := match result r with
               | Fulfilled a => Fulfilled a
               | Rejected message => Rejected (prefix ++ message)
               end |}.

Definition invocation (args : list string) (cwd : string) (outcome : string + string)
  : Invocation :=
  {| inv_args := args; inv_cwd := cwd; inv_outcome := outcome |}.

Lemma onlyPullsFail_app a b :
  onlyPullsFail (a ++ b)%list = onlyPullsFail a && onlyPullsFail b.
Proof. apply forallb_app. Qed.

Lemma bind_Fulfilled {A B} (m : Flow World A) (k : A -> Flow World B) w a :
  result (m w) = Fulfilled a ->
  bind m k w = prepend (issued (m w)) (k a (after (m w))).
Proof. intros H. unfold bind. cbv zeta. now rewrite H. Qed.


(** A command whose failure ends the operation. *)
Lemma bind_exec {B} args cwd (k : string -> Flow World B) w :
  bind (executeGitCommand args cwd) k w =
  match execFile args cwd w with
  | (w', inl stdout) =>
      prepend [invocation args cwd (inl stdout)] (k (trim stdout) w')
  | (w', inr message) =>
      {| after := w'; issued := [invocation args cwd (inr message)];
         result := Rejected ("Git 命令执行失败: " ++ message) |}
  end.
Proof.
  unfold bind, executeGitCommand, runGit, prepend, invocation. cbn.
  destruct (execFile args cwd w) as [w' [stdout | message]]; reflexivity.
Qed.

(** A command whose failure is ignored. *)
Lemma bind_ignored {B} args cwd (k : unit -> Flow World B) w :
  bind (ignoreFailure (executeGitCommand args cwd)) k w =
  prepend [invocation args cwd (snd (execFile args cwd w))]
          (k tt (fst (execFile args cwd w))).
Proof. reflexivity. Qed.

(** A command whose failure is replaced by a value. *)
Lemma bind_defaulted {B} args cwd fallback (k : string -> Flow World B) w :
  bind (orDefault (executeGitCommand args cwd) fallback) k w =
  prepend [invocation args cwd (snd (execFile args cwd w))]
          (k (outputOr fallback (invocation args cwd (snd (execFile args cwd w))))
             (fst (execFile args cwd w))).
Proof.
  unfold bind, orDefault, executeGitCommand, runGit, prepend, invocation, outputOr. cbn.
  destruct (snd (execFile args cwd w)); reflexivity.
Qed.

Lemma rethrow_run {A} prefix (m : Flow World A) w : rethrow prefix m w = reprefix prefix (m w).
Proof. reflexivity. Qed.

Lemma bind_assoc {A B C} (m : Flow World A) (f : A -> Flow World B)
      (g : B -> Flow World C) w :
  bind (bind m f) g w = bind m (fun a => bind (f a) g) w.
Proof.
  unfold bind. cbv zeta. destruct (result (m w)) as [a | message]; cbn [result after issued].
  - destruct (result (f a (after (m w)))) as [b | message]; cbn [result after issued].
    + now rewrite app_assoc.
    + reflexivity.
  - reflexivity.
Qed.

(** The invocations of a run that went through [prepend]. *)
Lemma issued_prepend {A} evs (r : Run World A) : issued (prepend evs r) = (evs ++ issued r)%list.
Proof. reflexivity. Qed.

Lemma result_prepend {A} evs (r : Run World A) : result (prepend evs r) = result r.
Proof. reflexivity. Qed.

Lemma after_prepend {A} evs (r : Run World A) : after (prepend evs r) = after r.
Proof. reflexivity. Qed.

Lemma issued_reprefix {A} prefix (r : Run World A) : issued (reprefix prefix r) = issued r.
Proof. reflexivity. Qed.

(** A failed invocation that is not a pull contradicts [onlyPullsFail]. *)
Lemma onlyPullsFail_failed before args cwd message rest :
  isPull args = false ->
  onlyPullsFail (before ++ invocation args cwd (inr message) :: rest)%list = false.
Proof.
  intros H. rewrite onlyPullsFail_app. cbn [onlyPullsFail forallb].
  unfold succeeded. cbn [inv_outcome inv_args invocation]. rewrite H.
  cbn [orb andb]. apply andb_false_r.
Qed.

End WithWorld.

(** Running an operation symbolically: [Hrun] equates the run with the
    operation applied to a world; [fatal Hrun] takes the next command,
    closes the case in which it fails against the hypothesis that only
    pulls failed, and leaves the case in which it succeeds. *)
Ltac fails_against_hypothesis :=
  intros Hok; exfalso; revert Hok;
  cbv [prepend reprefix issued result after];
  repeat rewrite app_assoc;
  match goal with
  | |- onlyPullsFail (?before ++ [invocation ?a ?c (inr ?m)])%list = true -> False =>
      rewrite (onlyPullsFail_failed before a c m []) by reflexivity; discriminate
  end.

Tactic Notation "fatal" hyp(Hrun) "as" ident(w') ident(o) :=
  rewrite bind_exec in Hrun;
  match type of Hrun with
  | context [execFile ?a ?c ?w] =>
      destruct (execFile a c w) as [w' [o | o]];
      [ | subst; fails_against_hypothesis ]
  end.

Tactic Notation "ignored" hyp(Hrun) "as" ident(w') ident(o) :=
  rewrite bind_ignored in Hrun;
  match type of Hrun with
  | context [execFile ?a ?c ?w] =>
      destruct (execFile a c w) as [w' o]; cbn [fst snd] in Hrun
  end.

Section Operations.
Context {World : Type} {gitHost : GitHost World}.

(** The repository root is found, by the editor or by [git]. *)
Definition found (w : World) (root : string) : Prop :=
  result (getRepositoryRoot w) = Fulfilled (Some root) /\ truthy root = true.

(** Git Flow is initialized, as [isInitialized] sees it when an
    operation asks. *)
Definition initialized (w : World) : Prop :=
  result (isInitialized (after (getRepositoryRoot w))) = Fulfilled true.

(** What an operation issues before its own commands. *)
Definition lookups (w : World) : list Invocation :=
  (issued (getRepositoryRoot w)
   ++ issued (isInitialized (after (getRepositoryRoot w))))%list.

Ltac close_performed :=
  split; [| split; [| split; [| split]]]; reflexivity.

(** The steps shared by the proofs about [startFeature],
    [startRelease] and [startHotfix], once the operation is unfolded. *)
Ltac start_steps Hrun Hroot Hinit :=
  rewrite (bind_Fulfilled _ _ _ _ Hroot) in Hrun;
  rewrite (bind_Fulfilled _ _ _ _ Hinit) in Hrun; cbn [negb] in Hrun;
  fatal Hrun as w1 o1; fatal Hrun as w2 o2; rewrite rethrow_run in Hrun;
  fatal Hrun as w3 o3; ignored Hrun as w4 o4; fatal Hrun as w5 o5;
  subst; intros _; split; [reflexivity |];
  do 2 eexists; eexists [_; _]; eexists;
  unfold lookups; cbv [prepend reprefix issued];
  rewrite <- !app_assoc;
  close_performed.

Lemma startFeature_run w name root :
  found w root -> initialized w ->
  onlyPullsFail (issued (startFeature name w)) = true ->
  result (startFeature name w) = Fulfilled tt
  /\ exists develop prefix,
      performed (lookups w) ["gitflow.branch.develop"; "gitflow.prefix.feature"]
                [develop; prefix] (startScript develop prefix name)
                (issued (startFeature name w)).
Proof.
  intros [Hroot Htruthy] Hinit. destruct root as [| c r]; [discriminate |].
  remember (startFeature name w) as run eqn:Hrun. unfold startFeature in Hrun.
  start_steps Hrun Hroot Hinit.
Qed.

Lemma startRelease_run w version root :
  found w root -> initialized w ->
  onlyPullsFail (issued (startRelease version w)) = true ->
  result (startRelease version w) = Fulfilled tt
  /\ exists develop prefix,
      performed (lookups w) ["gitflow.branch.develop"; "gitflow.prefix.release"]
                [develop; prefix] (startScript develop prefix version)
                (issued (startRelease version w)).
Proof.
  intros [Hroot Htruthy] Hinit. destruct root as [| c r]; [discriminate |].
  remember (startRelease version w) as run eqn:Hrun. unfold startRelease in Hrun.
  start_steps Hrun Hroot Hinit.
Qed.

Lemma startHotfix_run w version root :
  found w root -> initialized w ->
  onlyPullsFail (issued (startHotfix version w)) = true ->
  result (startHotfix version w) = Fulfilled tt
  /\ exists master prefix,
      performed (lookups w) ["gitflow.branch.master"; "gitflow.prefix.hotfix"]
                [master; prefix] (startScript master prefix version)
                (issued (startHotfix version w)).
Proof.
  intros [Hroot Htruthy] Hinit. destruct root as [| c r]; [discriminate |].
  remember (startHotfix version w) as run eqn:Hrun. unfold startHotfix in Hrun.
  start_steps Hrun Hroot Hinit.
Qed.

Lemma finishFeature_run w name keepBranch root :
  found w root ->
  onlyPullsFail (issued (finishFeature name keepBranch w)) = true ->
  result (finishFeature name keepBranch w) = Fulfilled tt
  /\ exists develop prefix,
      performed (issued (getRepositoryRoot w))
                ["gitflow.branch.develop"; "gitflow.prefix.feature"]
                [develop; prefix] (finishFeatureScript develop prefix name keepBranch)
                (issued (finishFeature name keepBranch w)).
Proof.
  intros [Hroot Htruthy]. destruct root as [| c r]; [discriminate |].
  remember (finishFeature name keepBranch w) as run eqn:Hrun.
  unfold finishFeature in Hrun.
  rewrite (bind_Fulfilled _ _ _ _ Hroot) in Hrun.
  fatal Hrun as w1 o1. fatal Hrun as w2 o2. rewrite rethrow_run in Hrun.
  fatal Hrun as w3 o3. ignored Hrun as w4 o4. fatal Hrun as w5 o5.
  destruct keepBranch; cbn [negb] in Hrun.
  - subst; intros _; split; [reflexivity |].
    do 2 eexists; eexists [_; _]; eexists.
    cbv [prepend reprefix issued ret].
    close_performed.
  - fatal Hrun as w6 o6.
    subst; intros _; split; [reflexivity |].
    do 2 eexists; eexists [_; _]; eexists.
    cbv [prepend reprefix issued ret].
    close_performed.
Qed.

(** The steps shared by the proofs about [finishRelease] and
    [finishHotfix]. *)
Ltac finish_steps Hrun Hroot keepBranch tagMessage :=
  rewrite (bind_Fulfilled _ _ _ _ Hroot) in Hrun;
  fatal Hrun as w1 o1; fatal Hrun as w2 o2; fatal Hrun as w3 o3; fatal Hrun as w4 o4;
  rewrite rethrow_run in Hrun;
  fatal Hrun as w5 o5; ignored Hrun as w6 o6; fatal Hrun as w7 o7; fatal Hrun as w8 o8;
  fatal Hrun as w9 o9; ignored Hrun as w10 o10; fatal Hrun as w11 o11;
  destruct keepBranch; cbn [negb] in Hrun;
  [ | fatal Hrun as w12 o12 ];
  (subst; intros _; split; [reflexivity |];
   destruct tagMessage as [[| ? ?] |];
   do 4 eexists; eexists [_; _; _; _]; eexists;
   cbv [prepend reprefix issued ret];
   close_performed).

Lemma finishRelease_run w version keepBranch tagMessage root :
  found w root ->
  onlyPullsFail (issued (finishRelease version keepBranch tagMessage w)) = true ->
  result (finishRelease version keepBranch tagMessage w) = Fulfilled tt
  /\ exists master develop prefix tagPrefix,
      performed (issued (getRepositoryRoot w))
                ["gitflow.branch.master"; "gitflow.branch.develop";
                 "gitflow.prefix.release"; "gitflow.prefix.versiontag"]
                [master; develop; prefix; tagPrefix]
                (finishTaggedScript "Release" master develop prefix tagPrefix version
                                    keepBranch tagMessage)
                (issued (finishRelease version keepBranch tagMessage w)).
Proof.
  intros [Hroot Htruthy]. destruct root as [| c r]; [discriminate |].
  remember (finishRelease version keepBranch tagMessage w) as run eqn:Hrun.
  unfold finishRelease in Hrun.
  finish_steps Hrun Hroot keepBranch tagMessage.
Qed.

Lemma finishHotfix_run w version keepBranch tagMessage root :
  found w root ->
  onlyPullsFail (issued (finishHotfix version keepBranch tagMessage w)) = true ->
  result (finishHotfix version keepBranch tagMessage w) = Fulfilled tt
  /\ exists master develop prefix tagPrefix,
      performed (issued (getRepositoryRoot w))
                ["gitflow.branch.master"; "gitflow.branch.develop";
                 "gitflow.prefix.hotfix"; "gitflow.prefix.versiontag"]
                [master; develop; prefix; tagPrefix]
                (finishTaggedScript "Hotfix" master develop prefix tagPrefix version
                                    keepBranch tagMessage)
                (issued (finishHotfix version keepBranch tagMessage w)).
Proof.
  intros [Hroot Htruthy]. destruct root as [| c r]; [discriminate |].
  remember (finishHotfix version keepBranch tagMessage w) as run eqn:Hrun.
  unfold finishHotfix in Hrun.
  finish_steps Hrun Hroot keepBranch tagMessage.
Qed.

(** ** Initialization *)

(** The seven settings [init] writes, in its order. *)
Definition configSets (c : GitFlowConfig) : list (list string) :=
  [ ["config"; "gitflow.branch.master"; masterBranch c];
    ["config"; "gitflow.branch.develop"; developBranch c];
    ["config"; "gitflow.prefix.feature"; featurePrefix c];
    ["config"; "gitflow.prefix.release"; releasePrefix c];
    ["config"; "gitflow.prefix.hotfix"; hotfixPrefix c];
    ["config"; "gitflow.prefix.support"; supportPrefix c];
    ["config"; "gitflow.prefix.versiontag"; versionTagPrefix c] ].

(** When no command fails, [init] writes the seven settings, lists the
    branches, and creates the development branch unless its name
    occurs somewhere in the listing. *)
Lemma init_run w config root :
  found w root ->
  onlyPullsFail (issued (init config w)) = true ->
  result (init config w) = Fulfilled (finalConfigOf config)
  /\ exists sets listing creation,
      issued (init config w)
      = (issued (getRepositoryRoot w) ++ sets ++ [listing] ++ creation)%list
      /\ commands sets = configSets (finalConfigOf config)
      /\ inv_args listing = ["branch"; "--list"]
      /\ commands creation
         = if includes (output listing) (developBranch (finalConfigOf config))
           then []
           else [ ["checkout"; "-b"; developBranch (finalConfigOf config)] ].
Proof.
  intros [Hroot Htruthy]. destruct root as [| c r]; [discriminate |].
  remember (init config w) as run eqn:Hrun. unfold init in Hrun.
  rewrite (bind_Fulfilled _ _ _ _ Hroot) in Hrun. rewrite rethrow_run in Hrun.
  fatal Hrun as w1 o1. fatal Hrun as w2 o2. fatal Hrun as w3 o3. fatal Hrun as w4 o4.
  fatal Hrun as w5 o5. fatal Hrun as w6 o6. fatal Hrun as w7 o7. fatal Hrun as w8 o8.
  destruct (includes (trim o8) (developBranch (finalConfigOf config))) eqn:Hinc;
    cbn [negb] in Hrun.
  - rewrite (bind_Fulfilled _ _ _ tt) in Hrun by reflexivity.
    subst. intros _. split; [reflexivity |].
    eexists [_; _; _; _; _; _; _], _, _.
    cbv [prepend reprefix issued ret].
    split; [reflexivity |]. split; [reflexivity |]. split; [reflexivity |].
    cbv [output inv_outcome invocation]. rewrite Hinc. reflexivity.
  - rewrite bind_assoc in Hrun. fatal Hrun as w9 o9.
    rewrite (bind_Fulfilled _ _ _ tt) in Hrun by reflexivity.
    subst. intros _. split; [reflexivity |].
    eexists [_; _; _; _; _; _; _], _, _.
    cbv [prepend reprefix issued ret].
    split; [reflexivity |]. split; [reflexivity |]. split; [reflexivity |].
    cbv [output inv_outcome invocation]. rewrite Hinc. reflexivity.
Qed.

(** ** What is asked before anything is changed *)

(** The two commands that only look: the fallback of
    [getRepositoryRoot] and the test of [isInitialized]. *)
Definition isLookup (e : Invocation) : Prop :=
  inv_args e = ["rev-parse"; "--show-toplevel"]
  \/ inv_args e = configGet "gitflow.branch.master".

Lemma getRepositoryRoot_lookups w : Forall isLookup (issued (getRepositoryRoot w)).
Proof.
  unfold getRepositoryRoot. destruct (vscodeRepositoryRoot w).
  - constructor.
  - cbn [issued runGit]. repeat constructor.
Qed.

Lemma getRepositoryRoot_fulfilled w : exists root, result (getRepositoryRoot w) = Fulfilled root.
Proof.
  unfold getRepositoryRoot. destruct (vscodeRepositoryRoot w) as [root |].
  - now exists (Some root).
  - cbn [result runGit]. destruct (snd (execFile _ _ w)) as [stdout | message].
    + destruct (truthy (trim stdout)); eauto.
    + eauto.
Qed.

Lemma isInitialized_lookups w : Forall isLookup (issued (isInitialized w)).
Proof.
  unfold isInitialized, orDefault. cbn [issued].
  destruct (getRepositoryRoot_fulfilled w) as [root Hroot].
  rewrite (bind_Fulfilled _ _ _ _ Hroot). cbn [issued prepend].
  apply Forall_app. split; [apply getRepositoryRoot_lookups |].
  destruct root as [[| c r] |]; try constructor.
  destruct (negb (gitConfigFileExists (after (getRepositoryRoot w)) (String c r)));
    [constructor |].
  rewrite bind_exec.
  destruct (execFile _ _ (after (getRepositoryRoot w))) as [w' [stdout | message]];
    cbn [issued prepend ret List.app];
    (constructor; [right; reflexivity | constructor]).
Qed.

Lemma lookups_only w : Forall isLookup (lookups w).
Proof.
  apply Forall_app. split; [apply getRepositoryRoot_lookups | apply isInitialized_lookups].
Qed.

(** ** The branch type *)

(** [getCurrentBranchType] asks for the branch and for the four
    prefixes, takes the default of a prefix that cannot be read, and
    answers with [classify]; when the branch cannot be read it answers
    [null]. *)
Lemma getCurrentBranchType_run w root :
  found w root ->
  exists head rest,
    issued (getCurrentBranchType w) = (issued (getRepositoryRoot w) ++ head :: rest)%list
    /\ inv_args head = ["rev-parse"; "--abbrev-ref"; "HEAD"]
    /\ match inv_outcome head with
       | inr _ => rest = [] /\ result (getCurrentBranchType w) = Fulfilled None
       | inl _ =>
           exists f r h s,
             rest = [f; r; h; s]
             /\ commands rest
                = map configGet ["gitflow.prefix.feature"; "gitflow.prefix.release";
                                 "gitflow.prefix.hotfix"; "gitflow.prefix.support"]
             /\ result (getCurrentBranchType w)
                = Fulfilled (classify (output head)
                                      (outputOr "feature/" f) (outputOr "release/" r)
                                      (outputOr "hotfix/" h) (outputOr "support/" s))
       end.
Proof.
  intros [Hroot Htruthy]. destruct root as [| c r]; [discriminate |].
  remember (getCurrentBranchType w) as run eqn:Hrun. unfold getCurrentBranchType in Hrun.
  rewrite (bind_Fulfilled _ _ _ _ Hroot) in Hrun. unfold orDefault at 1 in Hrun.
  rewrite bind_exec in Hrun.
  destruct (execFile ["rev-parse"; "--abbrev-ref"; "HEAD"] (String c r)
                     (after (getRepositoryRoot w))) as [w1 [o1 | o1]].
  - rewrite !bind_defaulted in Hrun. subst run.
    eexists (invocation _ _ (inl o1)), _.
    cbv [prepend issued result ret invocation inv_args inv_outcome].
    split; [reflexivity |]. split; [reflexivity |].
    do 4 eexists. split; [reflexivity |]. split; reflexivity.
  - subst run. eexists (invocation _ _ (inr o1)), _.
    cbv [prepend issued result invocation inv_args inv_outcome].
    split; [reflexivity |]. split; [reflexivity |]. split; reflexivity.
Qed.

End Operations.

End WorkflowFacts.


(* ================================================================== *)
(** * Facts about the model repository *)
(* ================================================================== *)

Module GitModelFacts.
Import JsString GitFlowService WorkflowFacts GitModel.

Lemma lookup_assign_same {A} k (v : A) l : lookup k (assign k v l) = Some v.
Proof.
  induction l as [| [k' w] l IH]; cbn [assign lookup].
  - now rewrite String.eqb_refl.
  - destruct (String.eqb_spec k' k) as [-> | Hne]; cbn [lookup].
    + now rewrite String.eqb_refl.
    + apply String.eqb_neq in Hne. now rewrite Hne.
Qed.

Lemma lookup_assign_other {A} k k' (v : A) l :
  (k =? k')%string = false -> lookup k' (assign k v l) = lookup k' l.
Proof.
  intros Hne. induction l as [| [k0 w] l IH]; cbn [assign lookup].
  - now rewrite Hne.
  - destruct (String.eqb_spec k0 k) as [-> | Hk]; cbn [lookup].
    + now rewrite Hne.
    + now rewrite IH.
Qed.

Lemma lookup_remove_same {A} k (l : list (string * A)) : lookup k (remove k l) = None.
Proof.
  induction l as [| [k' w] l IH]; [reflexivity |]. cbn [remove].
  destruct (String.eqb_spec k' k) as [-> | Hne]; [exact IH |].
  cbn [lookup]. apply String.eqb_neq in Hne. now rewrite Hne.
Qed.

Lemma lookup_remove_other {A} k k' (l : list (string * A)) :
  (k =? k')%string = false -> lookup k' (remove k l) = lookup k' l.
Proof.
  intros Hne. induction l as [| [k0 w] l IH]; [reflexivity |]. cbn [remove lookup].
  destruct (String.eqb_spec k0 k) as [-> | Hk].
  - now rewrite Hne.
  - cbn [lookup]. now rewrite IH.
Qed.

Lemma lookup_added {A} k (v : A) l :
  lookup k l = None -> lookup k (l ++ [(k, v)])%list = Some v.
Proof.
  induction l as [| [k' w] l IH]; cbn [lookup List.app]; intros H.
  - now rewrite String.eqb_refl.
  - destruct (k' =? k)%string; [discriminate | now apply IH].
Qed.

Lemma commitEqb_refl c : commitEqb c c = true.
Proof.
  induction c as [i | p IH i | a IHa b IHb]; cbn [commitEqb].
  - apply Nat.eqb_refl.
  - now rewrite IH, Nat.eqb_refl.
  - now rewrite IHa, IHb.
Qed.

Lemma contains_refl c : contains c c = true.
Proof. destruct c; cbn [contains]; now rewrite commitEqb_refl. Qed.

Lemma contains_merged_second a b : contains (Merged a b) b = true.
Proof. cbn [contains]. rewrite contains_refl. now rewrite !orb_true_r. Qed.

(** [stored r key value]: [git config --get key] prints a line that
    [executeGitCommand] returns as [value]. *)
Definition stored (r : Repository) (key value : string) : Prop :=
  exists raw, lookup key (config r) = Some raw /\ trim (raw ++ LF) = value.

(** The commands on the model, one step of an operation each. *)

Ltac run_git :=
  rewrite bind_exec;
  match goal with
  | |- context [execFile ?a ?c ?r] => change (execFile a c r) with (git a c r)
  end;
  unfold git; cbn [same String.eqb Ascii.eqb Bool.eqb andb].

Lemma configGet_stored {B} r cwd key value (k : string -> Flow Repository B) :
  stored r key value ->
  bind (executeGitCommand ["config"; "--get"; key] cwd) k r
  = prepend [invocation ["config"; "--get"; key] cwd
                        (snd (configGetCommand key r))]
            (k value r).
Proof.
  intros [raw [Hraw Htrim]]. run_git.
  unfold configGetCommand. rewrite Hraw. cbn [ok snd]. now rewrite Htrim.
Qed.

Lemma checkout_existing {B} r cwd name c (k : string -> Flow Repository B) :
  lookup name (branches r) = Some c ->
  bind (executeGitCommand ["checkout"; name] cwd) k r
  = prepend [invocation ["checkout"; name] cwd (inl "")] (k "" (withHEAD r name)).
Proof. intros H. run_git. unfold checkout. now rewrite H. Qed.

Lemma pull_without_remote {B} r cwd branch (k : unit -> Flow Repository B) :
  bind (ignoreFailure (executeGitCommand ["pull"; "origin"; branch] cwd)) k r
  = prepend [invocation ["pull"; "origin"; branch] cwd
                        (inr "fatal: 'origin' does not appear to be a git repository")]
            (k tt r).
Proof. reflexivity. Qed.

Lemma merge_creates_commit {B} r cwd name ours theirs (k : string -> Flow Repository B) :
  lookup name (branches r) = Some theirs ->
  tip r = Some ours ->
  contains ours theirs = false ->
  bind (executeGitCommand ["merge"; "--no-ff"; name] cwd) k r
  = prepend [invocation ["merge"; "--no-ff"; name] cwd (inl mergeReport)]
            (k (trim mergeReport)
               (withBranches r (assign (HEAD r) (Merged ours theirs) (branches r)))).
Proof.
  intros Htheirs Hours Hnew. run_git.
  unfold merge. rewrite Htheirs, Hours, Hnew. reflexivity.
Qed.

Lemma tag_new {B} r cwd name message c (k : string -> Flow Repository B) :
  lookup name (tags r) = None ->
  tip r = Some c ->
  bind (executeGitCommand ["tag"; "-a"; name; "-m"; message] cwd) k r
  = prepend [invocation ["tag"; "-a"; name; "-m"; message] cwd (inl "")]
            (k "" (withTags r (tags r ++ [(name, (c, message))])%list)).
Proof. intros Hnone Htip. run_git. unfold tag. now rewrite Hnone, Htip. Qed.

Lemma delete_merged {B} r cwd name ours theirs (k : string -> Flow Repository B) :
  lookup name (branches r) = Some theirs ->
  tip r = Some ours ->
  (name =? HEAD r)%string = false ->
  contains ours theirs = true ->
  bind (executeGitCommand ["branch"; "-d"; name] cwd) k r
  = prepend [invocation ["branch"; "-d"; name] cwd (inl (deleteReport name))]
            (k (trim (deleteReport name)) (withBranches r (remove name (branches r)))).
Proof.
  intros Htheirs Hours Hhead Hmerged. run_git.
  unfold deleteBranch. rewrite Htheirs, Hours, Hhead, Hmerged. reflexivity.
Qed.

(** [finishRelease] on the model: with the four settings stored, the
    three branches in place, the release branch carrying commits that
    neither trunk has, and the tag name free, the operation completes;
    afterwards the stable branch points to a merge commit of its old
    tip and the release tip, the tag points to that commit and carries
    the message, the development branch points to a merge commit of
    its old tip and the release tip, and the release branch is gone. *)
Lemma finishRelease_on_model
      (r : Repository) (version : string) (tagMessage : option string)
      (master develop prefix tagPrefix : string) (mTip dTip rTip : Commit) :
  truthy (toplevel r) = true ->
  stored r "gitflow.branch.master" master ->
  stored r "gitflow.branch.develop" develop ->
  stored r "gitflow.prefix.release" prefix ->
  stored r "gitflow.prefix.versiontag" tagPrefix ->
  lookup master (branches r) = Some mTip ->
  lookup develop (branches r) = Some dTip ->
  lookup (prefix ++ version) (branches r) = Some rTip ->
  (master =? develop)%string = false ->
  (master =? prefix ++ version)%string = false ->
  (develop =? prefix ++ version)%string = false ->
  contains mTip rTip = false ->
  contains dTip rTip = false ->
  lookup (tagPrefix ++ version) (tags r) = None ->
  let run := finishRelease version false tagMessage r in
  result run = Fulfilled tt
  /\ lookup master (branches (after run)) = Some (Merged mTip rTip)
  /\ lookup (tagPrefix ++ version) (tags (after run))
     = Some (Merged mTip rTip, tagMessageOr tagMessage ("Release " ++ version))
  /\ lookup develop (branches (after run)) = Some (Merged dTip rTip)
  /\ lookup (prefix ++ version) (branches (after run)) = None
  /\ HEAD (after run) = develop.
Proof.
  intros Htop Hmaster Hdevelop Hprefix HtagPrefix Hm Hd Hr Hmd Hmr Hdr Hnewm Hnewd Hnotag run.
  assert (Hdm : (develop =? master)%string = false) by (now rewrite String.eqb_sym).
  assert (Hrm : (prefix ++ version =? master)%string = false) by (now rewrite String.eqb_sym).
  assert (Hrd : (prefix ++ version =? develop)%string = false) by (now rewrite String.eqb_sym).
  assert (Hmsg : orElse match tagMessage with Some m => m | None => "" end
                        ("Release " ++ version)
                 = tagMessageOr tagMessage ("Release " ++ version))
    by (now destruct tagMessage as [[| ? ?] |]).
  subst run. unfold finishRelease.
  rewrite (bind_Fulfilled _ _ _ (Some (toplevel r))) by reflexivity.
  destruct (toplevel r) as [| c t] eqn:Etop; [discriminate |].
  change (after (getRepositoryRoot r)) with r.
  rewrite (configGet_stored _ _ _ _ _ Hmaster).
  rewrite (configGet_stored _ _ _ _ _ Hdevelop).
  rewrite (configGet_stored _ _ _ _ _ Hprefix).
  rewrite (configGet_stored _ _ _ _ _ HtagPrefix).
  rewrite rethrow_run.
  rewrite (checkout_existing _ _ _ _ _ Hm).
  rewrite pull_without_remote.
  rewrite (merge_creates_commit (withHEAD r master) _ _ mTip rTip);
    [| exact Hr | exact Hm | exact Hnewm].
  rewrite (tag_new _ _ _ _ (Merged mTip rTip));
    [| exact Hnotag | apply lookup_assign_same].
  rewrite (checkout_existing _ _ _ dTip).
  2:{ cbn [branches withTags withBranches withHEAD HEAD].
      now rewrite lookup_assign_other. }
  rewrite pull_without_remote.
  rewrite (merge_creates_commit _ _ _ dTip rTip); [| | | exact Hnewd].
  2:{ cbn [branches withTags withBranches withHEAD HEAD].
      now rewrite lookup_assign_other. }
  2:{ unfold tip. cbn [branches withTags withBranches withHEAD HEAD].
      now rewrite lookup_assign_other. }
  cbn [negb].
  rewrite (delete_merged _ _ _ (Merged dTip rTip) rTip).
  2:{ cbn [branches withTags withBranches withHEAD HEAD].
      now rewrite !lookup_assign_other. }
  2:{ unfold tip. cbn [branches withTags withBranches withHEAD HEAD].
      apply lookup_assign_same. }
  2:{ exact Hrd. }
  2:{ apply contains_merged_second. }
  cbn [prepend reprefix ret result after branches tags HEAD
       withTags withBranches withHEAD].
  repeat split.
  - rewrite lookup_remove_other by exact Hrm.
    rewrite lookup_assign_other by exact Hdm. apply lookup_assign_same.
  - rewrite <- Hmsg. now apply lookup_added.
  - rewrite lookup_remove_other by exact Hrd. apply lookup_assign_same.
  - apply lookup_remove_same.
Qed.

End GitModelFacts.

(* ================================================================== *)
(** * Properties of the workflow engine *)
(* ================================================================== *)

Module WorkflowProperties.
Import JsString JsStringFacts GitFlowService WorkflowFacts GitModel.

(** ** Branch classification (C6) *)

(** The first role, in the given order, whose prefix starts the branch
    name. *)
Definition firstMatch (branch : string) (prefixes : list (GitFlowBranchType * string))
  : option GitFlowBranchType :=
  option_map fst (find (fun rp => startsWith branch (snd rp)) prefixes).

(** A repository on the branch [main], without workflow settings. *)
Definition onMain : Repository :=
  {| toplevel := "/repo"; config := []; branches := [("main", Initial 0)];
     tags := []; HEAD := "main" |}.

(** C6: the branch type is the first of feature, release, hotfix and
    support whose configured prefix is a prefix of the branch name, and
    none when no prefix matches.  [getCurrentBranchType] reads the
    branch and the four prefixes, falls back on the default of a prefix
    it cannot read, and answers with this classification.  With the
    default prefixes, [feature/login] is a feature branch and [main]
    has no type. *)
Theorem classification_takes_first_prefix :
  (forall branch f r h s,
      classify branch f r h s
      = firstMatch branch [(feature, f); (release, r); (hotfix, h); (support, s)])
  /\ (forall (World : Type) (gitHost : GitHost World) (w : World) (root : string),
         found w root ->
         exists head rest,
           issued (getCurrentBranchType w)
           = (issued (getRepositoryRoot w) ++ head :: rest)%list
           /\ inv_args head = ["rev-parse"; "--abbrev-ref"; "HEAD"]
           /\ match inv_outcome head with
              | inr _ => rest = [] /\ result (getCurrentBranchType w) = Fulfilled None
              | inl _ =>
                  exists f r h s,
                    rest = [f; r; h; s]
                    /\ commands rest
                       = map configGet ["gitflow.prefix.feature"; "gitflow.prefix.release";
                                        "gitflow.prefix.hotfix"; "gitflow.prefix.support"]
                    /\ result (getCurrentBranchType w)
                       = Fulfilled (classify (output head)
                                             (outputOr "feature/" f) (outputOr "release/" r)
                                             (outputOr "hotfix/" h) (outputOr "support/" s))
              end)
  /\ classify "feature/login" "feature/" "release/" "hotfix/" "support/" = Some feature
  /\ classify "main" "feature/" "release/" "hotfix/" "support/" = None
  /\ result (getCurrentBranchType featureReady) = Fulfilled (Some feature)
  /\ result (getCurrentBranchType onMain) = Fulfilled None.
Proof.
  split; [| split; [| repeat split; reflexivity]].
  - intros branch f r h s. unfold classify, firstMatch. cbn [find snd fst option_map].
    destruct (startsWith branch f); [reflexivity |].
    destruct (startsWith branch r); [reflexivity |].
    destruct (startsWith branch h); [reflexivity |].
    destruct (startsWith branch s); reflexivity.
  - intros World gitHost w root Hfound. exact (getCurrentBranchType_run w root Hfound).
Qed.

(** The run of [getCurrentBranchType] on the feature branch of the
    model repository. *)
Lemma classification_takes_first_prefix_witness :
  exists head rest,
    issued (getCurrentBranchType featureReady)
    = (issued (getRepositoryRoot featureReady) ++ head :: rest)%list
    /\ inv_args head = ["rev-parse"; "--abbrev-ref"; "HEAD"]
    /\ match inv_outcome head with
       | inr _ => rest = [] /\ result (getCurrentBranchType featureReady) = Fulfilled None
       | inl _ =>
           exists f r h s,
             rest = [f; r; h; s]
             /\ commands rest
                = map configGet ["gitflow.prefix.feature"; "gitflow.prefix.release";
                                 "gitflow.prefix.hotfix"; "gitflow.prefix.support"]
             /\ result (getCurrentBranchType featureReady)
                = Fulfilled (classify (output head)
                                      (outputOr "feature/" f) (outputOr "release/" r)
                                      (outputOr "hotfix/" h) (outputOr "support/" s))
       end.
Proof.
  apply (proj1 (proj2 classification_takes_first_prefix) Repository host featureReady "/repo").
  split; reflexivity.
Defined.

(** ** The start operations need an initialized workflow (C10) *)

(** C10: when the repository is found and Git Flow is not initialized,
    [startHotfix], like [startFeature] and [startRelease], is rejected
    with the message [Git Flow 未初始化，请先初始化 Git Flow], having
    issued nothing but the commands that look for the repository root
    and for the setting [gitflow.branch.master]: no checkout, no pull
    and no branch creation. *)
Theorem start_requires_initialization
        {World : Type} {gitHost : GitHost World} (w : World) (root name : string) :
  found w root ->
  result (isInitialized (after (getRepositoryRoot w))) = Fulfilled false ->
  (result (startHotfix name w) = Rejected NOT_INITIALIZED
   /\ issued (startHotfix name w) = lookups w)
  /\ (result (startFeature name w) = Rejected NOT_INITIALIZED
      /\ issued (startFeature name w) = lookups w)
  /\ (result (startRelease name w) = Rejected NOT_INITIALIZED
      /\ issued (startRelease name w) = lookups w)
  /\ Forall isLookup (lookups w).
Proof.
  intros [Hroot Htruthy] Hinit. destruct root as [| c r]; [discriminate |].
  repeat split; try apply lookups_only;
    unfold startHotfix, startFeature, startRelease, lookups;
    rewrite (bind_Fulfilled _ _ _ _ Hroot), (bind_Fulfilled _ _ _ _ Hinit);
    cbn [negb throw prepend result issued]; try reflexivity;
    now rewrite app_nil_r.
Qed.

(** A repository that was never initialized meets the hypotheses. *)
Lemma start_requires_initialization_witness :
  (result (startHotfix "1.0.1" fresh) = Rejected NOT_INITIALIZED
   /\ issued (startHotfix "1.0.1" fresh) = lookups fresh)
  /\ (result (startFeature "1.0.1" fresh) = Rejected NOT_INITIALIZED
      /\ issued (startFeature "1.0.1" fresh) = lookups fresh)
  /\ (result (startRelease "1.0.1" fresh) = Rejected NOT_INITIALIZED
      /\ issued (startRelease "1.0.1" fresh) = lookups fresh)
  /\ Forall isLookup (lookups fresh).
Proof.
  apply (start_requires_initialization fresh "/repo" "1.0.1").
  - split; reflexivity.
  - reflexivity.
Defined.

(** ** A failed pull does not stop an operation (C8) *)

(** C8: in each of the six start and finish operations the result of
    [git pull] is ignored.  When the repository is found (and, for the
    start operations, Git Flow is initialized) and no command other
    than a pull fails, the operation is fulfilled and has issued its
    whole command sequence, the commands after the pull included,
    whatever the pull did. *)
Theorem pull_failure_is_not_fatal
        {World : Type} {gitHost : GitHost World} (w : World) (root : string) :
  found w root ->
  (forall name,
      initialized w ->
      onlyPullsFail (issued (startFeature name w)) = true ->
      result (startFeature name w) = Fulfilled tt
      /\ exists develop prefix,
          performed (lookups w) ["gitflow.branch.develop"; "gitflow.prefix.feature"]
                    [develop; prefix] (startScript develop prefix name)
                    (issued (startFeature name w)))
  /\ (forall version,
         initialized w ->
         onlyPullsFail (issued (startRelease version w)) = true ->
         result (startRelease version w) = Fulfilled tt
         /\ exists develop prefix,
             performed (lookups w) ["gitflow.branch.develop"; "gitflow.prefix.release"]
                       [develop; prefix] (startScript develop prefix version)
                       (issued (startRelease version w)))
  /\ (forall version,
         initialized w ->
         onlyPullsFail (issued (startHotfix version w)) = true ->
         result (startHotfix version w) = Fulfilled tt
         /\ exists master prefix,
             performed (lookups w) ["gitflow.branch.master"; "gitflow.prefix.hotfix"]
                       [master; prefix] (startScript master prefix version)
                       (issued (startHotfix version w)))
  /\ (forall name keepBranch,
         onlyPullsFail (issued (finishFeature name keepBranch w)) = true ->
         result (finishFeature name keepBranch w) = Fulfilled tt
         /\ exists develop prefix,
             performed (issued (getRepositoryRoot w))
                       ["gitflow.branch.develop"; "gitflow.prefix.feature"]
                       [develop; prefix]
                       (finishFeatureScript develop prefix name keepBranch)
                       (issued (finishFeature name keepBranch w)))
  /\ (forall version keepBranch tagMessage,
         onlyPullsFail (issued (finishRelease version keepBranch tagMessage w)) = true ->
         result (finishRelease version keepBranch tagMessage w) = Fulfilled tt
         /\ exists master develop prefix tagPrefix,
             performed (issued (getRepositoryRoot w))
                       ["gitflow.branch.master"; "gitflow.branch.develop";
                        "gitflow.prefix.release"; "gitflow.prefix.versiontag"]
                       [master; develop; prefix; tagPrefix]
                       (finishTaggedScript "Release" master develop prefix tagPrefix
                                           version keepBranch tagMessage)
                       (issued (finishRelease version keepBranch tagMessage w)))
  /\ (forall version keepBranch tagMessage,
         onlyPullsFail (issued (finishHotfix version keepBranch tagMessage w)) = true ->
         result (finishHotfix version keepBranch tagMessage w) = Fulfilled tt
         /\ exists master develop prefix tagPrefix,
             performed (issued (getRepositoryRoot w))
                       ["gitflow.branch.master"; "gitflow.branch.develop";
                        "gitflow.prefix.hotfix"; "gitflow.prefix.versiontag"]
                       [master; develop; prefix; tagPrefix]
                       (finishTaggedScript "Hotfix" master develop prefix tagPrefix
                                           version keepBranch tagMessage)
                       (issued (finishHotfix version keepBranch tagMessage w))).
Proof.
  intros Hfound. split; [| split; [| split; [| split; [| split]]]].
  - intros name Hinit Hok. now apply (startFeature_run w name root).
  - intros version Hinit Hok. now apply (startRelease_run w version root).
  - intros version Hinit Hok. now apply (startHotfix_run w version root).
  - intros name keepBranch Hok. now apply (finishFeature_run w name keepBranch root).
  - intros version keepBranch tagMessage Hok.
    now apply (finishRelease_run w version keepBranch tagMessage root).
  - intros version keepBranch tagMessage Hok.
    now apply (finishHotfix_run w version keepBranch tagMessage root).
Qed.

(** [failedPull run]: some pull of the run failed. *)
Definition failedPull {A} (run : Run Repository A) : bool :=
  existsb (fun e => isPull (inv_args e) && negb (succeeded e)) (issued run).

(** The model repository has no remote, so every pull fails there; the
    six operations complete all the same. *)
Lemma pull_failure_is_not_fatal_witness :
  (failedPull (startFeature "login" settled) = true
   /\ result (startFeature "login" settled) = Fulfilled tt)
  /\ (failedPull (startRelease "1.0.0" settled) = true
      /\ result (startRelease "1.0.0" settled) = Fulfilled tt)
  /\ (failedPull (startHotfix "1.0.1" settled) = true
      /\ result (startHotfix "1.0.1" settled) = Fulfilled tt)
  /\ (failedPull (finishFeature "login" false featureReady) = true
      /\ result (finishFeature "login" false featureReady) = Fulfilled tt)
  /\ (failedPull (finishRelease "1.0.0" false None releaseReady) = true
      /\ result (finishRelease "1.0.0" false None releaseReady) = Fulfilled tt)
  /\ (failedPull (finishHotfix "1.0.1" false None hotfixReady) = true
      /\ result (finishHotfix "1.0.1" false None hotfixReady) = Fulfilled tt).
Proof.
  assert (Hfound : forall extra current, found (workingOn extra current) "/repo")
    by (intros; split; reflexivity).
  pose proof (pull_failure_is_not_fatal settled "/repo" (Hfound _ _))
    as (HstartFeature & HstartRelease & HstartHotfix & _).
  pose proof (pull_failure_is_not_fatal featureReady "/repo" (Hfound _ _))
    as (_ & _ & _ & HfinishFeature & _).
  pose proof (pull_failure_is_not_fatal releaseReady "/repo" (Hfound _ _))
    as (_ & _ & _ & _ & HfinishRelease & _).
  pose proof (pull_failure_is_not_fatal hotfixReady "/repo" (Hfound _ _))
    as (_ & _ & _ & _ & _ & HfinishHotfix).
  split; [| split; [| split; [| split; [| split]]]]; (split; [reflexivity |]).
  - exact (proj1 (HstartFeature "login" eq_refl eq_refl)).
  - exact (proj1 (HstartRelease "1.0.0" eq_refl eq_refl)).
  - exact (proj1 (HstartHotfix "1.0.1" eq_refl eq_refl)).
  - exact (proj1 (HfinishFeature "login" false eq_refl)).
  - exact (proj1 (HfinishRelease "1.0.0" false None eq_refl)).
  - exact (proj1 (HfinishHotfix "1.0.1" false None eq_refl)).
Defined.

(** ** The command sequence of [finishRelease] (C3) *)

(** C3: when the repository is found and no command other than a pull
    fails, [finishRelease] is fulfilled and has issued exactly: the
    reading of the four settings, then checkout of the stable branch,
    pull, merge of the release branch without fast-forward, creation of
    the annotated tag [versionTagPrefix ++ version] with the given
    message or [Release version], checkout of the development branch,
    pull, merge of the release branch without fast-forward, and, unless
    the branch is kept, deletion of the release branch.  On the model
    repository, where the release branch carries commits that neither
    trunk has, the stable branch then points to a merge commit of its
    old tip and the release tip, the tag points to that commit, the
    development branch points to a merge commit of its old tip and the
    release tip, and the release branch exists no longer. *)
Theorem finish_release_sequence :
  (forall (World : Type) (gitHost : GitHost World) (w : World)
          (version : string) (keepBranch : bool) (tagMessage : option string)
          (root : string),
      found w root ->
      onlyPullsFail (issued (finishRelease version keepBranch tagMessage w)) = true ->
      result (finishRelease version keepBranch tagMessage w) = Fulfilled tt
      /\ exists master develop prefix tagPrefix,
          performed (issued (getRepositoryRoot w))
                    ["gitflow.branch.master"; "gitflow.branch.develop";
                     "gitflow.prefix.release"; "gitflow.prefix.versiontag"]
                    [master; develop; prefix; tagPrefix]
                    (finishTaggedScript "Release" master develop prefix tagPrefix
                                        version keepBranch tagMessage)
                    (issued (finishRelease version keepBranch tagMessage w)))
  /\ (forall (r : Repository) (version : string) (tagMessage : option string)
             (master develop prefix tagPrefix : string) (mTip dTip rTip : Commit),
         truthy (toplevel r) = true ->
         GitModelFacts.stored r "gitflow.branch.master" master ->
         GitModelFacts.stored r "gitflow.branch.develop" develop ->
         GitModelFacts.stored r "gitflow.prefix.release" prefix ->
         GitModelFacts.stored r "gitflow.prefix.versiontag" tagPrefix ->
         lookup master (branches r) = Some mTip ->
         lookup develop (branches r) = Some dTip ->
         lookup (prefix ++ version) (branches r) = Some rTip ->
         (master =? develop)%string = false ->
         (master =? prefix ++ version)%string = false ->
         (develop =? prefix ++ version)%string = false ->
         contains mTip rTip = false ->
         contains dTip rTip = false ->
         lookup (tagPrefix ++ version) (tags r) = None ->
         result (finishRelease version false tagMessage r) = Fulfilled tt
         /\ lookup master (branches (after (finishRelease version false tagMessage r)))
            = Some (Merged mTip rTip)
         /\ contains (Merged mTip rTip) rTip = true
         /\ lookup (tagPrefix ++ version)
                   (tags (after (finishRelease version false tagMessage r)))
            = Some (Merged mTip rTip, tagMessageOr tagMessage ("Release " ++ version))
         /\ lookup develop (branches (after (finishRelease version false tagMessage r)))
            = Some (Merged dTip rTip)
         /\ contains (Merged dTip rTip) rTip = true
         /\ lookup (prefix ++ version)
                   (branches (after (finishRelease version false tagMessage r)))
            = None).
Proof.
  split.
  - intros World gitHost w version keepBranch tagMessage root Hfound Hok.
    exact (finishRelease_run w version keepBranch tagMessage root Hfound Hok).
  - intros r version tagMessage master develop prefix tagPrefix mTip dTip rTip
           Htop Hmaster Hdevelop Hprefix HtagPrefix Hm Hd Hr Hmd Hmr Hdr Hnewm Hnewd Hnotag.
    destruct (GitModelFacts.finishRelease_on_model
                r version tagMessage master develop prefix tagPrefix mTip dTip rTip
                Htop Hmaster Hdevelop Hprefix HtagPrefix Hm Hd Hr Hmd Hmr Hdr
                Hnewm Hnewd Hnotag)
      as (H1 & H2 & H3 & H4 & H5 & _).
    repeat split; try assumption; apply GitModelFacts.contains_merged_second.
Qed.

(** The example of the specification: [finishRelease("1.0.0", false)]
    on a repository with the branch [release/1.0.0]. *)
Lemma finish_release_sequence_witness :
  commands (issued (finishRelease "1.0.0" false None releaseReady))
  = [ configGet "gitflow.branch.master"; configGet "gitflow.branch.develop";
      configGet "gitflow.prefix.release"; configGet "gitflow.prefix.versiontag";
      ["checkout"; "master"]; ["pull"; "origin"; "master"];
      ["merge"; "--no-ff"; "release/1.0.0"];
      ["tag"; "-a"; "1.0.0"; "-m"; "Release 1.0.0"];
      ["checkout"; "develop"]; ["pull"; "origin"; "develop"];
      ["merge"; "--no-ff"; "release/1.0.0"];
      ["branch"; "-d"; "release/1.0.0"] ]
  /\ (result (finishRelease "1.0.0" false None releaseReady) = Fulfilled tt
      /\ exists master develop prefix tagPrefix,
          performed (issued (getRepositoryRoot releaseReady))
                    ["gitflow.branch.master"; "gitflow.branch.develop";
                     "gitflow.prefix.release"; "gitflow.prefix.versiontag"]
                    [master; develop; prefix; tagPrefix]
                    (finishTaggedScript "Release" master develop prefix tagPrefix
                                        "1.0.0" false None)
                    (issued (finishRelease "1.0.0" false None releaseReady)))
  /\ (result (finishRelease "1.0.0" false None releaseReady) = Fulfilled tt
      /\ lookup "master" (branches (after (finishRelease "1.0.0" false None releaseReady)))
         = Some (Merged (Initial 0) (Change (Change (Initial 0) 1) 2))
      /\ contains (Merged (Initial 0) (Change (Change (Initial 0) 1) 2))
                  (Change (Change (Initial 0) 1) 2) = true
      /\ lookup "1.0.0" (tags (after (finishRelease "1.0.0" false None releaseReady)))
         = Some (Merged (Initial 0) (Change (Change (Initial 0) 1) 2), "Release 1.0.0")
      /\ lookup "develop" (branches (after (finishRelease "1.0.0" false None releaseReady)))
         = Some (Merged (Change (Initial 0) 1) (Change (Change (Initial 0) 1) 2))
      /\ contains (Merged (Change (Initial 0) 1) (Change (Change (Initial 0) 1) 2))
                  (Change (Change (Initial 0) 1) 2) = true
      /\ lookup "release/1.0.0"
                (branches (after (finishRelease "1.0.0" false None releaseReady)))
         = None).
Proof.
  split; [reflexivity |]. split.
  - apply (proj1 finish_release_sequence Repository host releaseReady
                 "1.0.0" false None "/repo"); [split |]; reflexivity.
  - apply (proj2 finish_release_sequence releaseReady "1.0.0" None
                 "master" "develop" "release/" ""
                 (Initial 0) (Change (Initial 0) 1) (Change (Change (Initial 0) 1) 2));
      try reflexivity; eexists; split; reflexivity.
Defined.

(** ** Initialization (C9) *)

(** Settings other than the defaults. *)
Definition mainline : PartialGitFlowConfig :=
  {| p_masterBranch := Some "main"; p_developBranch := Some "next";
     p_featurePrefix := None; p_releasePrefix := None; p_hotfixPrefix := None;
     p_supportPrefix := None; p_versionTagPrefix := Some "v" |}.

(** C9: what [init] does, and where it falls short.  In a repository
    without workflow settings it stores the seven settings and creates
    the development branch from the current commit; initializing again
    with other values overwrites the settings.  In a repository that
    has a branch [develop-old] and no branch [develop], it stores the
    settings and creates nothing: the name [develop] occurs in the
    listing of the branches, which is all the code tests, and the
    development branch is absent afterwards. *)
Theorem init_misses_develop_when_name_occurs :
  (result (init noOverrides fresh) = Fulfilled DEFAULT_CONFIG
   /\ config (after (init noOverrides fresh)) = defaultSettings
   /\ lookup "develop" (branches fresh) = None
   /\ lookup "develop" (branches (after (init noOverrides fresh))) = tip fresh)
  /\ map (fun key => lookup key (config (after (init mainline (after (init noOverrides fresh))))))
         ["gitflow.branch.master"; "gitflow.branch.develop"; "gitflow.prefix.feature";
          "gitflow.prefix.release"; "gitflow.prefix.hotfix"; "gitflow.prefix.support";
          "gitflow.prefix.versiontag"]
     = [Some "main"; Some "next"; Some "feature/"; Some "release/"; Some "hotfix/";
        Some "support/"; Some "v"]
  /\ (result (init noOverrides renamedDevelop) = Fulfilled DEFAULT_CONFIG
      /\ commands (issued (init noOverrides renamedDevelop))
         = (configSets DEFAULT_CONFIG ++ [ ["branch"; "--list"] ])%list
      /\ config (after (init noOverrides renamedDevelop)) = defaultSettings
      /\ lookup "develop" (branches renamedDevelop) = None
      /\ lookup "develop" (branches (after (init noOverrides renamedDevelop))) = None).
Proof. repeat split; reflexivity. Qed.

(** X3: [init] in general.  When the repository is found and no
    command fails, it is fulfilled with the final configuration, having
    written the seven settings and listed the branches; it then creates
    the development branch exactly when the name does not occur in the
    text of the listing. *)
Theorem init_sequence
        {World : Type} {gitHost : GitHost World} (w : World)
        (config : PartialGitFlowConfig) (root : string) :
  found w root ->
  onlyPullsFail (issued (init config w)) = true ->
  result (init config w) = Fulfilled (finalConfigOf config)
  /\ exists sets listing creation,
      issued (init config w)
      = (issued (getRepositoryRoot w) ++ sets ++ [listing] ++ creation)%list
      /\ commands sets = configSets (finalConfigOf config)
      /\ inv_args listing = ["branch"; "--list"]
      /\ commands creation
         = if includes (output listing) (developBranch (finalConfigOf config))
           then []
           else [ ["checkout"; "-b"; developBranch (finalConfigOf config)] ].
Proof. exact (init_run w config root). Qed.

Lemma init_sequence_witness :
  result (init mainline fresh) = Fulfilled (finalConfigOf mainline)
  /\ exists sets listing creation,
      issued (init mainline fresh)
      = (issued (getRepositoryRoot fresh) ++ sets ++ [listing] ++ creation)%list
      /\ commands sets = configSets (finalConfigOf mainline)
      /\ inv_args listing = ["branch"; "--list"]
      /\ commands creation
         = if includes (output listing) (developBranch (finalConfigOf mainline))
           then []
           else [ ["checkout"; "-b"; developBranch (finalConfigOf mainline)] ].
Proof.
  apply (init_sequence fresh mainline "/repo"); [split |]; reflexivity.
Defined.

End WorkflowProperties.

(* ================================================================== *)
(** * More facts about strings *)
(* ================================================================== *)

Module AppendFacts.
Import JsString JsStringFacts.

Lemma append_assoc (a b c : string) : (a ++ b) ++ c = a ++ b ++ c.
Proof. induction a as [| x a IH]; [reflexivity |]. simpl. now rewrite IH. Qed.

Lemma append_nil_r (a : string) : a ++ "" = a.
Proof. induction a as [| x a IH]; [reflexivity |]. simpl. now rewrite IH. Qed.

Lemma prefix_refl a : String.prefix a a = true.
Proof. induction a as [| x a IH]; [reflexivity |]. now rewrite prefix_cons, Ascii.eqb_refl. Qed.

Lemma prefix_own a b : String.prefix a (a ++ b) = true.
Proof. apply prefix_app, prefix_refl. Qed.

(** A text that starts with [p] is [p] and a rest. *)
Lemma prefix_split p s : String.prefix p s = true -> s = p ++ drop (String.length p) s.
Proof.
  revert s. induction p as [| c p IH]; intros s H; [now destruct s |].
  destruct s as [| d s]; [discriminate |].
  rewrite prefix_cons in H. apply andb_true_iff in H as [Hc Hp].
  apply Ascii.eqb_eq in Hc. subst d. simpl. now rewrite <- (IH _ Hp).
Qed.

Lemma length_append (a b : string) :
  String.length (a ++ b) = String.length a + String.length b.
Proof. induction a as [| x a IH]; [reflexivity |]. simpl. now rewrite IH. Qed.

End AppendFacts.

(* ================================================================== *)
(** * More about the configuration file *)
(* ================================================================== *)

Module ConfigFileProperties.
Import JsString JsStringFacts ConfigService ConfigServiceFacts Fixture.

Section WithHost.
Context {host : Host}.

(** The directory the search of [findProjectRoot] starts in. *)
Definition startDirectory (startPath : string) : string :=
  if existsSync startPath && isFile startPath then dirname startPath else startPath.

(** The [n]-th directory above [p]. *)
Definition ancestor (n : nat) (p : string) : string := Nat.iter n dirname p.

(** [searched n p]: the loop went through the first [n] directories
    from [p] upwards without finding the configuration file in any, and
    none of them was the top. *)
Definition searched (n : nat) (p : string) : Prop :=
  forall m, m < n ->
    ancestor m p <> dirname (ancestor m p)
    /\ existsSync (join (ancestor m p) CONFIG_FILE_NAME) = false.

Lemma ancestor_step n p : ancestor n (dirname p) = ancestor (S n) p.
Proof. unfold ancestor. now rewrite Nat.iter_succ_r. Qed.

Lemma searched_step n p :
  p <> dirname p -> existsSync (join p CONFIG_FILE_NAME) = false ->
  searched n (dirname p) -> searched (S n) p.
Proof.
  intros Hmove Hex H [| m] Hm.
  - split; assumption.
  - rewrite <- ancestor_step. apply H. lia.
Qed.

Lemma findRootLoop_sound fuel p r :
  findRootLoop fuel p = Some r ->
  exists n,
    searched n p
    /\ match r with
       | Some d => d = ancestor n p
                   /\ d <> dirname d
                   /\ existsSync (join d CONFIG_FILE_NAME) = true
       | None => ancestor n p = dirname (ancestor n p)
       end.
Proof.
  revert p. induction fuel as [| fuel IH]; intros p H; [discriminate |].
  cbn [findRootLoop] in H.
  destruct (String.eqb_spec p (dirname p)) as [Htop | Hmove].
  - injection H as <-. exists 0. split; [intros m Hm; lia | exact Htop].
  - destruct (existsSync (join p CONFIG_FILE_NAME)) eqn:Hex.
    + injection H as <-. exists 0. split; [intros m Hm; lia |]. now repeat split.
    + destruct (IH _ H) as [n [Hs Hr]]. exists (S n). split.
      * now apply searched_step.
      * rewrite <- ancestor_step. exact Hr.
Qed.

End WithHost.

(** ** Lines and comment lines *)

Definition LF : string := String "010" EmptyString.

Definition isComment (line : string) : bool := startsWith (trim line) "//".

Lemma splitLines_cons c r :
  splitLines (String c r)
  = if Ascii.eqb c "010" then EmptyString :: splitLines r
    else match splitLines r with
         | l :: ls => String c l :: ls
         | [] => [String c EmptyString]
         end.
Proof. reflexivity. Qed.

Lemma splitLines_nonempty s : splitLines s <> [].
Proof.
  destruct s as [| c r]; [discriminate |]. rewrite splitLines_cons.
  destruct (Ascii.eqb c "010"); [discriminate |].
  destruct (splitLines r); discriminate.
Qed.

Lemma joinLines_cons l ls :
  ls <> [] -> joinLines (l :: ls) = l ++ LF ++ joinLines ls.
Proof. destruct ls; [congruence | reflexivity]. Qed.

(** Joining the lines of a text gives the text back. *)
Lemma joinLines_splitLines s : joinLines (splitLines s) = s.
Proof.
  induction s as [| c r IH]; [reflexivity |]. rewrite splitLines_cons.
  destruct (Ascii.eqb_spec c "010") as [-> | Hc].
  - rewrite joinLines_cons by apply splitLines_nonempty. now rewrite IH.
  - pose proof (splitLines_nonempty r) as Hne.
    destruct (splitLines r) as [| l ls]; [congruence |].
    destruct ls as [| l' ls].
    + cbn [joinLines String.concat] in *. now rewrite IH.
    + rewrite joinLines_cons by discriminate.
      rewrite joinLines_cons in IH by discriminate.
      change (String c l ++ LF ++ joinLines (l' :: ls))
        with (String c (l ++ LF ++ joinLines (l' :: ls))).
      now rewrite IH.
Qed.

Lemma splitLines_line l rest :
  hasChar "010" l = false ->
  splitLines (l ++ LF ++ rest) = l :: splitLines rest.
Proof.
  induction l as [| c l IH]; intros H; [reflexivity |].
  cbn [hasChar] in H. apply orb_false_iff in H as [Hc Hl].
  change (String c l ++ LF ++ rest) with (String c (l ++ LF ++ rest)).
  rewrite splitLines_cons, Hc, (IH Hl). reflexivity.
Qed.

Lemma splitLines_single l : hasChar "010" l = false -> splitLines l = [l].
Proof.
  induction l as [| c l IH]; intros H; [reflexivity |].
  cbn [hasChar] in H. apply orb_false_iff in H as [Hc Hl].
  rewrite splitLines_cons, Hc, (IH Hl). reflexivity.
Qed.

(** Splitting the joined lines gives the lines back, when there is one
    at least and none holds a line feed. *)
Lemma splitLines_joinLines ls :
  ls <> [] -> Forall (fun l => hasChar "010" l = false) ls ->
  splitLines (joinLines ls) = ls.
Proof.
  induction ls as [| l ls IH]; intros Hne Hall; [congruence |].
  inversion Hall as [| ? ? Hl Hls]; subst.
  destruct ls as [| l' ls].
  - cbn [joinLines String.concat]. now apply splitLines_single.
  - rewrite joinLines_cons by discriminate.
    rewrite (splitLines_line _ _ Hl). f_equal. apply IH; [discriminate | exact Hls].
Qed.

Lemma splitLines_no_LF s : Forall (fun l => hasChar "010" l = false) (splitLines s).
Proof.
  induction s as [| c r IH]; [repeat constructor |]. rewrite splitLines_cons.
  destruct (Ascii.eqb c "010") eqn:Hc.
  - constructor; [reflexivity | exact IH].
  - destruct (splitLines r) as [| l ls]; [repeat constructor; cbn; now rewrite Hc |].
    inversion IH as [| ? ? Hl Hls]; subst.
    constructor; [cbn [hasChar]; now rewrite Hc, Hl | exact Hls].
Qed.

(** The lines of a text without its comment lines. *)
Definition keptLines (content : string) : list string :=
  match filter (fun line => negb (isComment line)) (splitLines content) with
  | [] => [EmptyString]
  | kept => kept
  end.

Lemma filter_no_LF (keep : string -> bool) ls :
  Forall (fun l => hasChar "010" l = false) ls ->
  Forall (fun l => hasChar "010" l = false) (filter keep ls).
Proof.
  intros H. apply Forall_forall. intros l Hl. apply filter_In in Hl as [Hl _].
  revert l Hl. now apply Forall_forall.
Qed.

Lemma filter_filter (keep : string -> bool) ls : filter keep (filter keep ls) = filter keep ls.
Proof.
  induction ls as [| l ls IH]; [reflexivity |]. cbn [filter].
  destruct (keep l) eqn:E; [| exact IH]. cbn [filter]. now rewrite E, IH.
Qed.

Lemma splitLines_stripComments content :
  splitLines (stripComments content) = keptLines content.
Proof.
  unfold stripComments, keptLines. fold isComment.
  change (fun line => negb (startsWith (trim line) "//"))
    with (fun line => negb (isComment line)).
  destruct (filter (fun line => negb (isComment line)) (splitLines content))
    as [| l ls] eqn:E; [reflexivity |].
  apply splitLines_joinLines; [discriminate |].
  rewrite <- E. apply filter_no_LF, splitLines_no_LF.
Qed.

(** X5: the search of [findProjectRoot] goes from the start directory
    (the directory of the start path when that is a file) upwards, one
    parent at a time.  It returns the nearest directory that holds
    [.gitcommit]: every directory passed before it lacks the file.  The
    top directory, which is its own parent, is never examined and never
    returned, so a [.gitcommit] there is not found; the answer is
    [null] exactly when the top is reached this way. *)
Theorem findProjectRoot_finds_nearest (host : Host) (startPath : string) :
  exists n,
    searched n (startDirectory startPath)
    /\ match findProjectRoot startPath with
       | Some d =>
           d = ancestor n (startDirectory startPath)
           /\ d <> dirname d
           /\ existsSync (join d CONFIG_FILE_NAME) = true
       | None =>
           ancestor n (startDirectory startPath)
           = dirname (ancestor n (startDirectory startPath))
       end.
Proof.
  unfold findProjectRoot. fold (startDirectory startPath).
  destruct (findRootLoop_total (startDirectory startPath)) as [r Hr].
  rewrite (Hr (2 + String.length (startDirectory startPath))) by lia.
  destruct (findRootLoop_sound _ _ _ (Hr _ (Nat.le_refl _))) as [n [Hs Hn]].
  exists n. split; [exact Hs |]. destruct r as [d |]; exact Hn.
Qed.

(** X6: the comment filter of [readConfig].  The lines of the filtered
    text are the lines of the text that do not start with [//] after
    trimming, in their order (one empty line when none is left); no
    line of the result is a comment line; filtering twice is filtering
    once; a text without comment lines is returned as it is, because
    joining the lines of a text gives the text back. *)
Theorem comment_lines_are_removed (content : string) :
  splitLines (stripComments content) = keptLines content
  /\ Forall (fun line => isComment line = false) (splitLines (stripComments content))
  /\ stripComments (stripComments content) = stripComments content
  /\ joinLines (splitLines content) = content
  /\ (existsb isComment (splitLines content) = false -> stripComments content = content).
Proof.
  assert (Hkept : forall ls, Forall (fun line => isComment line = false)
                                    (filter (fun line => negb (isComment line)) ls)).
  { intros ls. apply Forall_forall. intros l Hl. apply filter_In in Hl as [_ Hl].
    now apply negb_true_iff in Hl. }
  split; [apply splitLines_stripComments |]. split; [| split; [| split]].
  - rewrite splitLines_stripComments. unfold keptLines.
    pose proof (Hkept (splitLines content)) as H.
    destruct (filter _ (splitLines content)); [repeat constructor | exact H].
  - unfold stripComments at 1. fold isComment.
    change (fun line => negb (startsWith (trim line) "//"))
      with (fun line => negb (isComment line)).
    rewrite splitLines_stripComments. unfold keptLines, stripComments. fold isComment.
    change (fun line => negb (startsWith (trim line) "//"))
      with (fun line => negb (isComment line)).
    destruct (filter (fun line => negb (isComment line)) (splitLines content))
      as [| l ls] eqn:E; [reflexivity |].
    rewrite <- E. now rewrite filter_filter.
  - apply joinLines_splitLines.
  - intros Hnone. unfold stripComments. fold isComment.
    change (fun line => negb (startsWith (trim line) "//"))
      with (fun line => negb (isComment line)).
    replace (filter (fun line => negb (isComment line)) (splitLines content))
      with (splitLines content); [apply joinLines_splitLines |].
    induction (splitLines content) as [| l ls IH]; [reflexivity |].
    cbn [existsb] in Hnone. apply orb_false_iff in Hnone as [Hl Hls].
    cbn [filter]. rewrite Hl. cbn [negb]. now rewrite <- (IH Hls).
Qed.

(** X7: the choice of a project in a multi-project configuration.  A
    name that some project of the list carries selects a project of
    that name; a name that no project carries selects the first project
    of the list all the same; whatever the name, the project returned
    is one of the list, and nothing is returned only for the empty
    list. *)
Theorem project_choice_in_a_list
        (host : Host) (configFileRoot : string) (configFile : GitCommitConfigFile)
        (projects : list GitCommitProjectConfig) :
  readConfig configFileRoot = Some configFile ->
  cf_config configFile = ConfigArray projects ->
  (forall n q, truthy n = true -> In q projects -> projectName q = n ->
               exists p, getProjectConfig configFileRoot (Some n) = Some p
                         /\ projectName p = n)
  /\ (forall n, (forall q, In q projects -> projectName q <> n) ->
                getProjectConfig configFileRoot (Some n) = head projects)
  /\ (forall name p, getProjectConfig configFileRoot name = Some p -> In p projects)
  /\ (forall name, getProjectConfig configFileRoot name = None <-> projects = []).
Proof.
  intros Hread Hcfg.
  assert (Hfound : forall n q, In q projects -> projectName q = n ->
                     exists p, findProject n projects = Some p /\ projectName p = n).
  { intros n q Hin Hq. unfold findProject.
    destruct (find (fun p => (projectName p =? n)%string) projects) as [p |] eqn:E.
    - exists p. split; [reflexivity |]. apply find_some in E as [_ E].
      now apply String.eqb_eq in E.
    - exfalso. apply (find_none _ _ E) in Hin. apply String.eqb_neq in Hin. congruence. }
  assert (Hmissing : forall n, (forall q, In q projects -> projectName q <> n) ->
                       findProject n projects = None).
  { intros n Hn. unfold findProject.
    destruct (find (fun p => (projectName p =? n)%string) projects) as [p |] eqn:E;
      [| reflexivity].
    apply find_some in E as [Hin E]. apply String.eqb_eq in E. now apply Hn in Hin. }
  assert (Hshape : forall name,
             getProjectConfig configFileRoot name
             = match (if truthyOpt name
                      then match name with Some n => findProject n projects | None => None end
                      else None) with
               | Some p => Some p
               | None => head projects
               end).
  { intros name. unfold getProjectConfig. rewrite Hread, Hcfg.
    destruct (if truthyOpt name then _ else _); [reflexivity |]. now destruct projects. }
  split; [| split; [| split]].
  - intros n q Hn Hin Hq. destruct (Hfound n q Hin Hq) as [p [Hp Hname]].
    exists p. split; [| exact Hname]. rewrite Hshape. cbn [truthyOpt]. now rewrite Hn, Hp.
  - intros n Hn. rewrite Hshape. cbn [truthyOpt].
    destruct (truthy n); [now rewrite (Hmissing n Hn) | reflexivity].
  - intros name p. rewrite Hshape.
    destruct (if truthyOpt name then _ else _) as [q |] eqn:E.
    + intros H. injection H as <-.
      destruct (truthyOpt name); [| discriminate].
      destruct name as [n |]; [| discriminate].
      unfold findProject in E. now apply find_some in E as [E _].
    + destruct projects as [| first others]; [discriminate |].
      intros H. injection H as <-. now left.
  - intros name. rewrite Hshape. split.
    + destruct (if truthyOpt name then _ else _) as [q |]; [discriminate |].
      destruct projects; [reflexivity | discriminate].
    + intros ->. destruct (truthyOpt name); [| reflexivity].
      destruct name; reflexivity.
Qed.

(** The monorepo of the examples lists [Insurance.Api] and
    [Insurance.Web]. *)
Lemma project_choice_in_a_list_witness :
  (forall n q, truthy n = true -> In q [api; web] -> projectName q = n ->
               exists p, @getProjectConfig (hostOf (monorepo tagged)) "/repo" (Some n) = Some p
                         /\ projectName p = n)
  /\ (forall n, (forall q, In q [api; web] -> projectName q <> n) ->
                @getProjectConfig (hostOf (monorepo tagged)) "/repo" (Some n)
                = head [api; web])
  /\ (forall name p, @getProjectConfig (hostOf (monorepo tagged)) "/repo" name = Some p ->
                     In p [api; web])
  /\ (forall name, @getProjectConfig (hostOf (monorepo tagged)) "/repo" name = None
                   <-> [api; web] = []).
Proof.
  apply (project_choice_in_a_list (hostOf (monorepo tagged)) "/repo" multiConfig [api; web]);
    vm_compute; reflexivity.
Defined.

End ConfigFileProperties.

(* ================================================================== *)
(** * More about the version of a commit *)
(* ================================================================== *)

Module VersionInfoProperties.
Import JsString JsStringFacts AppendFacts Renderer ConfigService ConfigServiceFacts
       VersionService CommitCommand Fixture.
Import VersionProperties.

Section WithHost.
Context {host : Host}.

Lemma versionOfMatch_trimmed m v : versionOfMatch m = Some v -> trim v = v.
Proof.
  destruct m as [| | whole groups]; try discriminate. unfold versionOfMatch.
  destruct (nth 0 groups None) as [[| c g] |];
    try (destruct (truthy whole); [| discriminate]);
    intros H; injection H as <-; apply trim_idempotent.
Qed.

Lemma readVersionFromFile_trimmed configFileRoot filePath pattern v :
  readVersionFromFile configFileRoot filePath pattern = Some v -> trim v = v.
Proof.
  unfold readVersionFromFile.
  destruct (negb (existsSync (join configFileRoot filePath))); [discriminate |].
  destruct (readFileSync (join configFileRoot filePath)); [| discriminate].
  apply versionOfMatch_trimmed.
Qed.

Lemma getProjectVersion_trimmed startPath name v :
  getProjectVersion startPath name = Some v -> trim v = v.
Proof.
  unfold getProjectVersion.
  destruct (findProjectRoot startPath) as [root |]; [| discriminate].
  destruct (negb (truthy root)); [discriminate |].
  destruct (getProjectConfig root name) as [config |]; [| discriminate].
  destruct (truthy (path config) && truthy (versionRegex config)); [| discriminate].
  destruct (readVersionFromFile root (path config) (versionRegex config)) as [w |] eqn:E;
    [| discriminate].
  destruct (truthy w); [| discriminate].
  intros H. injection H as <-. exact (readVersionFromFile_trimmed _ _ _ _ E).
Qed.

Lemma trimmedOutput_clean cmd projectRoot t :
  trimmedOutput cmd projectRoot = Some t -> truthy t = true /\ trim t = t.
Proof.
  unfold trimmedOutput. destruct (exec cmd projectRoot) as [stdout | err]; [| discriminate].
  destruct (truthy (trim stdout)) eqn:E; [| discriminate].
  intros H. injection H as <-. split; [exact E | apply trim_idempotent].
Qed.

(** How [getCurrentVersion] goes on from the results of its steps. *)
Lemma getCurrentVersion_steps projectRoot filePath name :
  getCurrentVersion projectRoot filePath name
  = match configStep filePath name with
    | Some v => Fulfilled v
    | None =>
        match exactTag projectRoot with
        | Some t => Fulfilled t
        | None =>
            match exec "git rev-parse --short=8 HEAD" projectRoot with
            | inl h => Fulfilled (trim h)
            | inr err => Rejected ("获取当前版本号失败: " ++ err)
            end
        end
    end.
Proof.
  unfold getCurrentVersion, configStep, exactTag.
  destruct (match filePath with Some fp => if truthy fp then _ else None | None => None end)
    as [v |] eqn:E.
  - assert (Hv : truthy v = true).
    { destruct filePath as [fp |]; [| discriminate].
      destruct (truthy fp); [| discriminate].
      exact (getProjectVersion_truthy _ _ _ E). }
    now rewrite Hv.
  - destruct (exec "git describe --tags --exact-match HEAD" projectRoot) as [out | err];
      [| reflexivity].
    rewrite trim_idempotent. destruct (truthy (trim out)); reflexivity.
Qed.

Lemma getVersionInfo_labelled projectRoot filePath name v :
  multiProjectWithoutChoice filePath name = false ->
  getCurrentVersion projectRoot filePath name = Fulfilled v ->
  String.prefix ("版本: " ++ v) (getVersionInfo projectRoot filePath name) = true.
Proof.
  intros Hguard Hcur. unfold getVersionInfo. rewrite Hguard, Hcur. cbv zeta.
  repeat match goal with
         | |- context [match ?x with _ => _ end] => destruct x
         end;
    repeat first [ apply prefix_own | apply prefix_refl | apply prefix_app ].
Qed.

End WithHost.

(** X8: every version text the services hand out is trimmed.  What
    [getCurrentVersion] is fulfilled with has no white space at either
    end, whichever of the three sources it comes from; what
    [getProjectVersion], [getLatestTag] and [getCurrentBranch] return is
    never the empty string either: they return [null] in its place. *)
Theorem versions_are_trimmed
        (host : Host) (projectRoot startPath : string) (filePath name : option string) :
  (forall v, getCurrentVersion projectRoot filePath name = Fulfilled v -> trim v = v)
  /\ (forall v, getProjectVersion startPath name = Some v ->
                truthy v = true /\ trim v = v)
  /\ (forall t, getLatestTag projectRoot = Some t -> truthy t = true /\ trim t = t)
  /\ (forall b, getCurrentBranch projectRoot = Some b -> truthy b = true /\ trim b = b).
Proof.
  split; [| split; [| split]].
  - intros v. rewrite getCurrentVersion_steps. unfold configStep, exactTag.
    destruct filePath as [fp |].
    + destruct (truthy fp).
      * destruct (getProjectVersion fp name) as [c |] eqn:E.
        -- intros H. injection H as <-. exact (getProjectVersion_trimmed _ _ _ E).
        -- destruct (exec "git describe --tags --exact-match HEAD" projectRoot) as [o | e];
             [destruct (truthy (trim o)) |];
             try (intros H; injection H as <-; apply trim_idempotent);
             destruct (exec "git rev-parse --short=8 HEAD" projectRoot);
             try discriminate; intros H; injection H as <-; apply trim_idempotent.
      * destruct (exec "git describe --tags --exact-match HEAD" projectRoot) as [o | e];
          [destruct (truthy (trim o)) |];
          try (intros H; injection H as <-; apply trim_idempotent);
          destruct (exec "git rev-parse --short=8 HEAD" projectRoot);
          try discriminate; intros H; injection H as <-; apply trim_idempotent.
    + destruct (exec "git describe --tags --exact-match HEAD" projectRoot) as [o | e];
        [destruct (truthy (trim o)) |];
        try (intros H; injection H as <-; apply trim_idempotent);
        destruct (exec "git rev-parse --short=8 HEAD" projectRoot);
        try discriminate; intros H; injection H as <-; apply trim_idempotent.
  - intros v H. split; [exact (getProjectVersion_truthy _ _ _ H) |].
    exact (getProjectVersion_trimmed _ _ _ H).
  - intros t. apply trimmedOutput_clean.
  - intros b. apply trimmedOutput_clean.
Qed.

(** The tagged single-project repository of the examples. *)
Lemma versions_are_trimmed_witness :
  trim "1.2.3" = "1.2.3"
  /\ (truthy "1.2.3" = true /\ trim "1.2.3" = "1.2.3")
  /\ (truthy "v2.0.0" = true /\ trim "v2.0.0" = "v2.0.0")
  /\ (truthy "master" = true /\ trim "master" = "master").
Proof.
  pose proof (versions_are_trimmed
                (hostOf (singleRepo packageJsonPattern (packageJson "1.2.3") tagged))
                "/app" "/app/src/main.ts" (Some "/app/src/main.ts") None)
    as (Hcurrent & Hproject & Htag & Hbranch).
  split; [| split; [| split]].
  - apply Hcurrent. vm_compute. reflexivity.
  - apply Hproject. vm_compute. reflexivity.
  - apply Htag. vm_compute. reflexivity.
  - apply Hbranch. vm_compute. reflexivity.
Defined.


(** X10: when [getVersionInfo] gives no text.  The result is the empty
    string exactly when the configuration lists several projects and
    none is chosen, or [getCurrentVersion] is rejected; in every other
    case it starts with the label and the version [getCurrentVersion]
    gives. *)
Theorem version_info_is_empty_or_labelled
        (host : Host) (projectRoot : string) (filePath name : option string) :
  (getVersionInfo projectRoot filePath name = ""
   <-> multiProjectWithoutChoice filePath name = true
       \/ exists message, getCurrentVersion projectRoot filePath name = Rejected message)
  /\ (forall v, multiProjectWithoutChoice filePath name = false ->
                getCurrentVersion projectRoot filePath name = Fulfilled v ->
                String.prefix ("版本: " ++ v) (getVersionInfo projectRoot filePath name)
                = true).
Proof.
  split; [| intros v; apply getVersionInfo_labelled].
  split.
  - intros Hempty.
    destruct (multiProjectWithoutChoice filePath name) eqn:Hguard; [now left |].
    destruct (getCurrentVersion projectRoot filePath name) as [v | m] eqn:Hcur;
      [| right; now exists m].
    pose proof (getVersionInfo_labelled projectRoot filePath name v Hguard Hcur) as H.
    rewrite Hempty in H. discriminate.
  - unfold getVersionInfo. intros [-> | [m ->]]; [reflexivity |].
    now destruct (multiProjectWithoutChoice filePath name).
Qed.

(** X11: no project chosen, no version in the message.  When the
    [.gitcommit] found from the file in work lists projects and the
    user has chosen none, the commit message with [autoVersion] set is
    the message without it: nothing is appended, whatever the tags and
    the branch of the repository are. *)
Theorem unchosen_project_adds_no_version
        (host : Host) (isShowEmoji : bool) (repository : option string)
        (filePath configFileRoot : string) (activeFile : option string)
        (configFile : GitCommitConfigFile)
        (first : GitCommitProjectConfig) (others : list GitCommitProjectConfig)
        (config : GitCommitMessage) :
  truthy filePath = true ->
  findProjectRoot filePath = Some configFileRoot ->
  truthy configFileRoot = true ->
  readConfig configFileRoot = Some configFile ->
  cf_config configFile = ConfigArray (first :: others) ->
  combinedMessage isShowEmoji true repository (Some filePath) activeFile None config
  = combinedMessage isShowEmoji false repository (Some filePath) activeFile None config.
Proof.
  intros Hpath Hroot Htruthy Hread Hcfg.
  unfold combinedMessage, versionBlock, orPath. cbn [truthyOpt]. rewrite Hpath.
  destruct repository as [root |]; [| reflexivity].
  unfold getVersionInfo, multiProjectWithoutChoice.
  now rewrite Hpath, Hroot, Htruthy, Hread, Hcfg.
Qed.

Lemma unchosen_project_adds_no_version_witness :
  @combinedMessage (hostOf (monorepo tagged)) true true (Some "/repo")
                   (Some "/repo/web/index.ts") None None RendererProperties.loginFix
  = @combinedMessage (hostOf (monorepo tagged)) true false (Some "/repo")
                     (Some "/repo/web/index.ts") None None RendererProperties.loginFix.
Proof.
  apply (unchosen_project_adds_no_version
           (hostOf (monorepo tagged)) true (Some "/repo") "/repo/web/index.ts" "/repo"
           None multiConfig api [web] RendererProperties.loginFix);
    vm_compute; reflexivity.
Defined.

End VersionInfoProperties.

(* ================================================================== *)
(** * How the workflow operations fail *)
(* ================================================================== *)

Module FailureProperties.
Import JsString JsStringFacts AppendFacts GitFlowService WorkflowFacts GitModel.


Section WithWorld.
Context {World : Type} {gitHost : GitHost World}.























End WithWorld.



End FailureProperties.

(* ================================================================== *)
(** * The lists of workflow branches *)
(* ================================================================== *)

Module BranchListProperties.
Import JsString JsStringFacts AppendFacts GitFlowService WorkflowFacts GitModel.
Import ConfigService ConfigFileProperties.

Section WithWorld.
Context {World : Type} {gitHost : GitHost World}.

Lemma orDefault_run {A} (m : Flow World A) fallback w :
  orDefault m fallback w
  = {| after := after (m w); issued := issued (m w);
       result := match result (m w) with
                 | Fulfilled a => Fulfilled a
                 | Rejected _ => Fulfilled fallback
                 end |}.
Proof. reflexivity. Qed.

(** A listing asks for the prefix, then for the branches under it, and
    is fulfilled whatever these two commands do. *)
Lemma branchesWithPrefix_run key fallback w root :
  found w root ->
  exists setting listing,
    issued (branchesWithPrefix key fallback w)
    = (issued (getRepositoryRoot w) ++ [setting; listing])%list
    /\ inv_args setting = configGet key
    /\ inv_args listing = ["branch"; "--list"; outputOr fallback setting ++ "*"]
    /\ result (branchesWithPrefix key fallback w)
       = Fulfilled match inv_outcome listing with
                   | inl _ => listedBranches (outputOr fallback setting) (output listing)
                   | inr _ => []
                   end.
Proof.
  intros [Hroot Htruthy]. destruct root as [| c r]; [discriminate |].
  unfold branchesWithPrefix. rewrite (bind_Fulfilled _ _ _ _ Hroot).
  cbv zeta. rewrite orDefault_run. cbn [issued result prepend].
  rewrite bind_defaulted.
  set (setting := invocation ["config"; "--get"; key] (String c r) _).
  set (w1 := fst _). cbn [issued result prepend].
  rewrite bind_exec.
  destruct (execFile ["branch"; "--list"; outputOr fallback setting ++ "*"] (String c r) w1)
    as [w2 [stdout | message]] eqn:E.
  - exists setting, (invocation ["branch"; "--list"; outputOr fallback setting ++ "*"]
                                (String c r) (inl stdout)).
    cbn [issued result prepend ret inv_args inv_outcome invocation List.app output].
    repeat split; reflexivity.
  - exists setting, (invocation ["branch"; "--list"; outputOr fallback setting ++ "*"]
                                (String c r) (inr message)).
    cbn [issued result prepend ret inv_args inv_outcome invocation List.app].
    repeat split; reflexivity.
Qed.

Lemma branchesWithPrefix_fulfilled key fallback w :
  exists names, result (branchesWithPrefix key fallback w) = Fulfilled names.
Proof.
  unfold branchesWithPrefix.
  destruct (getRepositoryRoot_fulfilled w) as [root Hroot].
  rewrite (bind_Fulfilled _ _ _ _ Hroot). cbn [result prepend].
  destruct root as [[| c r] |]; try (now exists []).
  cbv zeta. unfold orDefault at 1. cbn [result].
  match goal with |- context [match ?x with _ => _ end] => destruct x end; eauto.
Qed.

Lemma branchesWithPrefix_unfound key fallback w :
  (forall root, ~ found w root) ->
  result (branchesWithPrefix key fallback w) = Fulfilled []
  /\ issued (branchesWithPrefix key fallback w) = issued (getRepositoryRoot w).
Proof.
  intros Hnone. unfold branchesWithPrefix.
  destruct (getRepositoryRoot_fulfilled w) as [root Hroot].
  rewrite (bind_Fulfilled _ _ _ _ Hroot). cbn [result issued prepend].
  destruct root as [[| c r] |]; cbn [ret result issued]; try now rewrite app_nil_r.
  exfalso. apply (Hnone (String c r)). now split.
Qed.

End WithWorld.

(** Every name of a listing is the prefix and something after it. *)
Lemma listedBranches_prefixed prefix text b :
  In b (listedBranches prefix text) ->
  exists rest, b = prefix ++ rest /\ rest <> EmptyString.
Proof.
  unfold listedBranches. intros H. apply filter_In in H as [_ H].
  apply andb_true_iff in H as [Hp Hl]. apply Nat.ltb_lt in Hl.
  exists (drop (String.length prefix) b). split; [now apply prefix_split |].
  intros Hempty. pose proof (length_drop (String.length prefix) b) as Hd.
  rewrite Hempty in Hd. cbn [String.length] in Hd. lia.
Qed.

(** ** Reading the output of [git branch --list]

    [git] prints one branch a line, two characters before the name:
    an asterisk and a blank for the branch checked out, two blanks for
    every other branch. *)

Definition listingLine (entry : bool * string) : string :=
  (if fst entry then "* " else "  ") ++ snd entry.

Fixpoint gitListing (entries : list (bool * string)) : string :=
  match entries with
  | [] => EmptyString
  | entry :: rest => listingLine entry ++ LF ++ gitListing rest
  end.

(** Printable ASCII characters other than the blank. *)
Definition visible (c : ascii) : bool := (33 <=? byte c) && (byte c <=? 126).

Fixpoint allVisible (s : string) : bool :=
  match s with
  | EmptyString => true
  | String c r => visible c && allVisible r
  end.

Fixpoint hasVisible (s : string) : bool :=
  match s with
  | EmptyString => false
  | String c r => visible c || hasVisible r
  end.

(** The branch names the reading is shown for: printable ASCII, not
    empty, and starting neither with an asterisk nor with [remotes/]. *)
Definition plainName (n : string) : bool :=
  allVisible n && negb (n =? "")%string
  && negb (String.prefix "*" n) && negb (String.prefix "remotes/" n).

Ltac break_bools :=
  repeat match goal with
         | H : _ || _ = true |- _ => apply orb_true_iff in H as [H | H]
         | H : _ && _ = true |- _ =>
             let H' := fresh H in apply andb_true_iff in H as [H' H]
         | H : (_ =? _) = true |- _ => apply Nat.eqb_eq in H
         | H : (_ <=? _) = true |- _ => apply Nat.leb_le in H
         end.

Lemma visible_not_white1 c : visible c = true -> white1 c = false.
Proof.
  unfold visible, white1. intros H. break_bools.
  replace (byte c <=? 13) with false by (symmetry; apply Nat.leb_gt; lia).
  replace (byte c =? 32) with false by (symmetry; apply Nat.eqb_neq; lia).
  now rewrite andb_false_r.
Qed.

Lemma white1_not_visible c : white1 c = true -> visible c = false.
Proof.
  intros H. destruct (visible c) eqn:E; [| reflexivity].
  apply visible_not_white1 in E. congruence.
Qed.

Lemma high_not_visible c : 127 <= byte c -> visible c = false.
Proof.
  intros H. unfold visible.
  replace (byte c <=? 126) with false by (symmetry; apply Nat.leb_gt; lia).
  apply andb_false_r.
Qed.

Lemma white2_high c1 c2 : white2 c1 c2 = true -> 127 <= byte c1 /\ 127 <= byte c2.
Proof. unfold white2. intros H. break_bools. lia. Qed.

Lemma white3_high c1 c2 c3 :
  white3 c1 c2 c3 = true -> 127 <= byte c1 /\ 127 <= byte c2 /\ 127 <= byte c3.
Proof. unfold white3. intros H. break_bools; lia. Qed.

Lemma whiteSpaceLen_visible c r : visible c = true -> whiteSpaceLen (String c r) = 0.
Proof.
  intros H. cbn [whiteSpaceLen]. rewrite (visible_not_white1 _ H).
  destruct r as [| c2 r]; [reflexivity |].
  destruct (white2 c c2) eqn:E2.
  - apply white2_high in E2 as [E2 _]. apply high_not_visible in E2. congruence.
  - destruct r as [| c3 r]; [reflexivity |].
    destruct (white3 c c2 c3) eqn:E3; [| reflexivity].
    apply white3_high in E3 as [E3 _]. apply high_not_visible in E3. congruence.
Qed.

(** White space at the head of a text takes no visible character
    away. *)
Lemma hasVisible_drop_white s :
  hasVisible s = true -> hasVisible (drop (whiteSpaceLen s) s) = true.
Proof.
  destruct s as [| c1 r1]; [discriminate |]. cbn [whiteSpaceLen].
  destruct (white1 c1) eqn:E1.
  - cbn [drop hasVisible]. now rewrite (white1_not_visible _ E1).
  - destruct r1 as [| c2 r2]; [trivial |].
    destruct (white2 c1 c2) eqn:E2.
    + apply white2_high in E2 as [Ha Hb]. cbn [drop hasVisible].
      now rewrite (high_not_visible _ Ha), (high_not_visible _ Hb).
    + destruct r2 as [| c3 r3]; [trivial |].
      destruct (white3 c1 c2 c3) eqn:E3; [| trivial].
      apply white3_high in E3 as (Ha & Hb & Hc). cbn [drop hasVisible].
      now rewrite (high_not_visible _ Ha), (high_not_visible _ Hb), (high_not_visible _ Hc).
Qed.

Lemma allWhite_visible s : hasVisible s = true -> allWhite s = false.
Proof.
  unfold allWhite. induction s as [s H | s H IH] using trimStart_ind; intros Hv.
  - rewrite (trimStart_fixed _ H). destruct s; [discriminate | reflexivity].
  - rewrite trimStart_unfold. destruct (whiteSpaceLen s) as [| k] eqn:Ek; [congruence |].
    apply IH. rewrite <- Ek. now apply hasVisible_drop_white.
Qed.

Lemma hasVisible_app a b : hasVisible (a ++ b) = hasVisible a || hasVisible b.
Proof.
  induction a as [| c a IH]; [reflexivity |]. simpl. now rewrite IH, orb_assoc.
Qed.

(** [trimEnd] leaves alone what stands before a visible character. *)
Lemma trimEnd_before_visible a b :
  hasVisible b = true -> trimEnd (a ++ b) = a ++ trimEnd b.
Proof.
  intros Hb. induction a as [| c a IH]; [reflexivity |].
  change (String c a ++ b) with (String c (a ++ b)). rewrite trimEnd_cons.
  rewrite allWhite_visible; [now rewrite IH |].
  cbn [hasVisible]. now rewrite hasVisible_app, Hb, !orb_true_r.
Qed.

Lemma trimEnd_visible_LF n : allVisible n = true -> trimEnd (n ++ LF) = n.
Proof.
  induction n as [| c n IH]; intros H; [reflexivity |].
  cbn [allVisible] in H. apply andb_true_iff in H as [Hc Hn].
  change (String c n ++ LF) with (String c (n ++ LF)). rewrite trimEnd_cons.
  rewrite allWhite_visible by (cbn [hasVisible]; now rewrite Hc).
  now rewrite (IH Hn).
Qed.

Lemma trimEnd_allVisible n : allVisible n = true -> trimEnd n = n.
Proof.
  induction n as [| c n IH]; intros H; [reflexivity |].
  cbn [allVisible] in H. apply andb_true_iff in H as [Hc Hn].
  rewrite trimEnd_cons.
  rewrite allWhite_visible by (cbn [hasVisible]; now rewrite Hc).
  now rewrite (IH Hn).
Qed.

Lemma allVisible_hasVisible n :
  allVisible n = true -> n <> EmptyString -> hasVisible n = true.
Proof.
  destruct n as [| c n]; [congruence |]. cbn [allVisible hasVisible].
  intros H _. apply andb_true_iff in H as [-> _]. reflexivity.
Qed.

Lemma allVisible_no_LF n : allVisible n = true -> hasChar "010" n = false.
Proof.
  induction n as [| c n IH]; intros H; [reflexivity |].
  cbn [allVisible] in H. apply andb_true_iff in H as [Hc Hn].
  cbn [hasChar]. rewrite (IH Hn), orb_false_r.
  apply Ascii.eqb_neq. intros ->. discriminate.
Qed.

Lemma trimStart_blank r : trimStart (String " " r) = trimStart r.
Proof. now rewrite trimStart_unfold. Qed.

Lemma trimStart_visible c r : visible c = true -> trimStart (String c r) = String c r.
Proof. intros H. apply trimStart_fixed. now apply whiteSpaceLen_visible. Qed.

Lemma plainName_split n :
  plainName n = true ->
  exists c r, n = String c r /\ visible c = true /\ allVisible n = true
              /\ Ascii.eqb c "*" = false /\ String.prefix "remotes/" n = false.
Proof.
  unfold plainName. intros H.
  apply andb_true_iff in H as [H Hremote]. apply andb_true_iff in H as [H Hstar].
  apply andb_true_iff in H as [Hall Hne].
  destruct n as [| c r]; [discriminate |]. exists c, r.
  apply negb_true_iff in Hstar, Hremote.
  assert (Hc : visible c = true)
    by (cbn [allVisible] in Hall; now apply andb_true_iff in Hall as [Hc _]).
  repeat split; try assumption.
  rewrite prefix_cons, prefix_nil, andb_true_r, Ascii.eqb_sym in Hstar. exact Hstar.
Qed.

(** What the [map] of [listedBranches] makes of a line of the
    listing, with its two leading characters or without. *)
Lemma cleaned_line n :
  plainName n = true ->
  stripRemote (stripMarker (trim n)) = n
  /\ stripRemote (stripMarker (trim ("  " ++ n))) = n
  /\ stripRemote (stripMarker (trim ("* " ++ n))) = n.
Proof.
  intros H. destruct (plainName_split n H) as (c & r & -> & Hc & Hall & Hstar & Hremote).
  assert (Hplain : stripRemote (stripMarker (String c r)) = String c r).
  { cbn [stripMarker]. rewrite Hstar. unfold stripRemote. now rewrite Hremote. }
  assert (Htrim : trim (String c r) = String c r).
  { unfold trim. now rewrite (trimStart_visible _ _ Hc), (trimEnd_allVisible _ Hall). }
  split; [| split].
  - now rewrite Htrim.
  - unfold trim. change ("  " ++ String c r) with (String " " (String " " (String c r))).
    rewrite !trimStart_blank. fold (trim (String c r)). now rewrite Htrim.
  - unfold trim. change ("* " ++ String c r) with (String "*" (String " " (String c r))).
    rewrite trimStart_visible by reflexivity.
    change (String "*" (String " " (String c r))) with ("* " ++ String c r).
    rewrite trimEnd_before_visible
      by (apply allVisible_hasVisible; [exact Hall | discriminate]).
    rewrite (trimEnd_allVisible _ Hall).
    change ("* " ++ String c r) with (String "*" (String " " (String c r))).
    cbn [stripMarker]. change (Ascii.eqb "*" "*") with true. cbv iota.
    rewrite trimStart_blank, (trimStart_visible _ _ Hc).
    unfold stripRemote. now rewrite Hremote.
Qed.

Definition plainEntries (entries : list (bool * string)) : bool :=
  forallb (fun entry => plainName (snd entry)) entries.

Lemma listingLine_visible entry :
  plainName (snd entry) = true -> hasVisible (listingLine entry) = true.
Proof.
  intros H. destruct (plainName_split _ H) as (c & r & Hn & Hc & _).
  unfold listingLine. rewrite hasVisible_app, Hn. cbn [hasVisible]. rewrite Hc.
  now rewrite orb_true_r.
Qed.

Lemma listingLine_no_LF entry :
  plainName (snd entry) = true -> hasChar "010" (listingLine entry) = false.
Proof.
  intros H. destruct (plainName_split _ H) as (c & r & Hn & _ & Hall & _).
  unfold listingLine. rewrite hasChar_app, (allVisible_no_LF _ Hall).
  now destruct (fst entry).
Qed.

(** The end of the listing: [trimEnd] takes the last line feed away
    and nothing else. *)
Lemma trimEnd_listing before n entries :
  allVisible n = true -> n <> EmptyString -> plainEntries entries = true ->
  trimEnd ((before ++ n) ++ LF ++ gitListing entries)
  = joinLines ((before ++ n) :: map listingLine entries).
Proof.
  revert before n. induction entries as [| entry entries IH]; intros before n Hn Hne Hall.
  - cbn [gitListing map joinLines String.concat].
    change (LF ++ "") with LF. rewrite append_assoc.
    rewrite trimEnd_before_visible.
    + now rewrite (trimEnd_visible_LF _ Hn).
    + rewrite hasVisible_app, (allVisible_hasVisible _ Hn Hne). reflexivity.
  - cbn [plainEntries forallb] in Hall. apply andb_true_iff in Hall as [Hentry Hall].
    destruct (plainName_split _ Hentry) as (c & r & Hname & _ & Hvis & _).
    rewrite Hname in Hvis.
    cbn [gitListing map]. rewrite joinLines_cons by discriminate.
    rewrite <- (append_assoc (before ++ n) LF).
    rewrite trimEnd_before_visible.
    + unfold listingLine at 1. rewrite Hname.
      rewrite (IH (if fst entry then "* " else "  ") (String c r));
        [| exact Hvis | discriminate | exact Hall].
      unfold listingLine at 2. rewrite Hname. now rewrite append_assoc.
    + rewrite hasVisible_app, (listingLine_visible _ Hentry). reflexivity.
Qed.

(** The first line of the trimmed listing: the two blanks of a branch
    that is not checked out are gone. *)
Definition firstLine (entry : bool * string) : string :=
  if fst entry then listingLine entry else snd entry.

Lemma trim_listing entry entries :
  plainEntries (entry :: entries) = true ->
  trim (gitListing (entry :: entries))
  = joinLines (firstLine entry :: map listingLine entries).
Proof.
  intros Hall. cbn [plainEntries forallb] in Hall.
  apply andb_true_iff in Hall as [Hentry Hall].
  destruct (plainName_split _ Hentry) as (c & r & Hname & Hc & Hvis & _).
  unfold trim. cbn [gitListing]. unfold firstLine, listingLine at 1 3.
  destruct entry as [current n]. cbn [fst snd] in *. subst n.
  destruct current.
  - change (("* " ++ String c r) ++ LF ++ gitListing entries)
      with (String "*" (String " " (String c r) ++ LF ++ gitListing entries)).
    rewrite trimStart_visible by reflexivity.
    change (String "*" (String " " (String c r) ++ LF ++ gitListing entries))
      with (("* " ++ String c r) ++ LF ++ gitListing entries).
    apply trimEnd_listing; [exact Hvis | discriminate | exact Hall].
  - change (("  " ++ String c r) ++ LF ++ gitListing entries)
      with (String " " (String " " (String c (r ++ LF ++ gitListing entries)))).
    rewrite !trimStart_blank, (trimStart_visible _ _ Hc).
    change (String c (r ++ LF ++ gitListing entries))
      with (("" ++ String c r) ++ LF ++ gitListing entries).
    rewrite trimEnd_listing; [reflexivity | exact Hvis | discriminate | exact Hall].
Qed.

Lemma cleaned_lines entries :
  plainEntries entries = true ->
  map (fun b => stripRemote (stripMarker (trim b))) (map listingLine entries)
  = map snd entries.
Proof.
  induction entries as [| [current n] entries IH]; intros H; [reflexivity |].
  cbn [plainEntries forallb snd] in H. apply andb_true_iff in H as [Hn H].
  cbn [map snd]. rewrite (IH H). f_equal.
  destruct (cleaned_line n Hn) as (_ & Hblank & Hstar).
  unfold listingLine. cbn [fst snd]. now destruct current.
Qed.

(** X14: the branch listings read back what [git] prints.  For branch
    names of printable ASCII that start neither with an asterisk nor
    with [remotes/], printed one a line behind the two-character
    marker, the names [listedBranches] extracts from the trimmed output
    are exactly the printed names that start with the prefix and go on
    after it, in the order of the output; the marker of the branch
    checked out and the blanks are gone. *)
Theorem listing_of_git_is_read_back (prefix : string) (entries : list (bool * string)) :
  plainEntries entries = true ->
  listedBranches prefix (trim (gitListing entries))
  = filter (fun n => startsWith n prefix && (String.length prefix <? String.length n))
           (map snd entries).
Proof.
  intros Hall. unfold listedBranches.
  destruct entries as [| entry entries].
  { change (trim (gitListing [])) with EmptyString.
    cbn [splitLines map filter String.length]. unfold startsWith.
    change (String.length prefix <? 0) with false. now rewrite andb_false_r. }
  f_equal. rewrite (trim_listing _ _ Hall).
  pose proof Hall as Hparts. cbn [plainEntries forallb] in Hparts.
  apply andb_true_iff in Hparts as [Hentry Hrest].
  rewrite splitLines_joinLines.
  - cbn [map]. rewrite (cleaned_lines _ Hrest). f_equal.
    destruct (cleaned_line _ Hentry) as (Hbare & _ & Hstar).
    unfold firstLine, listingLine. destruct entry as [[|] n]; cbn [fst snd] in *; assumption.
  - discriminate.
  - constructor.
    + unfold firstLine. destruct (fst entry); [now apply listingLine_no_LF |].
      destruct (plainName_split _ Hentry) as (c & r & Hn & _ & Hvis & _).
      now apply allVisible_no_LF.
    + apply Forall_forall. intros line Hline. apply in_map_iff in Hline as [e [<- He]].
      apply listingLine_no_LF.
      unfold plainEntries in Hrest. rewrite forallb_forall in Hrest. now apply Hrest.
Qed.

(** Four branches, the second of them checked out. *)
Lemma listing_of_git_is_read_back_witness :
  listedBranches "feature/"
    (trim (gitListing [(false, "develop"); (true, "feature/login");
                       (false, "feature/search"); (false, "master")]))
  = filter (fun n => startsWith n "feature/"
                     && (String.length "feature/" <? String.length n))
           (map snd [(false, "develop"); (true, "feature/login");
                     (false, "feature/search"); (false, "master")]).
Proof.
  apply (listing_of_git_is_read_back "feature/"
           [(false, "develop"); (true, "feature/login");
            (false, "feature/search"); (false, "master")]).
  reflexivity.
Defined.

(** X13: the three branch listings never fail.  [getFeatureBranches],
    [getReleaseBranches] and [getHotfixBranches] are fulfilled in every
    world.  When the repository is found they issue two commands, the
    reading of the prefix (whose failure gives the default prefix) and
    [git branch --list] with the prefix and an asterisk, and answer
    with the names read from its output, or with no name when that
    command fails; when the repository is not found they issue nothing
    more and answer with no name.  Every name of an answer is the
    prefix followed by at least one character. *)
Theorem branch_listings_never_fail
        {World : Type} {gitHost : GitHost World} (w : World) (key fallback : string) :
  (exists names, result (branchesWithPrefix key fallback w) = Fulfilled names)
  /\ (forall root, found w root ->
        exists setting listing,
          issued (branchesWithPrefix key fallback w)
          = (issued (getRepositoryRoot w) ++ [setting; listing])%list
          /\ inv_args setting = configGet key
          /\ inv_args listing = ["branch"; "--list"; outputOr fallback setting ++ "*"]
          /\ result (branchesWithPrefix key fallback w)
             = Fulfilled match inv_outcome listing with
                         | inl _ => listedBranches (outputOr fallback setting)
                                                   (output listing)
                         | inr _ => []
                         end)
  /\ ((forall root, ~ found w root) ->
      result (branchesWithPrefix key fallback w) = Fulfilled []
      /\ issued (branchesWithPrefix key fallback w) = issued (getRepositoryRoot w))
  /\ (forall prefix text b,
         In b (listedBranches prefix text) ->
         exists rest, b = prefix ++ rest /\ rest <> EmptyString)
  /\ (getFeatureBranches w = branchesWithPrefix "gitflow.prefix.feature" "feature/" w
      /\ getReleaseBranches w = branchesWithPrefix "gitflow.prefix.release" "release/" w
      /\ getHotfixBranches w = branchesWithPrefix "gitflow.prefix.hotfix" "hotfix/" w).
Proof.
  split; [apply branchesWithPrefix_fulfilled |].
  split; [intros root; apply branchesWithPrefix_run |].
  split; [apply branchesWithPrefix_unfound |].
  split; [apply listedBranches_prefixed |].
  repeat split.
Qed.

End BranchListProperties.

(* ================================================================== *)
(** * The list of commit templates *)
(* ================================================================== *)

Module TemplateProperties.
Import JsString TemplateType.

Lemma hasName_In names name : hasName names name = true <-> In name names.
Proof.
  unfold hasName. rewrite existsb_exists. split.
  - intros [x [Hx Heq]]. apply String.eqb_eq in Heq. now subst.
  - intros H. exists name. split; [exact H | apply String.eqb_refl].
Qed.

(** The defaults that no configured template replaces. *)
Definition keptDefaults (items : list TemplateSetting) : list CommitTemplateType :=
  filter (fun t => negb (hasName (map templateName (map customTemplate items))
                                 (templateName t)))
         defaultTemplates.

Lemma getCommitTemplates_shape items :
  getCommitTemplates (Some items) = (map customTemplate items ++ keptDefaults items)%list.
Proof. destruct items; reflexivity. Qed.

Lemma orText_named value : orText value "Custom" <> EmptyString.
Proof. destruct value as [[| c r] |]; discriminate. Qed.

Lemma keptDefaults_spec items d :
  In d (keptDefaults items)
  <-> In d defaultTemplates
      /\ forall item, In item items -> templateName (customTemplate item) <> templateName d.
Proof.
  unfold keptDefaults. rewrite filter_In, negb_true_iff. split.
  - intros [Hd Hname]. split; [exact Hd |]. intros item Hitem Heq.
    assert (Hin : In (templateName d) (map templateName (map customTemplate items))).
    { rewrite <- Heq. now apply in_map, in_map. }
    apply hasName_In in Hin. congruence.
  - intros [Hd Hnone]. split; [exact Hd |].
    destruct (hasName _ (templateName d)) eqn:E; [| reflexivity].
    apply hasName_In in E. apply in_map_iff in E as [c [Hc Hin]].
    apply in_map_iff in Hin as [item [<- Hitem]]. now apply Hnone in Hitem.
Qed.

(** X15: the templates offered for a commit.  The configured templates
    come first, in the order of the setting, each under its name or
    under [Custom] when it has none; after them come the default
    templates whose name no configured template carries.  The list is
    never empty, no template of it has an empty name (so choosing any
    of them leads on to the choice of the commit type), and the names
    are distinct whenever those of the configured templates are.
    Without configured templates the list is the default list. *)
Theorem templates_offered (items : list TemplateSetting) :
  getCommitTemplates (Some items) <> []
  /\ Forall (fun t => templateName t <> EmptyString /\ label t = templateName t)
            (getCommitTemplates (Some items))
  /\ (exists rest,
         getCommitTemplates (Some items) = (map customTemplate items ++ rest)%list
         /\ forall d, In d rest
                      <-> In d defaultTemplates
                          /\ forall item, In item items ->
                               templateName (customTemplate item) <> templateName d)
  /\ (NoDup (map templateName (map customTemplate items)) ->
      NoDup (map templateName (getCommitTemplates (Some items))))
  /\ getCommitTemplates None = defaultTemplates
  /\ getCommitTemplates (Some []) = defaultTemplates.
Proof.
  split; [| split; [| split; [| split; [| split]]]]; try reflexivity.
  - destruct items; discriminate.
  - rewrite getCommitTemplates_shape. apply Forall_app. split.
    + apply Forall_forall. intros t Ht. apply in_map_iff in Ht as [item [<- _]].
      split; [apply orText_named | reflexivity].
    + apply Forall_forall. intros t Ht. apply keptDefaults_spec in Ht as [Ht _].
      destruct Ht as [<- | []]. split; [discriminate | reflexivity].
  - exists (keptDefaults items). split; [apply getCommitTemplates_shape |].
    apply keptDefaults_spec.
  - intros Hdistinct. rewrite getCommitTemplates_shape, map_app.
    apply NoDup_app; [exact Hdistinct | |].
    + unfold keptDefaults. cbn [defaultTemplates filter].
      destruct (negb _); repeat constructor; auto.
    + intros name Hcustom Hdefault.
      apply in_map_iff in Hdefault as [d [<- Hd]].
      apply keptDefaults_spec in Hd as [_ Hd].
      apply in_map_iff in Hcustom as [c [Hname Hc]].
      apply in_map_iff in Hc as [item [<- Hitem]].
      now apply Hd in Hitem.
Qed.

End TemplateProperties.

(* ================================================================== *)
(** * The Git Flow commands and the service *)
(* ================================================================== *)

Module CommandProperties.
Import JsString JsStringFacts AppendFacts GitFlowService WorkflowFacts GitModel.
Import GitFlowCommands.

(** A text of white space only is trimmed to nothing, and no other
    text is. *)
Lemma trim_blank m : allWhite m = true -> trim m = EmptyString.
Proof.
  unfold allWhite, trim. destruct (trimStart m); [reflexivity | discriminate].
Qed.

Lemma trim_not_blank m : allWhite m = false -> trim m <> EmptyString.
Proof.
  unfold allWhite, trim. intros H.
  pose proof (trimStart_head m) as Hhead.
  destruct (trimStart m) as [| c r] eqn:E; [discriminate |].
  rewrite trimEnd_cons. unfold allWhite. rewrite (trimStart_fixed _ Hhead). discriminate.
Qed.

Section WithWorld.
Context {World : Type} {gitHost : GitHost World}.

(** A [catch] that shows the message never fails. *)
Lemma catchWith_shown {A} (m : Flow World A) (shown : string -> A) w :
  catchWith m (fun message => ret (shown message)) w
  = {| after := after (m w); issued := issued (m w);
       result := Fulfilled match result (m w) with
                           | Fulfilled a => a
                           | Rejected message => shown message
                           end |}.
Proof.
  unfold catchWith. cbv zeta. destruct (m w) as [w' evs [a | message]];
    cbn [after issued result ret]; [reflexivity |]. now rewrite app_nil_r.
Qed.

Lemma isGitRepository_fulfilled w :
  exists known, result (isGitRepository w) = Fulfilled known.
Proof.
  unfold isGitRepository. destruct (getRepositoryRoot_fulfilled w) as [root Hroot].
  rewrite (bind_Fulfilled _ _ _ _ Hroot). cbn [result prepend ret]. eauto.
Qed.

(** The branch the user picked, when the list has branches and the
    pick names one of them. *)
Definition selection (answers : FinishAnswers) (branches : list string) : option string :=
  match branches with
  | [] => None
  | _ => match pickedBranch answers branches with
         | Some index => nth_error branches index
         | None => None
         end
  end.

(** The body of a finish command, from the list of branches on. *)
Lemma finishCommand_run word literal listing finish answers w branches :
  result (isGitRepository w) = Fulfilled true ->
  result (listing (after (isGitRepository w))) = Fulfilled branches ->
  let asked := isGitRepository w in
  let listed := listing (after asked) in
  let command := finishCommand word literal listing finish answers w in
  match selection answers branches with
  | None =>
      result command
      = Fulfilled match branches with
                  | [] => Warning ("没有找到 " ++ word ++ " 分支")
                  | _ => Nothing
                  end
      /\ issued command = (issued asked ++ issued listed)%list
      /\ after command = after listed
  | Some selected =>
      let run := finish (removePrefix literal selected) answers (after listed) in
      result command
      = Fulfilled match result run with
                  | Fulfilled _ =>
                      Information (word ++ " 分支 " ++ quoted selected ++ " 已完成！")
                  | Rejected message =>
                      Failure ("完成 " ++ word ++ " 分支失败: " ++ message)
                  end
      /\ issued command = (issued asked ++ issued listed ++ issued run)%list
      /\ after command = after run
  end.
Proof.
  intros Hasked Hlisted. cbv zeta. unfold finishCommand. rewrite catchWith_shown.
  cbn [result issued after].
  rewrite (bind_Fulfilled _ _ _ _ Hasked). cbn [negb].
  rewrite (bind_Fulfilled _ _ _ _ Hlisted). cbn [result issued after prepend].
  unfold selection. destruct branches as [| b bs].
  - cbn [ret result issued after]. now rewrite !app_nil_r.
  - destruct (pickedBranch answers (b :: bs)) as [index |].
    + destruct (nth_error (b :: bs) index) as [selected |].
      * unfold bind. cbv zeta.
        destruct (finish (removePrefix literal selected) answers
                         (after (listing (after (isGitRepository w)))))
          as [w' evs [[] | message]]; cbn [ret result issued after];
          rewrite ?app_nil_r; repeat split; reflexivity.
      * cbn [ret result issued after]. now rewrite !app_nil_r.
    + cbn [ret result issued after]. now rewrite !app_nil_r.
Qed.

Lemma finishCommand_fulfilled word literal listing finish answers w :
  exists notice,
    result (finishCommand word literal listing finish answers w) = Fulfilled notice.
Proof. unfold finishCommand. rewrite catchWith_shown. cbn [result]. eauto. Qed.

Lemma finishCommand_outside word literal listing finish answers w :
  result (isGitRepository w) = Fulfilled false ->
  result (finishCommand word literal listing finish answers w)
  = Fulfilled (Warning NOT_A_REPOSITORY)
  /\ issued (finishCommand word literal listing finish answers w)
     = issued (isGitRepository w).
Proof.
  intros H. unfold finishCommand. rewrite catchWith_shown. cbn [result issued].
  rewrite (bind_Fulfilled _ _ _ _ H). cbn [negb ret prepend result issued].
  now rewrite app_nil_r.
Qed.

(** Two sets of answers that pick the same branch and lead to the same
    run of the operation give the same run of the command. *)
Lemma finishCommand_ext word literal listing finish finish' answers answers' w :
  pickedBranch answers = pickedBranch answers' ->
  (forall name w', finish name answers w' = finish' name answers' w') ->
  finishCommand word literal listing finish answers w
  = finishCommand word literal listing finish' answers' w.
Proof.
  intros Hpick Hfinish. unfold finishCommand.
  match goal with
  | |- catchWith ?m ?h w = catchWith ?m' ?h w =>
      assert (Hbody : forall w0, m w0 = m' w0); [| unfold catchWith; now rewrite Hbody]
  end.
  intros w0. unfold bind. cbv zeta.
  destruct (result (isGitRepository w0)) as [[|] | message]; cbn [negb]; try reflexivity.
  destruct (result (listing (after (isGitRepository w0)))) as [[| b bs] | message];
    try reflexivity.
  rewrite <- Hpick. destruct (pickedBranch answers (b :: bs)) as [index |]; [| reflexivity].
  destruct (nth_error (b :: bs) index) as [selected |]; [| reflexivity].
  now rewrite Hfinish.
Qed.

End WithWorld.

(** The answers that count: a message box that was dismissed or left
    blank counts as no message, a message is taken trimmed, and a last
    question that was dismissed counts as the answer to delete the
    branch. *)
Definition settledAnswers (answers : FinishAnswers) : FinishAnswers :=
  {| pickedBranch := pickedBranch answers;
     tagMessage := match tagMessage answers with
                   | Some message => if allWhite message then None else Some (trim message)
                   | None => None
                   end;
     keepBranch := Some (kept answers) |}.

(** X16: what a finish command does.  Each of the commands that finish
    a feature, a release or a hotfix is fulfilled whatever happens: a
    failure of the service is shown as a text, the message of the
    failure behind the prefix of the command.  Outside a repository it
    warns and issues nothing more.  When no branch is listed, or the
    list is dismissed, it issues nothing after the listing.  When a
    branch is picked, it runs the operation of the service on the name
    of the branch without the fixed prefix of the command, and issues
    what that operation issues. *)
Theorem finish_commands_report
        {World : Type} {gitHost : GitHost World} (w : World) (word literal : string)
        (listing : Flow World (list string))
        (finish : string -> FinishAnswers -> Flow World unit)
        (answers : FinishAnswers) :
  let asked := isGitRepository w in
  let listed := listing (after asked) in
  let command := finishCommand word literal listing finish answers w in
  (exists notice, result command = Fulfilled notice)
  /\ (result asked = Fulfilled false ->
      result command = Fulfilled (Warning NOT_A_REPOSITORY)
      /\ issued command = issued asked)
  /\ (forall branches,
         result asked = Fulfilled true ->
         result listed = Fulfilled branches ->
         match selection answers branches with
         | None =>
             result command
             = Fulfilled match branches with
                         | [] => Warning ("没有找到 " ++ word ++ " 分支")
                         | _ => Nothing
                         end
             /\ issued command = (issued asked ++ issued listed)%list
             /\ after command = after listed
         | Some selected =>
             let run := finish (removePrefix literal selected) answers (after listed) in
             result command
             = Fulfilled match result run with
                         | Fulfilled _ =>
                             Information (word ++ " 分支 " ++ quoted selected ++ " 已完成！")
                         | Rejected message =>
                             Failure ("完成 " ++ word ++ " 分支失败: " ++ message)
                         end
             /\ issued command = (issued asked ++ issued listed ++ issued run)%list
             /\ after command = after run
         end)
  /\ (gitFlowFeatureFinish answers w
      = finishCommand "Feature" "feature/" getFeatureBranches
                      (fun name answers => finishFeature name (kept answers)) answers w
      /\ gitFlowReleaseFinish answers w
         = finishCommand "Release" "release/" getReleaseBranches
                         (fun version answers =>
                            finishRelease version (kept answers)
                                          (option_map trim (tagMessage answers)))
                         answers w
      /\ gitFlowHotfixFinish answers w
         = finishCommand "Hotfix" "hotfix/" getHotfixBranches
                         (fun version answers =>
                            finishHotfix version (kept answers)
                                         (option_map trim (tagMessage answers)))
                         answers w).
Proof.
  cbv zeta. split; [apply finishCommand_fulfilled |].
  split; [apply finishCommand_outside |].
  split; [| repeat split].
  intros branches Hasked Hlisted.
  exact (finishCommand_run word literal listing finish answers w branches Hasked Hlisted).
Qed.

(** X17: dismissing a dialog does not cancel a finish command.  Once a
    branch is picked, the command runs as it does for the settled
    answers: a tag message that is dismissed or blank gives the default
    message of the service, any other message is used trimmed, and a
    dismissed choice between deleting and keeping deletes the
    branch. *)
Theorem dismissed_dialogs_do_not_cancel
        {World : Type} {gitHost : GitHost World} (w : World) (answers : FinishAnswers) :
  gitFlowFeatureFinish answers w = gitFlowFeatureFinish (settledAnswers answers) w
  /\ gitFlowReleaseFinish answers w = gitFlowReleaseFinish (settledAnswers answers) w
  /\ gitFlowHotfixFinish answers w = gitFlowHotfixFinish (settledAnswers answers) w
  /\ kept (settledAnswers answers) = kept answers
  /\ (keepBranch answers = None -> kept answers = false)
  /\ (forall message fallback,
         tagMessage answers = Some message ->
         tagMessageOr (option_map trim (tagMessage answers)) fallback
         = if allWhite message then fallback else trim message).
Proof.
  assert (Hmessage : forall message fallback,
             tagMessageOr (Some (trim message)) fallback
             = if allWhite message then fallback else trim message).
  { intros message fallback. destruct (allWhite message) eqn:E.
    - now rewrite (trim_blank _ E).
    - pose proof (trim_not_blank _ E) as Hne. unfold tagMessageOr.
      destruct (trim message); [congruence | reflexivity]. }
  assert (Htag : forall (operation : option string -> Flow World unit),
             (forall w', operation (Some EmptyString) w' = operation None w') ->
             forall w',
               operation (option_map trim (tagMessage answers)) w'
               = operation (option_map trim (tagMessage (settledAnswers answers))) w').
  { intros operation Hblank w'. unfold settledAnswers. cbn [tagMessage].
    destruct (tagMessage answers) as [message |]; [| reflexivity].
    destruct (allWhite message) eqn:E; cbn [option_map].
    - rewrite (trim_blank _ E). apply Hblank.
    - now rewrite trim_idempotent. }
  split; [| split; [| split; [| split; [| split]]]].
  - apply finishCommand_ext; reflexivity.
  - apply finishCommand_ext; [reflexivity |]. intros version w'.
    change (kept (settledAnswers answers)) with (kept answers).
    apply (Htag (finishRelease version (kept answers))). reflexivity.
  - apply finishCommand_ext; [reflexivity |]. intros version w'.
    change (kept (settledAnswers answers)) with (kept answers).
    apply (Htag (finishHotfix version (kept answers))). reflexivity.
  - reflexivity.
  - unfold kept. now intros ->.
  - intros message fallback ->. apply Hmessage.
Qed.



(** ** The initialization command *)

(** A repository whose workflow settings were changed by hand. *)
Definition customized : Repository :=
  {| toplevel := "/repo";
     config := [("gitflow.branch.master", "master");
                ("gitflow.branch.develop", "develop");
                ("gitflow.prefix.feature", "feat/");
                ("gitflow.prefix.release", "rel/");
                ("gitflow.prefix.hotfix", "fix/");
                ("gitflow.prefix.support", "support/");
                ("gitflow.prefix.versiontag", "v")];
     branches := [("develop", Change (Initial 0) 1); ("master", Initial 0)];
     tags := []; HEAD := "master" |}.

Definition again (master develop : string) : InitAnswers :=
  {| initializeAgain := true; masterBranchName := Some master;
     developBranchName := Some develop |}.

Section InitCommand.
Context {World : Type} {gitHost : GitHost World}.

Lemma isInitialized_fulfilled (w : World) :
  exists known, result (isInitialized w) = Fulfilled known.
Proof.
  unfold isInitialized, orDefault. cbn [result].
  match goal with |- context [match ?x with _ => _ end] => destruct x end; eauto.
Qed.

(** The user goes on to the questions: Git Flow is not initialized, or
    the user asks for another initialization. *)
Definition proceeds (w : World) (answers : InitAnswers) : Prop :=
  result (isInitialized w) = Fulfilled true -> initializeAgain answers = true.

(** The settings the command stores: the two names, and the defaults
    for the five others. *)
Definition storedByCommand (master develop : string) : list (list string) :=
  [ ["config"; "gitflow.branch.master"; trim master];
    ["config"; "gitflow.branch.develop"; trim develop];
    ["config"; "gitflow.prefix.feature"; "feature/"];
    ["config"; "gitflow.prefix.release"; "release/"];
    ["config"; "gitflow.prefix.hotfix"; "hotfix/"];
    ["config"; "gitflow.prefix.support"; "support/"];
    ["config"; "gitflow.prefix.versiontag"; ""] ].

Lemma gitFlowInit_declined w answers :
  result (isInitialized w) = Fulfilled true -> initializeAgain answers = false ->
  result (gitFlowInit answers w) = Fulfilled Nothing
  /\ issued (gitFlowInit answers w) = issued (isInitialized w).
Proof.
  intros Hinit Hagain. unfold gitFlowInit. rewrite catchWith_shown. cbn [result issued].
  rewrite (bind_Fulfilled _ _ _ _ Hinit), Hagain.
  cbn [andb negb ret prepend result issued]. now rewrite app_nil_r.
Qed.

Lemma gitFlowInit_unanswered w answers :
  masterBranchName answers = None \/ masterBranchName answers = Some EmptyString
  \/ developBranchName answers = None \/ developBranchName answers = Some EmptyString ->
  exists notice,
    result (gitFlowInit answers w) = Fulfilled notice
    /\ issued (gitFlowInit answers w) = issued (isInitialized w).
Proof.
  intros Hnames. unfold gitFlowInit. rewrite catchWith_shown. cbn [result issued].
  destruct (isInitialized_fulfilled w) as [known Hknown].
  rewrite (bind_Fulfilled _ _ _ _ Hknown). cbn [prepend result issued].
  destruct (known && negb (initializeAgain answers));
    [cbn [ret result issued]; rewrite app_nil_r; eauto |].
  destruct (masterBranchName answers) as [[| c r] |];
    try (cbn [ret result issued]; rewrite app_nil_r; eauto).
  destruct (developBranchName answers) as [[| c' r'] |];
    try (cbn [ret result issued]; rewrite app_nil_r; eauto).
  exfalso. destruct Hnames as [H | [H | [H | H]]]; discriminate.
Qed.

Lemma gitFlowInit_run w answers master develop root :
  masterBranchName answers = Some master -> truthy master = true ->
  developBranchName answers = Some develop -> truthy develop = true ->
  proceeds w answers ->
  found (after (isInitialized w)) root ->
  onlyPullsFail (issued (init (askedConfig master develop) (after (isInitialized w)))) = true ->
  result (gitFlowInit answers w) = Fulfilled (Information "Git Flow 初始化成功！")
  /\ exists sets rest,
      issued (gitFlowInit answers w)
      = (issued (isInitialized w)
         ++ issued (getRepositoryRoot (after (isInitialized w))) ++ sets ++ rest)%list
      /\ commands sets = storedByCommand master develop.
Proof.
  intros Hmaster Hm Hdevelop Hd Hgo Hfound Hok.
  destruct (init_run _ _ _ Hfound Hok) as [Hresult (sets & listing & creation & Hissued & Hsets & _)].
  unfold gitFlowInit. rewrite catchWith_shown. cbn [result issued].
  destruct (isInitialized_fulfilled w) as [known Hknown].
  rewrite (bind_Fulfilled _ _ _ _ Hknown). cbn [prepend result issued].
  assert (Hif : known && negb (initializeAgain answers) = false).
  { destruct known; [| reflexivity]. now rewrite (Hgo Hknown). }
  rewrite Hif, Hmaster, Hdevelop.
  destruct master as [| c r]; [discriminate |].
  destruct develop as [| c' r']; [discriminate |].
  rewrite (bind_Fulfilled _ _ _ _ Hresult). cbn [prepend ret result issued].
  split; [reflexivity |].
  exists sets, ([listing] ++ creation)%list. split; [| exact Hsets].
  now rewrite app_nil_r, Hissued.
Qed.

End InitCommand.

(** X19: the initialization command.  It is fulfilled whatever
    happens.  When Git Flow is initialized and the user declines to
    initialize again, or when a name is left out, it issues nothing
    after the test of the initialization.  When it goes on and no
    command fails, it stores the two names as they are once trimmed,
    and the default values of the four prefixes and of the tag prefix:
    prefixes that were stored before are written over. *)
Theorem init_command_resets_prefixes
        {World : Type} {gitHost : GitHost World} (w : World) (answers : InitAnswers) :
  (exists notice, result (gitFlowInit answers w) = Fulfilled notice)
  /\ (result (isInitialized w) = Fulfilled true -> initializeAgain answers = false ->
      result (gitFlowInit answers w) = Fulfilled Nothing
      /\ issued (gitFlowInit answers w) = issued (isInitialized w))
  /\ (masterBranchName answers = None \/ masterBranchName answers = Some EmptyString
      \/ developBranchName answers = None \/ developBranchName answers = Some EmptyString ->
      issued (gitFlowInit answers w) = issued (isInitialized w))
  /\ (forall master develop root,
         masterBranchName answers = Some master -> truthy master = true ->
         developBranchName answers = Some develop -> truthy develop = true ->
         proceeds w answers ->
         found (after (isInitialized w)) root ->
         onlyPullsFail (issued (init (askedConfig master develop)
                                     (after (isInitialized w)))) = true ->
         result (gitFlowInit answers w) = Fulfilled (Information "Git Flow 初始化成功！")
         /\ exists sets rest,
             issued (gitFlowInit answers w)
             = (issued (isInitialized w)
                ++ issued (getRepositoryRoot (after (isInitialized w))) ++ sets ++ rest)%list
             /\ commands sets = storedByCommand master develop).
Proof.
  split; [| split; [| split]].
  - unfold gitFlowInit. rewrite catchWith_shown. cbn [result]. eauto.
  - apply gitFlowInit_declined.
  - intros Hnames. destruct (gitFlowInit_unanswered w answers Hnames) as [notice [_ H]].
    exact H.
  - intros master develop root. apply gitFlowInit_run.
Qed.

(** Initializing again a repository whose prefixes were set by hand:
    the names are stored trimmed, the prefixes are the defaults
    again. *)
Lemma init_command_resets_prefixes_witness :
  map (fun key => lookup key (config (after (gitFlowInit (again " main " "develop")
                                                          customized))))
      ["gitflow.branch.master"; "gitflow.branch.develop"; "gitflow.prefix.feature";
       "gitflow.prefix.release"; "gitflow.prefix.hotfix"; "gitflow.prefix.support";
       "gitflow.prefix.versiontag"]
  = [Some "main"; Some "develop"; Some "feature/"; Some "release/"; Some "hotfix/";
     Some "support/"; Some ""]
  /\ (result (gitFlowInit (again " main " "develop") customized)
      = Fulfilled (Information "Git Flow 初始化成功！")
      /\ exists sets rest,
          issued (gitFlowInit (again " main " "develop") customized)
          = (issued (isInitialized customized)
             ++ issued (getRepositoryRoot (after (isInitialized customized)))
             ++ sets ++ rest)%list
          /\ commands sets = storedByCommand " main " "develop").
Proof.
  split; [reflexivity |].
  apply (proj2 (proj2 (proj2 (init_command_resets_prefixes
                                customized (again " main " "develop"))))
           " main " "develop" "/repo");
    try reflexivity.
  - intros _. reflexivity.
  - split; reflexivity.
Defined.

End CommandProperties.

(* ================================================================== *)
(** * More about the rendered message *)
(* ================================================================== *)

Module MessageProperties.
Import JsString JsStringFacts Renderer RendererFacts.

(** [config] with another icon. *)
Definition withIcon (config : GitCommitMessage) (icon' : string) : GitCommitMessage :=
  {| templateName := templateName config; templateContent := templateContent config;
     icon := icon'; type := type config; scope := scope config;
     subject := subject config; body := body config; footer := footer config |}.

(** X20: the rendered message at its edges.  The message has no white
    space at either end, with or without version information.  With
    emoji hidden the icon of the commit type plays no part in it.  A
    template without [<] holds no placeholder, and its message is the
    trimmed template whatever the fields are (version information
    apart). *)
Theorem rendered_message_is_trimmed
        (isShowEmoji autoVersion : bool) (versionInfo : string) (config : GitCommitMessage) :
  trim (messageCombine isShowEmoji autoVersion versionInfo config)
  = messageCombine isShowEmoji autoVersion versionInfo config
  /\ (forall icon',
         messageCombine false autoVersion versionInfo (withIcon config icon')
         = messageCombine false autoVersion versionInfo config)
  /\ (hasChar "<" (templateContent config) = false ->
      messageCombine isShowEmoji false versionInfo config = trim (templateContent config)).
Proof.
  split; [| split].
  - unfold messageCombine. cbv zeta. apply trim_idempotent.
  - intros icon'. reflexivity.
  - intros Hplain. unfold messageCombine. cbv zeta. f_equal.
    rewrite substitute_chain. now rewrite !(replaceAll_absent _ _ _ Hplain).
Qed.

End MessageProperties.

(* ================================================================== *)
(** * The list of commit types *)
(* ================================================================== *)

Module CommitTypeProperties.
Import JsString CommitTypeConfig.

Definition items (customCommitTypes : option (list CustomItem)) : list CustomItem :=
  match customCommitTypes with Some l => l | None => [] end.

Lemma getCommitTypes_shown customCommitTypes :
  getCommitTypes customCommitTypes true
  = (map customType (items customCommitTypes) ++ defaultCommitTypes)%list.
Proof. destruct customCommitTypes as [[| item l] |]; reflexivity. Qed.

Lemma getCommitTypes_hidden customCommitTypes :
  getCommitTypes customCommitTypes false
  = map (fun t => withLabel t (labelWithoutIcon (label t)))
        (getCommitTypes customCommitTypes true).
Proof. destruct customCommitTypes as [[| item l] |]; reflexivity. Qed.

(** A text of ASCII characters only. *)
Fixpoint asciiOnly (s : string) : bool :=
  match s with
  | EmptyString => true
  | String c r => (byte c <? 128) && asciiOnly r
  end.

Lemma stripSymbols_ascii s : asciiOnly s = true -> stripSymbols s 0 = s.
Proof.
  induction s as [| c r IH]; intros H; [reflexivity |].
  cbn [asciiOnly] in H. apply andb_true_iff in H as [Hc Hr].
  apply Nat.ltb_lt in Hc. cbn [stripSymbols].
  replace (symbolAt (String c r)) with false; [now rewrite (IH Hr) |].
  symmetry. unfold symbolAt. destruct r as [| b [| d r']]; try reflexivity.
  replace (byte c =? 226) with false by (symmetry; apply Nat.eqb_neq; lia).
  reflexivity.
Qed.

Lemma leadingPictograph_ascii s : asciiOnly s = true -> leadingPictograph s = false.
Proof.
  destruct s as [| a [| b [| c [| d r]]]]; try reflexivity.
  cbn [asciiOnly]. intros H. apply andb_true_iff in H as [Ha _].
  apply Nat.ltb_lt in Ha. unfold leadingPictograph.
  replace (byte a =? 240) with false by (symmetry; apply Nat.eqb_neq; lia).
  reflexivity.
Qed.

(** X21: the commit types offered.  The types of the setting come
    first, in its order, a string standing for a type whose title,
    label and detail it is; the eleven default types follow.  Hiding
    emoji changes the labels and nothing else: the titles, the details
    and the icons are those shown otherwise, type by type.  A label of
    ASCII characters is only trimmed.  Of the default labels the bare
    title is left, except for [revert], whose arrow is outside the
    ranges the pattern removes. *)
Theorem commit_types_offered (customCommitTypes : option (list CustomItem)) :
  getCommitTypes customCommitTypes true
  = (map customType (items customCommitTypes) ++ defaultCommitTypes)%list
  /\ map title (getCommitTypes customCommitTypes false)
     = map title (getCommitTypes customCommitTypes true)
  /\ map detail (getCommitTypes customCommitTypes false)
     = map detail (getCommitTypes customCommitTypes true)
  /\ map icon (getCommitTypes customCommitTypes false)
     = map icon (getCommitTypes customCommitTypes true)
  /\ map label (getCommitTypes customCommitTypes false)
     = map labelWithoutIcon (map label (getCommitTypes customCommitTypes true))
  /\ (forall text, customType (TextItem text)
                   = {| label := text; title := text; detail := text; icon := "" |})
  /\ (forall text, asciiOnly text = true -> labelWithoutIcon text = trim text)
  /\ map label (getCommitTypes None false)
     = ["feat"; "fix"; "docs"; "style"; "refactor"; "perf"; "test"; "build"; "ci";
        "chore"; "↩ revert"].
Proof.
  split; [apply getCommitTypes_shown |].
  rewrite getCommitTypes_hidden, !map_map. cbn [withLabel title detail icon label].
  repeat split.
  intros text Hascii. unfold labelWithoutIcon.
  now rewrite (leadingPictograph_ascii _ Hascii), (stripSymbols_ascii _ Hascii).
Qed.

End CommitTypeProperties.

(* ================================================================== *)
(** * Initialization on the model repository *)
(* ================================================================== *)

Module InitProperties.
Import JsString JsStringFacts GitFlowService WorkflowFacts GitModel GitModelFacts.

(** The seven settings of a configuration, under their keys. *)
Definition settingsOf (c : GitFlowConfig) : list (string * string) :=
  [("gitflow.branch.master", masterBranch c);
   ("gitflow.branch.develop", developBranch c);
   ("gitflow.prefix.feature", featurePrefix c);
   ("gitflow.prefix.release", releasePrefix c);
   ("gitflow.prefix.hotfix", hotfixPrefix c);
   ("gitflow.prefix.support", supportPrefix c);
   ("gitflow.prefix.versiontag", versionTagPrefix c)].

(** The configuration of a repository after the seven settings are
    written into it. *)
Definition written (c : GitFlowConfig) (old : list (string * string))
  : list (string * string) :=
  fold_left (fun l setting => assign (fst setting) (snd setting) l) (settingsOf c) old.

Lemma root_on_model (r : Repository) :
  result (getRepositoryRoot r) = Fulfilled (Some (toplevel r)).
Proof. reflexivity. Qed.

(** The three commands of [init] on the model, one step each. *)
Lemma config_set {B} r cwd key value (k : string -> Flow Repository B) :
  (key =? "--get")%string = false ->
  bind (executeGitCommand ["config"; key; value] cwd) k r
  = prepend [invocation ["config"; key; value] cwd (inl "")]
            (k "" (withConfig r (assign key value (config r)))).
Proof.
  intros Hkey. rewrite bind_exec.
  change (execFile ["config"; key; value] cwd r) with (git ["config"; key; value] cwd r).
  unfold git, same. rewrite Hkey. reflexivity.
Qed.

Lemma branch_list {B} r cwd (k : string -> Flow Repository B) :
  bind (executeGitCommand ["branch"; "--list"] cwd) k r
  = prepend [invocation ["branch"; "--list"] cwd (inl (branchList r ++ LF))]
            (k (trim (branchList r ++ LF)) r).
Proof. reflexivity. Qed.

Lemma checkout_new {B} r cwd name (k : string -> Flow Repository B) :
  bind (executeGitCommand ["checkout"; "-b"; name] cwd) k r
  = match createBranch name r with
    | (r', inl stdout) =>
        prepend [invocation ["checkout"; "-b"; name] cwd (inl stdout)] (k (trim stdout) r')
    | (r', inr message) =>
        {| after := r'; issued := [invocation ["checkout"; "-b"; name] cwd (inr message)];
           result := Rejected ("Git 命令执行失败: " ++ message) |}
    end.
Proof. now rewrite bind_exec. Qed.

(** Creating a branch leaves the settings and the place alone. *)
Lemma createBranch_keeps name r :
  config (fst (createBranch name r)) = config r
  /\ toplevel (fst (createBranch name r)) = toplevel r.
Proof.
  unfold createBranch. destruct (lookup name (branches r)); [now split |].
  destruct (tip r); now split.
Qed.

(** The repository after [init]: the settings are written and the
    place is the same, whatever becomes of the development branch. *)
Lemma init_after r cfg :
  truthy (toplevel r) = true ->
  config (after (init cfg r)) = written (finalConfigOf cfg) (config r)
  /\ toplevel (after (init cfg r)) = toplevel r.
Proof.
  intros Htop. pose proof (root_on_model r) as Hroot.
  unfold init. rewrite (bind_Fulfilled _ _ _ _ Hroot).
  destruct (toplevel r) as [| c t] eqn:Etop; [discriminate |].
  change (after (getRepositoryRoot r)) with r.
  rewrite rethrow_run.
  do 7 (rewrite config_set by reflexivity).
  rewrite branch_list.
  set (r' := withConfig _ _).
  assert (Hconfig : config r' = written (finalConfigOf cfg) (config r)) by reflexivity.
  assert (Hplace : toplevel r' = String c t) by exact Etop.
  clearbody r'.
  destruct (negb _).
  - rewrite bind_assoc, checkout_new.
    destruct (createBranch_keeps (developBranch (finalConfigOf cfg)) r') as [Hc Ht].
    destruct (createBranch _ r') as [r'' [stdout | message]]; cbn [fst] in Hc, Ht;
      cbv [bind ret prepend reprefix after result issued]; now rewrite Hc, Ht.
  - cbv [bind ret prepend reprefix after result issued]. now split.
Qed.

(** What [isInitialized] answers on the model. *)
Lemma isInitialized_on_model (r : Repository) :
  truthy (toplevel r) = true ->
  result (isInitialized r)
  = Fulfilled match lookup "gitflow.branch.master" (config r) with
              | Some name => negb (trim (name ++ LF) =? "")%string
              | None => false
              end.
Proof.
  intros Htop. destruct (toplevel r) as [| c t] eqn:Etop; [discriminate |].
  unfold isInitialized, orDefault. cbn [result].
  assert (Hroot : result (getRepositoryRoot r) = Fulfilled (Some (String c t)))
    by (unfold getRepositoryRoot; cbn [vscodeRepositoryRoot host]; now rewrite Etop).
  rewrite (bind_Fulfilled _ _ _ _ Hroot). cbn [result prepend].
  change (after (getRepositoryRoot r)) with r.
  change (gitConfigFileExists r (String c t)) with (String c t =? toplevel r)%string.
  rewrite Etop, String.eqb_refl. cbn [negb].
  run_git. unfold configGetCommand.
  destruct (lookup "gitflow.branch.master" (config r)); reflexivity.
Qed.

Lemma lookup_written c old key value :
  In (key, value) (settingsOf c) -> lookup key (written c old) = Some value.
Proof.
  unfold written, settingsOf. cbn [fold_left fst snd In].
  intros [H | [H | [H | [H | [H | [H | [H | []]]]]]]]; injection H as <- <-;
    repeat first [ apply lookup_assign_same
                 | rewrite lookup_assign_other by reflexivity ].
Qed.

Lemma lookup_unwritten c old key :
  ~ In key (map fst (settingsOf c)) -> lookup key (written c old) = lookup key old.
Proof.
  unfold written, settingsOf. cbn [fold_left fst snd In map]. intros Hnone.
  repeat (rewrite lookup_assign_other;
          [| apply String.eqb_neq; intros Heq; apply Hnone; rewrite Heq; tauto]).
  reflexivity.
Qed.

(** X22: initialization, seen on the model repository.  After [init],
    each of the seven settings is stored under its key with the value
    of the final configuration, whatever was stored before and whether
    or not the development branch could be created; settings under
    other keys are as they were.  [isInitialized] then answers yes,
    unless the name of the main branch is blank: it reads the key
    [init] writes first. *)
Theorem init_is_recorded (r : Repository) (cfg : PartialGitFlowConfig) :
  truthy (toplevel r) = true ->
  (forall key value,
      In (key, value) (settingsOf (finalConfigOf cfg)) ->
      lookup key (config (after (init cfg r))) = Some value)
  /\ (forall key,
         ~ In key (map fst (settingsOf (finalConfigOf cfg))) ->
         lookup key (config (after (init cfg r))) = lookup key (config r))
  /\ result (isInitialized (after (init cfg r)))
     = Fulfilled (negb (trim (masterBranch (finalConfigOf cfg) ++ LF) =? "")%string).
Proof.
  intros Htop. destruct (init_after r cfg Htop) as [Hconfig Hplace]. split; [| split].
  - intros key value. rewrite Hconfig. apply lookup_written.
  - intros key. rewrite Hconfig. apply lookup_unwritten.
  - rewrite isInitialized_on_model by (now rewrite Hplace).
    rewrite Hconfig.
    now rewrite (lookup_written _ _ "gitflow.branch.master"
                                (masterBranch (finalConfigOf cfg))) by (now left).
Qed.

(** A repository without settings, initialized with the default
    configuration. *)
Lemma init_is_recorded_witness :
  (forall key value,
      In (key, value) (settingsOf (finalConfigOf noOverrides)) ->
      lookup key (config (after (init noOverrides fresh))) = Some value)
  /\ (forall key,
         ~ In key (map fst (settingsOf (finalConfigOf noOverrides))) ->
         lookup key (config (after (init noOverrides fresh))) = lookup key (config fresh))
  /\ result (isInitialized (after (init noOverrides fresh)))
     = Fulfilled (negb (trim (masterBranch (finalConfigOf noOverrides) ++ LF) =? "")%string).
Proof. apply (init_is_recorded fresh noOverrides). reflexivity. Defined.

End InitProperties.
